(** * goftus_backend: admin token codec, access gate and banner invariant

  A shallow embedding of the authentication core and of the banner
  handlers of the Express server (src/unnamed/part_000), with the
  Supabase tables as explicit state and the Node runtime functions the
  code calls (Buffer, String.prototype) as executable definitions. *)

From Stdlib Require Import NArith ZArith Lia String Ascii.
From stdpp Require Import base option list sorting gmap.

Local Open Scope N_scope.

(** ** JavaScript strings and buffers

  A JavaScript string is a sequence of UTF-16 code units, a Buffer a
  sequence of bytes; both are lists of [N]. *)

Abbreviation jsstring := (list N).
Abbreviation buffer := (list N).

(** ASCII literals as code units. *)
Definition js (s : string) : jsstring :=
  map N_of_ascii (list_ascii_of_string s).

Module JsString.

(** [s.startsWith(p)] *)
Fixpoint startsWith (s p : jsstring) : bool :=
  match p, s with
  | [], _ => true
  | _ :: _, [] => false
  | c :: p', d :: s' => (c =? d) && startsWith s' p'
  end.

(** [s.slice(n)] for a non-negative [n]. *)
Definition slice (s : jsstring) (n : nat) : jsstring := drop n s.

(** [!s] on a string: only the empty string is falsy. *)
Definition is_empty (s : jsstring) : bool :=
  match s with [] => true | _ => false end.

Definition is_high_surrogate (c : N) : bool := (0xD800 <=? c) && (c <=? 0xDBFF).
Definition is_low_surrogate (c : N) : bool := (0xDC00 <=? c) && (c <=? 0xDFFF).

(** [s.isWellFormed()]: every code unit fits 16 bits and every surrogate
    is half of a pair. *)
Fixpoint isWellFormed (s : jsstring) : bool :=
  match s with
  | [] => true
  | c :: rest =>
      if is_high_surrogate c then
        match rest with
        | d :: rest' => is_low_surrogate d && isWellFormed rest'
        | [] => false
        end
      else if is_low_surrogate c then false
      else (c <? 0x10000) && isWellFormed rest
  end.

End JsString.

(** ** Buffer: UTF-8 and base64 transcoding as Node performs them *)

Module Buffer.
Import JsString.

Definition replacement : buffer := [0xEF; 0xBF; 0xBD].

(** UTF-8 bytes of one code point. *)
Definition utf8_bytes (cp : N) : buffer :=
  if cp <? 0x80 then [cp]
  else if cp <? 0x800 then
    [N.lor 0xC0 (N.shiftr cp 6); N.lor 0x80 (N.land cp 0x3F)]
  else if cp <? 0x10000 then
    [N.lor 0xE0 (N.shiftr cp 12);
     N.lor 0x80 (N.land (N.shiftr cp 6) 0x3F);
     N.lor 0x80 (N.land cp 0x3F)]
  else
    [N.lor 0xF0 (N.shiftr cp 18);
     N.lor 0x80 (N.land (N.shiftr cp 12) 0x3F);
     N.lor 0x80 (N.land (N.shiftr cp 6) 0x3F);
     N.lor 0x80 (N.land cp 0x3F)].

(** The code point of a surrogate pair. *)
Definition pair_code_point (hi lo : N) : N :=
  0x10000 + N.shiftl (hi - 0xD800) 10 + (lo - 0xDC00).

(** [Buffer.from(s)] (encoding "utf8"): an unpaired surrogate is written
    as U+FFFD. *)
Fixpoint from_utf8 (s : jsstring) : buffer :=
  match s with
  | [] => []
  | c :: rest =>
      if is_high_surrogate c then
        match rest with
        | d :: rest' =>
            if is_low_surrogate d
            then utf8_bytes (pair_code_point c d) ++ from_utf8 rest'
            else replacement ++ from_utf8 rest
        | [] => replacement
        end
      else if is_low_surrogate c then replacement ++ from_utf8 rest
      else utf8_bytes c ++ from_utf8 rest
  end.

(** UTF-16 code units of a decoded code point. *)
Definition utf16_units (cp : N) : jsstring :=
  if cp <? 0x10000 then [cp]
  else [0xD800 + N.shiftr (cp - 0x10000) 10;
        0xDC00 + N.land (cp - 0x10000) 0x3FF].

(** State of the UTF-8 decoder inside a multi-byte sequence. *)
Record pending := Pending {
  code_point : N;
  bytes_left : N;
  lower : N;
  upper : N
}.

(** A byte read with no sequence pending. *)
Definition utf8_start (b : N) : option pending * jsstring :=
  if b <=? 0x7F then (None, [b])
  else if (0xC2 <=? b) && (b <=? 0xDF) then
    (Some (Pending (N.land b 0x1F) 1 0x80 0xBF), [])
  else if (0xE0 <=? b) && (b <=? 0xEF) then
    (Some (Pending (N.land b 0xF) 2
             (if b =? 0xE0 then 0xA0 else 0x80)
             (if b =? 0xED then 0x9F else 0xBF)), [])
  else if (0xF0 <=? b) && (b <=? 0xF4) then
    (Some (Pending (N.land b 0x7) 3
             (if b =? 0xF0 then 0x90 else 0x80)
             (if b =? 0xF4 then 0x8F else 0xBF)), [])
  else (None, [0xFFFD]).

(** One byte through the decoder: a byte outside the expected range ends
    the pending sequence with U+FFFD and is read again as a first
    byte. *)
Definition utf8_step (st : option pending) (b : N)
  : option pending * jsstring :=
  match st with
  | None => utf8_start b
  | Some p =>
      if (lower p <=? b) && (b <=? upper p) then
        let cp := N.lor (N.shiftl (code_point p) 6) (N.land b 0x3F) in
        if bytes_left p =? 1 then (None, utf16_units cp)
        else (Some (Pending cp (bytes_left p - 1) 0x80 0xBF), [])
      else
        let '(st', out) := utf8_start b in (st', 0xFFFD :: out)
  end.

Fixpoint utf8_decode (st : option pending) (b : buffer) : jsstring :=
  match b with
  | [] => match st with None => [] | Some _ => [0xFFFD] end
  | x :: rest =>
      let '(st', out) := utf8_step st x in out ++ utf8_decode st' rest
  end.

(** A Unicode scalar value: a code point that is not a surrogate. *)
Definition scalar (cp : N) : Prop :=
  cp < 0x110000 ∧ ¬ (0xD800 ≤ cp ≤ 0xDFFF).

(** [buf.toString("utf8")] *)
Definition toString_utf8 (b : buffer) : jsstring := utf8_decode None b.

(** The base64 alphabet, by 6-bit value. *)
Definition base64_char (v : N) : N :=
  if v <? 26 then 65 + v
  else if v <? 52 then 97 + (v - 26)
  else if v <? 62 then 48 + (v - 52)
  else if v =? 62 then 43
  else 47.

Definition pad : N := 61.

(** [buf.toString("base64")] *)
Fixpoint toString_base64 (b : buffer) : jsstring :=
  match b with
  | [] => []
  | [x] =>
      [base64_char (N.shiftr x 2);
       base64_char (N.shiftl (N.land x 3) 4); pad; pad]
  | [x; y] =>
      [base64_char (N.shiftr x 2);
       base64_char (N.lor (N.shiftl (N.land x 3) 4) (N.shiftr y 4));
       base64_char (N.shiftl (N.land y 0xF) 2); pad]
  | x :: y :: z :: rest =>
      [base64_char (N.shiftr x 2);
       base64_char (N.lor (N.shiftl (N.land x 3) 4) (N.shiftr y 4));
       base64_char (N.lor (N.shiftl (N.land y 0xF) 2) (N.shiftr z 6));
       base64_char (N.land z 0x3F)] ++ toString_base64 rest
  end.

(** The 6-bit value of a character of the standard or of the URL-safe
    alphabet. The code units read here are those of a header value or of
    an encoded token, all below 256. *)
Definition unbase64 (c : N) : option N :=
  if (65 <=? c) && (c <=? 90) then Some (c - 65)
  else if (97 <=? c) && (c <=? 122) then Some (c - 97 + 26)
  else if (48 <=? c) && (c <=? 57) then Some (c - 48 + 52)
  else if (c =? 43) || (c =? 45) then Some 62
  else if (c =? 47) || (c =? 95) then Some 63
  else None.

(** The decoder reads up to the first padding character and ignores
    every character outside the alphabets. *)
Fixpoint sextets (s : jsstring) : list N :=
  match s with
  | [] => []
  | c :: rest =>
      match unbase64 c with
      | Some v => v :: sextets rest
      | None => if c =? pad then [] else sextets rest
      end
  end.

Fixpoint octets (v : list N) : buffer :=
  match v with
  | a :: b :: c :: d :: rest =>
      [N.lor (N.shiftl a 2) (N.shiftr (N.land b 0x30) 4);
       N.lor (N.shiftl (N.land b 0xF) 4) (N.shiftr (N.land c 0x3C) 2);
       N.lor (N.shiftl (N.land c 0x3) 6) d] ++ octets rest
  | [a; b; c] =>
      [N.lor (N.shiftl a 2) (N.shiftr (N.land b 0x30) 4);
       N.lor (N.shiftl (N.land b 0xF) 4) (N.shiftr (N.land c 0x3C) 2)]
  | [a; b] => [N.lor (N.shiftl a 2) (N.shiftr (N.land b 0x30) 4)]
  | _ => []
  end.

(** [Buffer.from(s, "base64")]: lenient, it has no failure case. *)
Definition from_base64 (s : jsstring) : buffer := octets (sextets s).

End Buffer.


(** ** Completions

    An expression either yields a value or throws; an async function
    that throws rejects its promise. *)

Inductive completion (A : Type) : Type :=
| Normal (a : A)
| Throw (err : jsstring).
Arguments Normal {A} a.
Arguments Throw {A} err.

(** [try { body } catch (err) { handler }] *)
Definition try_catch {A} (body : completion A) (handler : jsstring → A)
  : completion A :=
  match body with
  | Normal a => Normal a
  | Throw err => Normal (handler err)
  end.

(** ** Configuration, tables and messages *)

(** [process.env], as far as the admin core reads it. *)
Record process_env := ProcessEnv {
  env_ADMIN_EMAIL : option jsstring;
  env_ADMIN_PASSWORD : option jsstring;
  env_ADMIN_TOKEN : option jsstring
}.

(** [!v] and [a || b] on a value that is a string or [undefined]. *)
Definition falsy (v : option jsstring) : bool :=
  match v with
  | None => true
  | Some s => JsString.is_empty s
  end.

Definition js_or (a b : option jsstring) : option jsstring :=
  if falsy a then b else a.

(** A row of [public.banners]; the [id] column is the key of the table. *)
Record banner := Banner {
  product : jsstring;
  message : jsstring;
  href : option jsstring;
  is_active : bool;
  created_at : N;
  updated_at : N
}.

(** A row of [admin_users]. *)
Record admin_user := AdminUser {
  user_id : jsstring;
  user_email : jsstring;
  user_password_hash : option jsstring
}.

(** The object an update or an insert is called with: the columns it
    sets. *)
Record banner_payload := BannerPayload {
  set_product : option jsstring;
  set_message : option jsstring;
  set_href : option (option jsstring);
  set_is_active : option bool
}.

(** The requests sent to the store. *)
Inductive query :=
| AdminFind (email : jsstring)
| BannerSelect
| BannerInsert (payload : banner_payload)
| BannerDemoteOthers (id : jsstring)
| BannerUpdate (id : jsstring) (payload : banner_payload).

(** What the hosted store decides on its own for its n-th request: whether
    the request fails (and with what message), the identifier
    [gen_random_uuid()] draws and the time [now()] reads. *)
Record backend := Backend {
  outage : nat → option jsstring;
  gen_random_uuid : nat → jsstring;
  now : nat → N
}.

(** The state a handler runs in: the two tables, the requests sent to the
    store so far and the lines written to the console. *)
Record world := World {
  banners : gmap jsstring banner;
  admin_users : list admin_user;
  queries : list query;
  console : list jsstring
}.

(** A JSON value as the banner handlers look at the [is_active] field of a
    body: a boolean, or a value of another type (a number, a string,
    [null], an array, an object), of which only the truthiness is read. *)
Inductive json_flag :=
| JsonBoolean (b : bool)
| JsonOther (truthy : bool).

(** The parsed JSON body of a request, by the fields the handlers read;
    [None] is a field that is absent, for [href] the inner [None] is
    [null]. *)
Record request_body := RequestBody {
  body_email : option jsstring;
  body_username : option jsstring;
  body_password : option jsstring;
  body_product : option jsstring;
  body_message : option jsstring;
  body_href : option (option jsstring);
  body_is_active_value : option json_flag
}.

(** The field [is_active] when [typeof is_active === "boolean"]. *)
Definition body_is_active (b : request_body) : option bool :=
  match body_is_active_value b with
  | Some (JsonBoolean v) => Some v
  | Some (JsonOther _) | None => None
  end.

(** [Boolean(v)]; [None] is [undefined]. *)
Definition Boolean (v : option json_flag) : bool :=
  match v with
  | Some (JsonBoolean b) => b
  | Some (JsonOther truthy) => truthy
  | None => false
  end.

Record request := Request {
  authorization : option jsstring;
  params_id : jsstring;
  body : request_body;
  adminEmail : option jsstring;
  isSuperAdmin : option bool
}.

(** The JSON documents the handlers answer with. *)
Inductive json :=
| JError (error : jsstring)
| JLogin (token email : jsstring) (isSuperAdmin : bool)
| JBanner (id : jsstring) (row : banner)
| JBanners (rows : list (jsstring * banner)).

Record response := Response {
  status : N;
  payload : json
}.

(** What [findAdminByEmail] resolves to. *)
Record identity := Identity {
  identity_email : jsstring;
  identity_isSuperAdmin : bool
}.

(** The two assignments [requireAdmin] makes on the request. *)
Definition with_identity (a : identity) (req : request) : request :=
  Request (authorization req) (params_id req) (body req)
    (Some (identity_email a)) (Some (identity_isSuperAdmin a)).

(** The token read from the [Authorization] header, raw or after
    [Bearer ]. *)
Definition bearer_token (req : request) : jsstring :=
  let authHeader := default [] (authorization req) in
  if JsString.startsWith authHeader (js "Bearer ")
  then JsString.slice authHeader 7 else authHeader.

Definition no_single_row : jsstring :=
  js "JSON object requested, multiple (or no) rows returned".

Definition duplicate_key : jsstring :=
  js "duplicate key value violates unique constraint".

Definition not_null_violation : jsstring :=
  js "null value in column violates not-null constraint".

(** [a || b] where [b] is a string. *)
Definition js_or_text (a : option jsstring) (b : jsstring) : jsstring :=
  if falsy a then b else default b a.

(** ** Handlers

    An async function: it runs in a world, ends in a value or in a
    rejection, and leaves a world. *)

Definition handler (A : Type) : Type := world → completion A * world.

Global Instance handler_ret : MRet handler := λ A a w, (Normal a, w).

Global Instance handler_bind : MBind handler := λ A B f m w,
  match m w with
  | (Normal a, w') => f a w'
  | (Throw err, w') => (Throw err, w')
  end.

Definition await {A} (c : completion A) : handler A := λ w, (c, w).

Global Instance completion_bind : MBind completion := λ A B f c,
  match c with
  | Normal a => f a
  | Throw err => Throw err
  end.

(** What the client library resolves a request to: [{ data, error }] with
    one of the two set. *)
Inductive reply (A : Type) : Type :=
| Data (data : A)
| Failed (message : jsstring).
Arguments Data {A} data.
Arguments Failed {A} message.

(** [order("created_at", { ascending: false })] *)
Definition newest_first (a b : jsstring * banner) : Prop :=
  (created_at b.2 ≤ created_at a.2)%N.

Global Instance newest_first_dec a b : Decision (newest_first a b) :=
  N.le_dec _ _.

(** The trigger [set_banners_updated_at] stamps every updated row. *)
Definition demote (t : N) (r : banner) : banner :=
  Banner (product r) (message r) (href r) false (created_at r) t.

(** The effect of the sweep on the table: every row but [id] is demoted. *)
Definition demote_others (id : jsstring) (t : N) (rows : gmap jsstring banner)
  : gmap jsstring banner :=
  map_imap (λ k r, Some (if bool_decide (k = id) then r else demote t r)) rows.

Definition apply_payload (p : banner_payload) (t : N) (r : banner) : banner :=
  Banner (default (product r) (set_product p))
         (default (message r) (set_message p))
         (default (href r) (set_href p))
         (default (is_active r) (set_is_active p))
         (created_at r) t.

Definition empty_payload (p : banner_payload) : bool :=
  match set_product p, set_message p, set_href p, set_is_active p with
  | None, None, None, None => true
  | _, _, _, _ => false
  end.

(** The text a filter value is sent as. *)
Definition filter_text (v : option jsstring) : jsstring :=
  default (js "undefined") v.

Section Server.

Variable env : process_env.
Variable store : backend.
Variable bcrypt_compare : jsstring → jsstring → bool.

Definition ADMIN_EMAIL : option jsstring := env_ADMIN_EMAIL env.
Definition ADMIN_PASSWORD : option jsstring := env_ADMIN_PASSWORD env.

(** [process.env.ADMIN_TOKEN || "goftus-admin-token"] *)
Definition ADMIN_TOKEN : jsstring :=
  match env_ADMIN_TOKEN env with
  | Some (c :: t) => c :: t
  | _ => js "goftus-admin-token"
  end.

(** *** The store

    A request is recorded in [queries]; when the store has an outage it
    fails and leaves the tables as they are. *)
Definition supabase {A} (q : query)
    (serve : nat → world → reply A * gmap jsstring banner)
  : handler (reply A) := λ w,
  let n := length (queries w) in
  let '(r, rows) :=
    match outage store n with
    | Some message => (Failed message, banners w)
    | None => serve n w
    end in
  (Normal r, World rows (admin_users w) (queries w ++ [q]) (console w)).

(** [from("admin_users").select(..).eq("email", email).maybeSingle()] *)
Definition admin_find (email : option jsstring)
  : handler (reply (option admin_user)) :=
  supabase (AdminFind (filter_text email)) (λ _ w,
    (match filter (λ u, user_email u = filter_text email) (admin_users w) with
     | [] => Data None
     | [u] => Data (Some u)
     | _ => Failed no_single_row
     end, banners w)).

(** [from("banners").select("*").order("created_at", { ascending: false })] *)
Definition banner_select : handler (reply (list (jsstring * banner))) :=
  supabase BannerSelect (λ _ w,
    (Data (merge_sort newest_first (map_to_list (banners w))), banners w)).

(** [from("banners").insert([payload]).select("*").single()] *)
Definition banner_insert (p : banner_payload)
  : handler (reply (jsstring * banner)) :=
  supabase (BannerInsert p) (λ n w,
    let id := gen_random_uuid store n in
    match set_product p, set_message p with
    | Some pr, Some m =>
        match banners w !! id with
        | None =>
            let row := Banner pr m (default None (set_href p))
                         (default false (set_is_active p))
                         (now store n) (now store n) in
            (Data (id, row), <[id := row]> (banners w))
        | Some _ => (Failed duplicate_key, banners w)
        end
    | _, _ => (Failed not_null_violation, banners w)
    end).

(** [from("banners").update({ is_active: false }).neq("id", id)] *)
Definition banner_demote_others (id : jsstring) : handler (reply ()) :=
  supabase (BannerDemoteOthers id) (λ n w,
    (Data (), demote_others id (now store n) (banners w))).

(** [from("banners").update(payload).eq("id", id).select("*").single()];
    an update that sets no column selects no row. *)
Definition banner_update (id : jsstring) (p : banner_payload)
  : handler (reply (jsstring * banner)) :=
  supabase (BannerUpdate id p) (λ n w,
    if empty_payload p then (Failed no_single_row, banners w)
    else
      match banners w !! id with
      | Some r =>
          let row := apply_payload p (now store n) r in
          (Data (id, row), <[id := row]> (banners w))
      | None => (Failed no_single_row, banners w)
      end).

(** *** Token codec *)

Definition encodeAdminToken (email : jsstring) : jsstring :=
  ADMIN_TOKEN ++ js "." ++ Buffer.toString_base64 (Buffer.from_utf8 email).

(** [decodeAdminEmail], over the base64 reader it calls inside [try]. *)
Definition decodeAdminEmail_with (from : jsstring → completion buffer)
    (token : jsstring) : completion (option jsstring) :=
  if negb (JsString.startsWith token (ADMIN_TOKEN ++ js ".")) then Normal None
  else
    let encoded := JsString.slice token (length ADMIN_TOKEN + 1) in
    try_catch (b ← from encoded; Normal (Some (Buffer.toString_utf8 b)))
              (λ _, None).

Definition decodeAdminEmail : jsstring → completion (option jsstring) :=
  decodeAdminEmail_with (λ s, Normal (Buffer.from_base64 s)).

(** *** Access gate *)

Definition findAdminByEmail (email : option jsstring)
  : handler (option identity) :=
  match email with
  | Some (c :: s) =>
      if negb (falsy ADMIN_EMAIL) && bool_decide (email = ADMIN_EMAIL)
      then mret (Some (Identity (c :: s) true))
      else
        r ← admin_find email;
        match r with
        | Data (Some u) => mret (Some (Identity (user_email u) false))
        | _ => mret None
        end
  | _ => mret None
  end.

Definition unconfigured : bool := falsy ADMIN_EMAIL || falsy ADMIN_PASSWORD.

Definition requireAdmin (req : request) (next : request → handler response)
  : handler response :=
  let token := bearer_token req in
  if unconfigured then
    mret (Response 500 (JError (js "Admin credentials not configured")))
  else if JsString.is_empty token then
    mret (Response 401 (JError (js "Unauthorized")))
  else
    email ← await (decodeAdminEmail token);
    admin ← findAdminByEmail email;
    match admin with
    | None => mret (Response 401 (JError (js "Unauthorized")))
    | Some a => next (with_identity a req)
    end.

Definition requireSuperAdmin (req : request) (next : request → handler response)
  : handler response :=
  requireAdmin req (λ req,
    if negb (default false (isSuperAdmin req))
    then mret (Response 403 (JError (js "Forbidden")))
    else next req).

(** [POST /api/admin/login] *)
Definition admin_login (req : request) : handler response :=
  let candidate := js_or (body_email (body req)) (body_username (body req)) in
  let password := body_password (body req) in
  if unconfigured then
    mret (Response 500 (JError (js "Admin credentials not configured")))
  else if bool_decide (candidate = ADMIN_EMAIL)
          && bool_decide (password = ADMIN_PASSWORD) then
    mret (Response 200 (JLogin (encodeAdminToken (default [] candidate))
                          (default [] candidate) true))
  else
    r ← admin_find candidate;
    match r with
    | Data (Some data) =>
        if bcrypt_compare (js_or_text password [])
             (js_or_text (user_password_hash data) [])
        then mret (Response 200 (JLogin (encodeAdminToken (user_email data))
                                   (user_email data) false))
        else mret (Response 401 (JError (js "Invalid credentials")))
    | _ => mret (Response 401 (JError (js "Invalid credentials")))
    end.

(** *** Banner handlers *)

(** [GET /api/admin/banners] *)
Definition banners_index (req : request) : handler response :=
  r ← banner_select;
  match r with
  | Failed message => mret (Response 500 (JError message))
  | Data rows => mret (Response 200 (JBanners rows))
  end.

(** The [payload] object of [POST /api/admin/banners]. *)
Definition create_payload (b : request_body) : banner_payload :=
  BannerPayload (body_product b) (body_message b)
    (Some (js_or (default None (body_href b)) None))
    (Some (Boolean (body_is_active_value b))).

(** [POST /api/admin/banners] *)
Definition banners_create (req : request) : handler response :=
  let b := body req in
  if falsy (body_product b) || falsy (body_message b) then
    mret (Response 400 (JError (js "Missing product or message")))
  else
    let payload := create_payload b in
    r ← banner_insert payload;
    match r with
    | Failed message => mret (Response 500 (JError message))
    | Data data =>
        _ ← (if default false (set_is_active payload)
             then banner_demote_others data.1 else mret (Data ()));
        mret (Response 200 (JBanner data.1 data.2))
    end.

(** The [payload] object of [PUT /api/admin/banners/:id]: the fields of
    the body that have the expected type. *)
Definition update_payload (b : request_body) : banner_payload :=
  BannerPayload (body_product b) (body_message b)
    (match body_href b with
     | Some h => Some (js_or h None)
     | None => None
     end)
    (body_is_active b).

(** [PUT /api/admin/banners/:id] *)
Definition banners_update (req : request) : handler response :=
  let id := params_id req in
  let payload := update_payload (body req) in
  _ ← (if bool_decide (set_is_active payload = Some true)
       then banner_demote_others id else mret (Data ()));
  r ← banner_update id payload;
  match r with
  | Failed message => mret (Response 500 (JError message))
  | Data data => mret (Response 200 (JBanner data.1 data.2))
  end.

(** [{ is_active: true }] *)
Definition activate_payload : banner_payload :=
  BannerPayload None None None (Some true).

(** [POST /api/admin/banners/:id/activate] *)
Definition banners_activate (req : request) : handler response :=
  let id := params_id req in
  _ ← banner_demote_others id;
  r ← banner_update id activate_payload;
  match r with
  | Failed message => mret (Response 500 (JError message))
  | Data data => mret (Response 200 (JBanner data.1 data.2))
  end.

(** [POST /api/admin/banners/:id/deactivate] *)
Definition banners_deactivate (req : request) : handler response :=
  let id := params_id req in
  r ← banner_update id (BannerPayload None None None (Some false));
  match r with
  | Failed message => mret (Response 500 (JError message))
  | Data data => mret (Response 200 (JBanner data.1 data.2))
  end.

(** *** Routes *)

Inductive route :=
| POST_admin_login
| GET_admin_banners
| POST_admin_banners
| PUT_admin_banner
| POST_admin_banner_activate
| POST_admin_banner_deactivate.

Definition app (r : route) (req : request) : handler response :=
  match r with
  | POST_admin_login => admin_login req
  | GET_admin_banners => requireAdmin req banners_index
  | POST_admin_banners => requireAdmin req banners_create
  | PUT_admin_banner => requireAdmin req banners_update
  | POST_admin_banner_activate => requireAdmin req banners_activate
  | POST_admin_banner_deactivate => requireAdmin req banners_deactivate
  end.

End Server.

(** ** The single-active-record invariant *)

(** Exactly the row [id] is active. *)
Definition sole_active (id : jsstring) (rows : gmap jsstring banner) : Prop :=
  ∀ k r, rows !! k = Some r → is_active r = bool_decide (k = id).

Definition at_most_one_active (rows : gmap jsstring banner) : Prop :=
  ∀ i j ri rj,
    rows !! i = Some ri → rows !! j = Some rj →
    is_active ri = true → is_active rj = true → i = j.





(** The requests a handler sent, given the world before and after. *)
Definition sent (w w' : world) : list query :=
  drop (length (queries w)) (queries w').

(** The world after a request [q] that left the banner rows as [rows]. *)
Definition after (q : query) (rows : gmap jsstring banner) (w : world) : world :=
  World rows (admin_users w) (queries w ++ [q]) (console w).


(** ** A small deployment to run the handlers on *)

Module Demo.

Definition env : process_env :=
  ProcessEnv (Some (js "admin@x.com")) (Some (js "secret")) None.

Definition no_env : process_env := ProcessEnv None None None.

(** A store that serves every request. *)
Definition store : backend :=
  Backend (λ _, None) (λ _, js "3") (λ n, 100 + N.of_nat n).

(** A store whose n-th request fails. *)
Definition store_down (n : nat) : backend :=
  Backend (λ k, if bool_decide (k = n) then Some (js "connection reset") else None)
    (λ _, js "3") (λ k, 100 + N.of_nat k).

(** A stand-in for bcrypt: the hash of a password is the password after
    [hash:]. *)
Definition compare (password hash : jsstring) : bool :=
  bool_decide (hash = js "hash:" ++ password).

Definition banner1 : banner := Banner (js "tea") (js "sale") None true 10 10.
Definition banner2 : banner := Banner (js "mugs") (js "new") None false 20 20.

Definition bob : admin_user :=
  AdminUser (js "u1") (js "bob@x.com") (Some (js "hash:pw")).

Definition w0 : world :=
  World (<[js "1" := banner1]> (<[js "2" := banner2]> ∅)) [bob] [] [].

Definition no_body : request_body :=
  RequestBody None None None None None None None.

Definition credentials (email password : string) : request_body :=
  RequestBody (Some (js email)) None (Some (js password)) None None None None.

(** A request with an [Authorization] header and a route parameter. *)
Definition req (auth : option jsstring) (id : string) (b : request_body)
  : request :=
  Request auth (js id) b None None.

Definition ok : handler response := mret (Response 200 (JBanners [])).

(** The body of a request that creates an active banner. *)
Definition new_banner : request_body :=
  RequestBody None None None (Some (js "cups")) (Some (js "hot")) None
    (Some (JsonBoolean true)).

(** The body of a request that sets [is_active] and nothing else. *)
Definition set_active : request_body :=
  RequestBody None None None None None None (Some (JsonBoolean true)).

End Demo.

(** * The rest of the server

    Definitions for the handlers and helpers beside the authentication
    core: what the guards leave untouched, runs of requests, the public
    banner, pagination and the upload of images. *)

(** A table of admins with a row under the email of the primary admin. *)
Definition shadow_world : world :=
  World ∅ [AdminUser (js "u9") (js "admin@x.com") (Some (js "hash:mine"))] [] [].

(** What a guard leaves untouched: the tables and the console; it sends
    at most one request, a lookup in [admin_users]. *)
Definition guard_frame (w w' : world) : Prop :=
  banners w' = banners w ∧ admin_users w' = admin_users w ∧
  console w' = console w ∧
  (queries w' = queries w ∨ ∃ e, queries w' = queries w ++ [AdminFind e]).

Definition deactivate_payload : banner_payload :=
  BannerPayload None None None (Some false).

(** No row is active in [rows'] that was not active in [rows]. *)
Definition no_new_active (rows rows' : gmap jsstring banner) : Prop :=
  ∀ k r', rows' !! k = Some r' → is_active r' = true →
          ∃ r, rows !! k = Some r ∧ is_active r = true.

(** The requests of a list, served one after the other. *)
Fixpoint serve_all env (store : backend) compare
    (reqs : list (route * request)) (w : world) : world :=
  match reqs with
  | [] => w
  | (r, req) :: rest =>
      serve_all env store compare rest (app env store compare r req w).2
  end.

(** ** The public banner *)

Inductive public_json :=
| PError (error : jsstring)
| PBanner (id : jsstring) (row : banner)
| PNull.

Record public_response := PublicResponse {
  public_status : N;
  public_payload : public_json
}.

(** [from("banners").select("*").eq("is_active", true)
     .order("created_at", { ascending: false }).limit(1).maybeSingle()] *)
Definition active_banner (rows : gmap jsstring banner) : option (jsstring * banner) :=
  head (merge_sort newest_first
          (filter (λ kr, is_active kr.2 = true) (map_to_list rows))).

(** [GET /api/banner]: a read; [failure] is the error of the store when
    it fails the request. *)
Definition public_banner (failure : option jsstring) (w : world) : public_response :=
  match failure with
  | Some message => PublicResponse 500 (PError message)
  | None =>
      match active_banner (banners w) with
      | Some (id, row) => PublicResponse 200 (PBanner id row)
      | None => PublicResponse 200 PNull
      end
  end.

(** ** Query strings and pagination *)

Module Pagination.

(** A value of [req.query]: a string, an array or an object. *)
#[local] Set Warnings "-register-all".
Inductive qvalue :=
| QString (s : jsstring)
| QArray (items : list qvalue)
| QObject.

(** [String(v)]; an array is its items joined by commas. *)
Fixpoint toString (v : qvalue) : jsstring :=
  match v with
  | QString s => s
  | QArray items =>
      (fix join (l : list qvalue) : jsstring :=
         match l with
         | [] => []
         | [x] => toString x
         | x :: rest => toString x ++ js "," ++ join rest
         end) items
  | QObject => js "[object Object]"
  end.

(** The text [parseInt] reads of a parameter that may be absent. *)
Definition text (v : option qvalue) : jsstring :=
  match v with
  | Some v => toString v
  | None => js "undefined"
  end.

(** White space and line terminators, which [parseInt] skips in front. *)
Definition is_whitespace (c : N) : bool :=
  ((9 <=? c) && (c <=? 13)) || (c =? 32) || (c =? 0xA0) || (c =? 0x1680)
  || ((0x2000 <=? c) && (c <=? 0x200A)) || (c =? 0x2028) || (c =? 0x2029)
  || (c =? 0x202F) || (c =? 0x205F) || (c =? 0x3000) || (c =? 0xFEFF).

Fixpoint trim_start (s : jsstring) : jsstring :=
  match s with
  | c :: rest => if is_whitespace c then trim_start rest else s
  | [] => []
  end.

Definition digit (c : N) : option Z :=
  if (48 <=? c) && (c <=? 57) then Some (Z.of_N (c - 48)) else None.

(** The leading decimal digits of [s], read after [acc]; [None] when there
    is none. *)
Fixpoint digits (acc : option Z) (s : jsstring) : option Z :=
  match s with
  | c :: rest =>
      match digit c with
      | Some d => digits (Some (10 * default 0 acc + d)%Z) rest
      | None => acc
      end
  | [] => acc
  end.

(** [parseInt(s, 10)]; [None] is [NaN]. Numbers are integers: they are the
    numbers of the code up to [MAX_SAFE_INTEGER]. *)
Definition parseInt (s : jsstring) : option Z :=
  match trim_start s with
  | c :: rest =>
      if c =? 45 then Z.opp <$> digits None rest
      else if c =? 43 then digits None rest
      else digits None (c :: rest)
  | [] => None
  end.

Definition MAX_SAFE_INTEGER : Z := 2 ^ 53 - 1.

(** [x || d] on a number: [NaN] and zero are falsy. *)
Definition number_or (x : option Z) (d : Z) : Z :=
  match x with
  | Some 0%Z | None => d
  | Some n => n
  end.

Record query_string := QueryString {
  query_page : option qvalue;
  query_limit : option qvalue
}.

Record pagination := Page {
  page : Z;
  limit : Z;
  from : Z;
  to : Z
}.

Definition parsePagination (query : query_string) : pagination :=
  let page := Z.max (number_or (parseInt (text (query_page query))) 1) 1 in
  let limit :=
    Z.min (Z.max (number_or (parseInt (text (query_limit query))) 9) 1) 50 in
  let from := ((page - 1) * limit)%Z in
  let to := (from + limit - 1)%Z in
  Page page limit from to.

(** [count ? Math.ceil(count / limit) : 1], for a count that is a number
    or [null]. *)
Definition totalPages (count : option Z) (limit : Z) : Z :=
  match count with
  | Some 0%Z | None => 1
  | Some c => (- (- c / limit))%Z
  end.

(** The decimal numeral of a number, as a client writes it in a query
    string. *)
Fixpoint decimal_digits (fuel : nat) (n : N) : jsstring :=
  match fuel with
  | O => []
  | S fuel =>
      if n <? 10 then [48 + n]
      else decimal_digits fuel (n / 10) ++ [48 + n mod 10]
  end.

Definition decimal (n : N) : jsstring :=
  decimal_digits (S (N.to_nat (N.log2 n))) n.

End Pagination.

(** ** Image upload: the name and the data URL *)

Module Upload.

(** The class [[a-zA-Z0-9._-]]. *)
Definition safe_char (c : N) : bool :=
  ((97 <=? c) && (c <=? 122)) || ((65 <=? c) && (c <=? 90))
  || ((48 <=? c) && (c <=? 57)) || (c =? 46) || (c =? 95) || (c =? 45).

(** [filename.replace(/[^a-zA-Z0-9._-]/g, "_")] *)
Definition safeName (filename : jsstring) : jsstring :=
  map (λ c, if safe_char c then c else 95) filename.

(** [`products/${Date.now()}-${safeName}`] *)
Definition objectPath (now : N) (filename : jsstring) : jsstring :=
  js "products/" ++ Pagination.decimal now ++ js "-" ++ safeName filename.

(** The characters [.] of a regular expression does not match. *)
Definition is_line_terminator (c : N) : bool :=
  (c =? 10) || (c =? 13) || (c =? 0x2028) || (c =? 0x2029).

Definition marker : jsstring := js ";base64,".

(** The last split of [rest] as [a ++ ";base64," ++ b] with [b] not
    empty: the one a greedy first group finds. *)
Fixpoint split_last (rest : jsstring) : option (jsstring * jsstring) :=
  match rest with
  | [] => None
  | c :: rest' =>
      match split_last rest' with
      | Some (a, b) => Some (c :: a, b)
      | None =>
          if JsString.startsWith rest marker && negb (JsString.is_empty (drop 8 rest))
          then Some ([], drop 8 rest) else None
      end
  end.

(** [s.match(/^data:(.+);base64,(.+)$/)]: the two groups, or [None] for
    [null]. *)
Definition match_data_url (s : jsstring) : option (jsstring * jsstring) :=
  if JsString.startsWith s (js "data:") then
    let rest := drop 5 s in
    if existsb is_line_terminator rest then None
    else
      match split_last rest with
      | Some (c :: a, b) => Some (c :: a, b)
      | _ => None
      end
  else None.

(** A character that is neither [;] nor a line terminator. *)
Definition plain (c : N) : Prop := c ≠ 59 ∧ is_line_terminator c = false.

End Upload.

(** ** Contact form and mailing list

    The four routes that write to [contacts] and send mail: the contact
    form, the automation inquiry, and the two ends of the mailing list.
    A mail is kept by its template and the values written into it; the
    store and the mail service fail when they choose to. *)

Module Mailing.
Import Pagination.

(** A row of [contacts]. *)
Record contact := Contact {
  full_name : option jsstring;
  contact_email : jsstring;
  company : option jsstring;
  need : option jsstring;
  contact_message : option jsstring;
  subscription : option bool
}.

(** The requests the handlers send to the store for [contacts]. *)
Inductive contact_query :=
| ContactsByEmail (email : jsstring)
| ContactsSubscription (email : jsstring) (flag : bool)
| ContactsInsert (row : contact).

(** The mails the handlers compose, by their template and what is
    written into it. *)
Inductive template :=
| Welcome (unsubscribe_link : jsstring) (year : N)
| Unsubscribed (email : jsstring)
| ContactNotice (fullName email : jsstring) (company need : jsstring)
    (message : jsstring)
| AutomationNotice (choice : jsstring) (phone : jsstring).

Record mail := Mail {
  mail_sender : option jsstring;
  mail_to : option qvalue;
  mail_html : template
}.

(** The lines the handlers write to the console. *)
Inductive log_line :=
| LogMissingEmail
| LogChecking (email : jsstring)
| LogFetchError (message : jsstring)
| LogAlreadySubscribed (email : jsstring)
| LogUpdateError (message : jsstring)
| LogUpdated (email : jsstring)
| LogInsertError (message : jsstring)
| LogAdded (email : jsstring)
| LogWelcomeSent (email : jsstring)
| LogSubscribeFailed (err : jsstring)
| LogInvalidUnsubscribe
| LogUnsubscribeRequest (email : jsstring)
| LogNoUser (email : jsstring)
| LogAlreadyUnsubscribed (email : jsstring)
| LogUnsubscribed (email : jsstring)
| LogConfirmationSent (email : jsstring)
| LogUnsubscribeFailed (err : jsstring)
| LogContactInsertError (message : jsstring)
| LogContactFailed (err : jsstring)
| LogAutomationFailed (err : jsstring).

(** What the handlers answer with. *)
Inductive answer :=
| JsonError (status : N) (error : jsstring)
| JsonFailure (error : jsstring) (detail : option jsstring) (source : jsstring)
| JsonSuccess (message : option jsstring)
| Text (status : N) (text : jsstring)
| AlreadyUnsubscribedPage (email : jsstring)
| UnsubscribedPage (email : jsstring).

(** The status of an answer. *)
Definition status_of (a : answer) : N :=
  match a with
  | JsonError status _ => status
  | JsonFailure _ _ _ => 500
  | JsonSuccess _ => 200
  | Text status _ => status
  | AlreadyUnsubscribedPage _ => 200
  | UnsubscribedPage _ => 200
  end.

(** What the store and the mail service decide on their own: the error of
    the n-th request to the store and of the n-th mail, when they fail, and
    the order in which the n-th request returns the rows it selects (no
    handler asks for one). *)
Record services := Services {
  contacts_outage : nat → option jsstring;
  row_order : nat → list contact → list contact;
  mail_failure : nat → option jsstring;
  current_year : N
}.

(** [process.env], as far as these handlers read it. *)
Record mail_env := MailEnv {
  MAIL_USER : option jsstring;
  RECEIVER_MAIL : option jsstring;
  BASE_URL : option jsstring
}.

(** The state these handlers run in: the table, the requests sent to the
    store, the mails that went out, the number of mails handed to the mail
    service, and the console. *)
Record mailbox := Mailbox {
  contacts : list contact;
  contact_queries : list contact_query;
  outbox : list mail;
  attempts : nat;
  lines : list log_line
}.

Definition action (A : Type) : Type := mailbox → completion A * mailbox.

Global Instance action_ret : MRet action := λ A a s, (Normal a, s).

Global Instance action_bind : MBind action := λ A B f m s,
  match m s with
  | (Normal a, s') => f a s'
  | (Throw err, s') => (Throw err, s')
  end.

(** [try { body } catch (err) { handler }] around awaited calls. *)
Definition catch {A} (body : action A) (handler : jsstring → action A) : action A :=
  λ s,
  match body s with
  | (Normal a, s') => (Normal a, s')
  | (Throw err, s') => handler err s'
  end.

(** [console.log], [console.warn], [console.error] *)
Definition log (l : log_line) : action () := λ s,
  (Normal (),
   Mailbox (contacts s) (contact_queries s) (outbox s) (attempts s) (lines s ++ [l])).

(** The text of a template literal hole for a value that may be
    [undefined]. *)
Definition shown (v : option jsstring) : jsstring := default (js "undefined") v.

(** [encodeURIComponent(s)]: the UTF-8 bytes of [s], all but the unreserved
    characters as [%XX]; it throws on an unpaired surrogate. *)
Definition unreserved (c : N) : bool :=
  ((97 <=? c) && (c <=? 122)) || ((65 <=? c) && (c <=? 90))
  || ((48 <=? c) && (c <=? 57))
  || (c =? 45) || (c =? 95) || (c =? 46) || (c =? 33) || (c =? 126)
  || (c =? 42) || (c =? 39) || (c =? 40) || (c =? 41).

Definition hex_digit (n : N) : N := if n <? 10 then 48 + n else 55 + n.

Definition percent (b : N) : jsstring := [37; hex_digit (b / 16); hex_digit (b mod 16)].

Definition encodeURIComponent (s : jsstring) : completion jsstring :=
  if JsString.isWellFormed s
  then Normal (flat_map (λ b, if unreserved b then [b] else percent b)
                 (Buffer.from_utf8 s))
  else Throw (js "URI malformed").

(** The parsed JSON body of the three [POST] routes, by the fields the
    handlers read; [None] is a field that is absent. *)
Record contact_body := ContactBody {
  form_fullName : option jsstring;
  form_email : option jsstring;
  form_company : option jsstring;
  form_need : option jsstring;
  form_message : option jsstring
}.

Record automation_body := AutomationBody {
  form_choice : option jsstring;
  form_phone : option jsstring
}.

Record subscribe_body := SubscribeBody {
  form_subscriber : option jsstring
}.

(** The row an update of [subscription] for an address makes of a row. *)
Definition set_subscription (email : jsstring) (flag : bool) (c : contact) : contact :=
  if bool_decide (contact_email c = email)
  then Contact (full_name c) (contact_email c) (company c) (need c)
         (contact_message c) (Some flag)
  else c.

Section Handlers.

Variable env : mail_env.
Variable provider : services.

(** One request to the store. *)
Definition request {A} (q : contact_query)
    (serve : list contact → reply A * list contact) : action (reply A) := λ s,
  let '(r, rows) :=
    match contacts_outage provider (length (contact_queries s)) with
    | Some message => (Failed message, contacts s)
    | None => serve (contacts s)
    end in
  (Normal r,
   Mailbox rows (contact_queries s ++ [q]) (outbox s) (attempts s) (lines s)).

(** [from("contacts").select("*").eq("email", email)] *)
Definition contacts_by_email (email : jsstring) : action (reply (list contact)) :=
  λ s,
  request (ContactsByEmail email) (λ rows,
    (Data (row_order provider (length (contact_queries s))
             (filter (λ c, contact_email c = email) rows)), rows)) s.

(** [from("contacts").update({ subscription: flag }).eq("email", email)] *)
Definition contacts_set_subscription (email : jsstring) (flag : bool)
  : action (reply ()) :=
  request (ContactsSubscription email flag) (λ rows,
    (Data (), set_subscription email flag <$> rows)).

(** [from("contacts").insert([row])] *)
Definition contacts_insert (row : contact) : action (reply ()) :=
  request (ContactsInsert row) (λ rows, (Data (), rows ++ [row])).

(** [await transporter.sendMail(mailOptions)]: the mail goes out, or the
    call throws. *)
Definition sendMail (m : mail) : action () := λ s,
  match mail_failure provider (attempts s) with
  | Some err =>
      (Throw err,
       Mailbox (contacts s) (contact_queries s) (outbox s) (S (attempts s)) (lines s))
  | None =>
      (Normal (),
       Mailbox (contacts s) (contact_queries s) (outbox s ++ [m]) (S (attempts s))
         (lines s))
  end.

Definition await {A} (c : completion A) : action A := λ s, (c, s).

(** [POST /api/subscribe] from its second statement on; [email] is the
    field taken from the body. *)
Definition subscribe (email : option jsstring) : action answer :=
  if falsy email then
    _ ← log LogMissingEmail;
    mret (JsonError 400 (js "Email is required"))
  else
    let email := default [] email in
    catch
      (_ ← log (LogChecking email);
       fetched ← contacts_by_email email;
       match fetched with
       | Failed message =>
           _ ← log (LogFetchError message);
           mret (JsonError 500 (js "Database fetch failed"))
       | Data userData =>
           refused ←
             match userData with
             | user :: _ =>
                 if bool_decide (subscription user = Some true) then
                   _ ← log (LogAlreadySubscribed email); mret None
                 else
                   updated ← contacts_set_subscription email true;
                   match updated with
                   | Failed message =>
                       _ ← log (LogUpdateError message);
                       mret (Some (JsonError 500 (js "Failed to update subscription")))
                   | Data _ => _ ← log (LogUpdated email); mret None
                   end
             | [] =>
                 inserted ← contacts_insert (Contact None email None None None (Some true));
                 match inserted with
                 | Failed message =>
                     _ ← log (LogInsertError message);
                     mret (Some (JsonError 500 (js "Failed to add new subscriber")))
                 | Data _ => _ ← log (LogAdded email); mret None
                 end
             end;
           match refused with
           | Some early => mret early
           | None =>
               encoded ← await (encodeURIComponent email);
               _ ← sendMail
                     (Mail (MAIL_USER env) (Some (QString email))
                        (Welcome (shown (BASE_URL env) ++ js "/api/unsubscribe?email="
                                  ++ encoded)
                           (current_year provider)));
               _ ← log (LogWelcomeSent email);
               mret (JsonSuccess
                       (Some (js "Subscription activated and welcome email sent!")))
           end
       end)
      (λ err,
         _ ← log (LogSubscribeFailed err);
         mret (JsonError 500 (js "Internal server error"))).

(** [email.includes("@")]: on a string, on an array; an object has no
    such method and the call throws. *)
Definition includes_at (email : qvalue) : completion bool :=
  match email with
  | QString s => Normal (bool_decide (64 ∈ s))
  | QArray items =>
      Normal (existsb (λ item, match item with
                               | QString [64] => true
                               | _ => false
                               end) items)
  | QObject => Throw (js "email.includes is not a function")
  end.

(** [!email] on a query value. *)
Definition absent (email : option qvalue) : bool :=
  match email with
  | None | Some (QString []) => true
  | Some _ => false
  end.

(** [GET /api/unsubscribe]; [email] is [req.query.email]. *)
Definition unsubscribe (email : option qvalue) : action answer :=
  catch
    (valid ← match email with
             | Some v => if absent email then mret false else await (includes_at v)
             | None => mret false
             end;
     if negb valid then
       _ ← log LogInvalidUnsubscribe;
       mret (Text 400 (js "Invalid unsubscribe link."))
     else
       let shown_email := text email in
       _ ← log (LogUnsubscribeRequest shown_email);
       fetched ← contacts_by_email shown_email;
       match fetched with
       | Failed message =>
           _ ← log (LogFetchError message);
           mret (Text 500 (js "Internal server error."))
       | Data [] =>
           _ ← log (LogNoUser shown_email);
           mret (Text 404 (js "Email not found in database."))
       | Data (user :: _) =>
           if bool_decide (subscription user = Some false) then
             _ ← log (LogAlreadyUnsubscribed shown_email);
             mret (AlreadyUnsubscribedPage shown_email)
           else
             updated ← contacts_set_subscription shown_email false;
             match updated with
             | Failed message =>
                 _ ← log (LogUpdateError message);
                 mret (Text 500 (js "Failed to update subscription."))
             | Data _ =>
                 _ ← log (LogUnsubscribed shown_email);
                 _ ← sendMail (Mail (MAIL_USER env) email (Unsubscribed shown_email));
                 _ ← log (LogConfirmationSent shown_email);
                 mret (UnsubscribedPage shown_email)
             end
       end)
    (λ err,
       _ ← log (LogUnsubscribeFailed err);
       mret (Text 500 (js "Internal server error."))).

(** [err.message || err]: the message, or the error itself ([None]) when
    the message is empty. *)
Definition detail_of (message : jsstring) : option jsstring :=
  if JsString.is_empty message then None else Some message.

(** [POST /api/contact] from its second statement on; the arguments are
    the fields taken from the body. *)
Definition contact_form (fullName email company need message : option jsstring)
  : action answer :=
  if falsy fullName || falsy email || falsy message then
    mret (JsonError 400 (js "Missing required fields"))
  else
    catch
      (_ ← sendMail
             (Mail (MAIL_USER env) (QString <$> RECEIVER_MAIL env)
                (ContactNotice (default [] fullName) (default [] email)
                   (js_or_text company (js "N/A")) (js_or_text need (js "N/A"))
                   (default [] message)));
       inserted ← contacts_insert
                    (Contact fullName (default [] email) company need message
                       (Some false));
       match inserted with
       | Failed failure =>
           _ ← log (LogContactInsertError failure);
           mret (JsonFailure (js "Failed to save to database") (detail_of failure)
                   (js "supabase_insert"))
       | Data _ => mret (JsonSuccess None)
       end)
      (λ err,
         _ ← log (LogContactFailed err);
         mret (JsonFailure (js "Failed to process request") (detail_of err)
                 (js "contact_handler"))).

(** [POST /api/automation-inquiry] from its second statement on; the
    arguments are the fields taken from the body. *)
Definition automation_inquiry (choice phone : option jsstring) : action answer :=
  if falsy choice then mret (JsonError 400 (js "Missing choice"))
  else if (bool_decide (choice = Some (js "yes"))
           || bool_decide (choice = Some (js "maybe"))) && falsy phone
  then mret (JsonError 400 (js "Missing phone number"))
  else
    catch
      (_ ← sendMail
             (Mail (MAIL_USER env) (QString <$> RECEIVER_MAIL env)
                (AutomationNotice (default [] choice) (js_or_text phone (js "N/A"))));
       mret (JsonSuccess None))
      (λ err,
         _ ← log (LogAutomationFailed err);
         mret (JsonFailure (js "Failed to process request") (detail_of err)
                 (js "automation_inquiry"))).

(** [const { ... } = req.body], which no handler puts inside its [try]:
    when the request has no body, [req.body] is [undefined], the statement
    throws, and the error leaves the handler. *)
Definition destructure {A} (body : option A) (property : string) : action A := λ s,
  match body with
  | Some fields => (Normal fields, s)
  | None =>
      (Throw (js "Cannot destructure property '" ++ js property
              ++ js "' of 'req.body' as it is undefined."), s)
  end.

(** The handler of [POST /api/contact]; [body] is [req.body]. *)
Definition post_contact (body : option contact_body) : action answer :=
  fields ← destructure body "fullName";
  contact_form (form_fullName fields) (form_email fields) (form_company fields)
    (form_need fields) (form_message fields).

(** The handler of [POST /api/automation-inquiry], which reads
    [req.body || {}]. *)
Definition post_automation_inquiry (body : option automation_body) : action answer :=
  let fields := default (AutomationBody None None) body in
  automation_inquiry (form_choice fields) (form_phone fields).

(** The handler of [POST /api/subscribe]; [body] is [req.body]. *)
Definition post_subscribe (body : option subscribe_body) : action answer :=
  fields ← destructure body "email";
  subscribe (form_subscriber fields).

(** The requests these routes take: the body of a [POST], if the request
    has one, and the query of the [GET]. *)
Inductive call :=
| PostContact (body : option contact_body)
| PostAutomationInquiry (body : option automation_body)
| PostSubscribe (body : option subscribe_body)
| GetUnsubscribe (email : option qvalue).

Definition handle (c : call) : action answer :=
  match c with
  | PostContact body => post_contact body
  | PostAutomationInquiry body => post_automation_inquiry body
  | PostSubscribe body => post_subscribe body
  | GetUnsubscribe email => unsubscribe email
  end.

(** Requests handled one after the other; the state they leave. *)
Fixpoint handle_all (cs : list call) (s : mailbox) : mailbox :=
  match cs with
  | [] => s
  | c :: rest => handle_all rest (handle c s).2
  end.

End Handlers.

(** A row differs from another in [subscription] at most. *)
Definition same_contact (c c' : contact) : Prop :=
  full_name c' = full_name c ∧ contact_email c' = contact_email c
  ∧ company c' = company c ∧ need c' = need c
  ∧ contact_message c' = contact_message c.

(** The table [after] holds the rows of [before], in their places and up
    to [subscription], and then new ones. *)
Definition rows_kept (before after : list contact) : Prop :=
  ∃ kept added, after = kept ++ added ∧ Forall2 same_contact before kept.

(** Somebody with this address is on the mailing list. *)
Definition subscribed (email : jsstring) (rows : list contact) : Prop :=
  ∃ c, c ∈ rows ∧ contact_email c = email ∧ subscription c = Some true.

(** The store returns the rows a request selects, in some order. *)
Definition in_order (provider : services) : Prop :=
  ∀ n rows, row_order provider n rows ≡ₚ rows.

(** Services that answer every request and deliver every mail. *)
Definition reliable (provider : services) : Prop :=
  in_order provider
  ∧ (∀ n, contacts_outage provider n = None)
  ∧ (∀ n, mail_failure provider n = None).

(** No request of the list is for [/api/unsubscribe]. *)
Definition no_unsubscribe (cs : list call) : Prop :=
  ∀ c, c ∈ cs → match c with GetUnsubscribe _ => False | _ => True end.

End Mailing.

(** Services and tables to run the mailing routes on. *)
Module MailDemo.
Import Mailing.
Definition env : mail_env :=
  MailEnv (Some (js "news@goftus.com")) (Some (js "desk@goftus.com"))
    (Some (js "https://api.goftus.com")).
Definition fine : services := Services (λ _, None) (λ _ rows, reverse rows) (λ _, None) 2025.
Definition no_mail : services :=
  Services (λ _, None) (λ _ rows, reverse rows) (λ _, Some (js "Invalid login")) 2025.
Definition no_store : services :=
  Services (λ _, Some (js "fetch failed")) (λ _ rows, rows) (λ _, None) 2025.
Definition ann : jsstring := js "ann@example.com".
Definition empty : mailbox := Mailbox [] [] [] 0 [].
Definition listed : mailbox :=
  Mailbox [Contact (Some (js "Ann")) ann None None (Some (js "Hello")) (Some false);
           Contact None ann None None None (Some true);
           Contact None (js "bob@example.com") None None None (Some true)]
    [] [] 0 [].
End MailDemo.

(** * Properties *)

Import JsString Buffer.

(** ** The runtime functions on examples *)

Example js_literal : js "a@x" = [97; 64; 120].
Proof. reflexivity. Qed.

Example base64_of_email :
  toString_base64 (from_utf8 (js "admin@x.com")) = js "YWRtaW5AeC5jb20=".
Proof. reflexivity. Qed.

Example email_of_base64 :
  toString_utf8 (from_base64 (js "YWRtaW5AeC5jb20=")) = js "admin@x.com".
Proof. reflexivity. Qed.

Example utf8_three_bytes : from_utf8 [0x20AC] = [0xE2; 0x82; 0xAC].
Proof. reflexivity. Qed.

Example utf8_surrogate_pair :
  from_utf8 [0xD83D; 0xDE00] = [0xF0; 0x9F; 0x98; 0x80] ∧
  toString_utf8 [0xF0; 0x9F; 0x98; 0x80] = [0xD83D; 0xDE00].
Proof. split; reflexivity. Qed.

(** An unpaired surrogate does not survive the way through UTF-8. *)
Example utf8_lone_surrogate :
  isWellFormed [0xD83D] = false ∧ toString_utf8 (from_utf8 [0xD83D]) = [0xFFFD].
Proof. split; reflexivity. Qed.

(** The base64 reader skips what is not in its alphabets and stops at the
    padding. *)
Example base64_lenient :
  from_base64 (js "YWJj%%%") = [97; 98; 99] ∧
  from_base64 (js "YW Jj") = [97; 98; 99] ∧
  from_base64 (js "YQ==YWJj") = [97] ∧
  from_base64 (js "%%%") = [].
Proof. split_and!; reflexivity. Qed.

(** ** Bit operations as arithmetic *)

Ltac nlia := zify; Z.to_euclidean_division_equations; lia.

Lemma testbit_small b k n : b < 2 ^ k → k ≤ n → N.testbit b n = false.
Proof.
  intros Hb Hn. destruct (N.eq_dec b 0) as [->|Hz]; [apply N.bits_0|].
  apply N.bits_above_log2. apply N.log2_lt_pow2; [lia|].
  eapply N.lt_le_trans; [exact Hb|]. apply N.pow_le_mono_r; lia.
Qed.

Lemma lor_shiftl_add a k b : b < 2 ^ k → N.lor (N.shiftl a k) b = a * 2 ^ k + b.
Proof.
  intros Hb.
  assert (Hd : N.land (N.shiftl a k) b = 0).
  { apply N.bits_inj; intros n; rewrite N.land_spec, N.bits_0.
    destruct (N.lt_ge_cases n k) as [Hn|Hn].
    - rewrite N.shiftl_spec_low by assumption; reflexivity.
    - rewrite (testbit_small b k n) by assumption. apply andb_false_r. }
  rewrite <- N.lxor_lor, <- N.add_nocarry_lxor, N.shiftl_mul_pow2; auto.
Qed.

Lemma land_low a k : N.land a (2 ^ k - 1) = a mod 2 ^ k.
Proof. rewrite <- N.land_ones. f_equal. rewrite N.ones_equiv. lia. Qed.

Lemma lor_6 a b : b < 64 → N.lor (N.shiftl a 6) b = a * 64 + b.
Proof. apply (lor_shiftl_add a 6 b). Qed.
Lemma lor_4 a b : b < 16 → N.lor (N.shiftl a 4) b = a * 16 + b.
Proof. apply (lor_shiftl_add a 4 b). Qed.
Lemma lor_2 a b : b < 4 → N.lor (N.shiftl a 2) b = a * 4 + b.
Proof. apply (lor_shiftl_add a 2 b). Qed.

Lemma land_3 a : N.land a 3 = a mod 4.
Proof. apply (land_low a 2). Qed.
Lemma land_15 a : N.land a 15 = a mod 16.
Proof. apply (land_low a 4). Qed.
Lemma land_63 a : N.land a 63 = a mod 64.
Proof. apply (land_low a 6). Qed.
Lemma land_48 a : N.shiftr (N.land a 0x30) 4 = (a / 16) mod 4.
Proof. rewrite N.shiftr_land, N.shiftr_div_pow2. apply (land_low _ 2). Qed.
Lemma land_60 a : N.shiftr (N.land a 0x3C) 2 = (a / 4) mod 16.
Proof. rewrite N.shiftr_land, N.shiftr_div_pow2. apply (land_low _ 4). Qed.

Ltac bits :=
  rewrite ?land_48, ?land_60, ?land_3, ?land_15, ?land_63, ?N.shiftr_div_pow2;
  repeat first [ rewrite lor_2 by nlia | rewrite lor_4 by nlia | rewrite lor_6 by nlia ];
  rewrite ?N.shiftl_mul_pow2; try nlia.

Ltac cmp :=
  repeat match goal with
  | |- context [?a <=? ?b] => destruct (N.leb_spec a b); try lia
  | |- context [?a <? ?b] => destruct (N.ltb_spec a b); try lia
  | |- context [?a =? ?b] => destruct (N.eqb_spec a b); try lia
  end; simpl.


(** ** Base64: reading back what was written *)

Lemma unbase64_base64_char v : v < 64 → unbase64 (base64_char v) = Some v.
Proof.
  intros Hv. unfold unbase64, base64_char. cmp; f_equal; lia.
Qed.

Lemma base64_char_not_pad v : base64_char v ≠ pad.
Proof. unfold base64_char, pad. cmp; lia. Qed.

Lemma sextets_char v rest :
  v < 64 → sextets (base64_char v :: rest) = v :: sextets rest.
Proof. intros Hv. simpl. by rewrite unbase64_base64_char. Qed.

Lemma sextets_pad rest : sextets (pad :: rest) = [].
Proof. reflexivity. Qed.

Lemma list_ind3 {A} (P : list A → Prop) :
  P [] → (∀ x, P [x]) → (∀ x y, P [x; y]) →
  (∀ x y z l, P l → P (x :: y :: z :: l)) → ∀ l, P l.
Proof.
  intros H0 H1 H2 H3.
  assert (H : ∀ l, P l ∧ (∀ x, P (x :: l)) ∧ (∀ x y, P (x :: y :: l))).
  { induction l as [|z l (IH0 & IH1 & IH2)]; [by auto|].
    split_and!; auto. }
  intros l. apply H.
Qed.

Lemma from_base64_toString_base64 (b : buffer) :
  Forall (λ x, x < 256) b → from_base64 (toString_base64 b) = b.
Proof.
  unfold from_base64. induction b as [|x|x y|x y z b IH] using list_ind3; intros Hb.
  - reflexivity.
  - apply Forall_cons in Hb as [Hx _].
    cbn [toString_base64]. rewrite !sextets_char, sextets_pad; cbn [octets].
    all: bits.
    f_equal; nlia.
  - apply Forall_cons in Hb as [Hx [Hy _]%Forall_cons].
    cbn [toString_base64]. rewrite !sextets_char, sextets_pad; cbn [octets].
    all: bits.
    f_equal; [|f_equal]; nlia.
  - apply Forall_cons in Hb as [Hx [Hy [Hz Hb]%Forall_cons]%Forall_cons].
    cbn [toString_base64]. rewrite <- !app_comm_cons, app_nil_l.
    rewrite !sextets_char; cbn [octets].
    all: bits.
    rewrite IH by done. rewrite <- !app_comm_cons, app_nil_l. f_equal; [|f_equal; [|f_equal]]; nlia.
Qed.



(** ** UTF-8: reading back what was written *)

Lemma lor_const c k x : x < 2 ^ k → N.lor (c * 2 ^ k) x = c * 2 ^ k + x.
Proof. intros. rewrite <- lor_shiftl_add by done. by rewrite N.shiftl_mul_pow2. Qed.

Lemma lor_128 x : x < 64 → N.lor 128 x = 128 + x.
Proof. apply (lor_const 2 6). Qed.
Lemma lor_192 x : x < 32 → N.lor 192 x = 192 + x.
Proof. apply (lor_const 6 5). Qed.
Lemma lor_224 x : x < 16 → N.lor 224 x = 224 + x.
Proof. apply (lor_const 14 4). Qed.
Lemma lor_240 x : x < 8 → N.lor 240 x = 240 + x.
Proof. apply (lor_const 30 3). Qed.
Lemma land_31 a : N.land a 31 = a mod 32.
Proof. apply (land_low a 5). Qed.
Lemma land_7 a : N.land a 7 = a mod 8.
Proof. apply (land_low a 3). Qed.
Lemma land_1023 a : N.land a 1023 = a mod 1024.
Proof. apply (land_low a 10). Qed.

Lemma utf8_start_ascii b : b < 128 → utf8_start b = (None, [b]).
Proof. intros. unfold utf8_start. by cmp. Qed.

Lemma utf8_start_2 a :
  2 ≤ a < 32 → utf8_start (192 + a) = (Some (Pending a 1 0x80 0xBF), []).
Proof.
  intros. unfold utf8_start. rewrite land_31. cmp.
  do 3 f_equal. nlia.
Qed.

Lemma utf8_start_3 a :
  a < 16 →
  utf8_start (224 + a) =
    (Some (Pending a 2 (if a =? 0 then 0xA0 else 0x80)
             (if a =? 13 then 0x9F else 0xBF)), []).
Proof.
  intros. unfold utf8_start. rewrite land_15. cmp.
  all: do 3 f_equal; nlia.
Qed.

Lemma utf8_start_4 a :
  a ≤ 4 →
  utf8_start (240 + a) =
    (Some (Pending a 3 (if a =? 0 then 0x90 else 0x80)
             (if a =? 4 then 0x8F else 0xBF)), []).
Proof.
  intros. unfold utf8_start. rewrite land_7. cmp.
  all: do 3 f_equal; nlia.
Qed.

Lemma utf8_step_continue cp n lo hi x :
  x < 64 → lo ≤ 128 + x ≤ hi →
  utf8_step (Some (Pending cp n lo hi)) (128 + x) =
    if n =? 1 then (None, utf16_units (cp * 64 + x))
    else (Some (Pending (cp * 64 + x) (n - 1) 0x80 0xBF), []).
Proof.
  intros Hx [Hlo Hhi]. unfold utf8_step; cbn [lower upper code_point bytes_left].
  destruct (N.leb_spec lo (128 + x)); [|lia].
  destruct (N.leb_spec (128 + x) hi); [|lia]. cbn [andb].
  rewrite land_63, lor_6 by nlia.
  replace ((128 + x) mod 64) with x by nlia. done.
Qed.

Lemma utf8_bytes_digits cp :
  cp < 0x110000 →
  utf8_bytes cp =
    if cp <? 0x80 then [cp]
    else if cp <? 0x800 then [192 + cp / 64; 128 + cp mod 64]
    else if cp <? 0x10000 then
      [224 + cp / 4096; 128 + (cp / 64) mod 64; 128 + cp mod 64]
    else [240 + cp / 262144; 128 + (cp / 4096) mod 64;
          128 + (cp / 64) mod 64; 128 + cp mod 64].
Proof.
  intros. unfold utf8_bytes. rewrite !land_63, !N.shiftr_div_pow2.
  change (2 ^ 6) with 64. change (2 ^ 12) with 4096. change (2 ^ 18) with 262144.
  rewrite !lor_128 by nlia.
  destruct (N.ltb_spec cp 0x80); [done|].
  destruct (N.ltb_spec cp 0x800); [by rewrite lor_192 by nlia|].
  destruct (N.ltb_spec cp 0x10000); [by rewrite lor_224 by nlia|].
  by rewrite lor_240 by nlia.
Qed.

Lemma utf8_decode_bytes cp rest :
  scalar cp →
  utf8_decode None (utf8_bytes cp ++ rest) = utf16_units cp ++ utf8_decode None rest.
Proof.
  intros [Hcp Hs]. rewrite utf8_bytes_digits by done.
  destruct (N.ltb_spec cp 0x80).
  { rewrite <- !app_comm_cons, app_nil_l. cbn [utf8_decode utf8_step].
    rewrite utf8_start_ascii by done.
    unfold utf16_units. destruct (N.ltb_spec cp 0x10000); [done|lia]. }
  destruct (N.ltb_spec cp 0x800).
  { rewrite <- !app_comm_cons, app_nil_l. cbn [utf8_decode utf8_step].
    rewrite utf8_start_2 by nlia. rewrite utf8_step_continue by nlia.
    change (1 =? 1) with true. cbn iota. rewrite app_nil_l.
    by replace (cp / 64 * 64 + cp mod 64) with cp by nlia. }
  destruct (N.ltb_spec cp 0x10000).
  { rewrite <- !app_comm_cons, app_nil_l. cbn [utf8_decode utf8_step].
    rewrite utf8_start_3 by nlia.
    rewrite utf8_step_continue; [|nlia|cmp; nlia].
    change (2 =? 1) with false. change (2 - 1) with 1. cbn [utf8_decode].
    rewrite utf8_step_continue by nlia.
    change (1 =? 1) with true. cbn iota. rewrite !app_nil_l.
    by replace ((cp / 4096 * 64 + (cp / 64) mod 64) * 64 + cp mod 64) with cp by nlia. }
  rewrite <- !app_comm_cons, app_nil_l. cbn [utf8_decode utf8_step].
  rewrite utf8_start_4 by nlia.
  rewrite utf8_step_continue; [|nlia|cmp; nlia].
  change (3 =? 1) with false. change (3 - 1) with 2. cbn [utf8_decode].
  rewrite utf8_step_continue by nlia.
  change (2 =? 1) with false. change (2 - 1) with 1. cbn [utf8_decode].
  rewrite utf8_step_continue by nlia.
  change (1 =? 1) with true. cbn iota. rewrite !app_nil_l.
  by replace (((cp / 262144 * 64 + (cp / 4096) mod 64) * 64 + (cp / 64) mod 64) * 64
           + cp mod 64) with cp by nlia.
Qed.

Lemma surrogates_spec c :
  (is_high_surrogate c = true ↔ 0xD800 ≤ c ≤ 0xDBFF) ∧
  (is_low_surrogate c = true ↔ 0xDC00 ≤ c ≤ 0xDFFF).
Proof.
  unfold is_high_surrogate, is_low_surrogate.
  rewrite !andb_true_iff, !N.leb_le. done.
Qed.

Lemma scalar_pair hi lo :
  is_high_surrogate hi = true → is_low_surrogate lo = true →
  scalar (pair_code_point hi lo) ∧ utf16_units (pair_code_point hi lo) = [hi; lo].
Proof.
  intros Hhi%surrogates_spec Hlo%surrogates_spec.
  unfold scalar, pair_code_point, utf16_units.
  rewrite N.shiftl_mul_pow2. change (2 ^ 10) with 1024.
  split; [lia|].
  destruct (N.ltb_spec (65536 + (hi - 55296) * 1024 + (lo - 56320)) 65536); [lia|].
  rewrite land_1023, N.shiftr_div_pow2. change (2 ^ 10) with 1024.
  f_equal; [|f_equal]; nlia.
Qed.

Lemma scalar_unit c :
  is_high_surrogate c = false → is_low_surrogate c = false → c < 0x10000 →
  scalar c ∧ utf16_units c = [c].
Proof.
  intros Hhi Hlo Hc. split.
  - split; [lia|]. intros H.
    destruct (surrogates_spec c) as [H1 H2].
    destruct (N.le_gt_cases c 0xDBFF).
    + rewrite (proj2 H1) in Hhi by lia. done.
    + rewrite (proj2 H2) in Hlo by lia. done.
  - unfold utf16_units. destruct (N.ltb_spec c 65536); [done|lia].
Qed.

Lemma utf8_bytes_octets cp : cp < 0x110000 → Forall (λ x, x < 256) (utf8_bytes cp).
Proof.
  intros. rewrite utf8_bytes_digits by done.
  destruct (N.ltb_spec cp 0x80); [repeat constructor; lia|].
  destruct (N.ltb_spec cp 0x800); [repeat constructor; nlia|].
  destruct (N.ltb_spec cp 0x10000); repeat constructor; nlia.
Qed.

Lemma list_ind2 {A} (P : list A → Prop) :
  P [] → (∀ x, P [x]) → (∀ x y l, P l → P (y :: l) → P (x :: y :: l)) →
  ∀ l, P l.
Proof.
  intros H0 H1 H2.
  assert (H : ∀ l, P l ∧ (∀ x, P (x :: l))).
  { induction l as [|y l [IH0 IH1]]; [by auto|]. split; auto. }
  intros l. apply H.
Qed.

Lemma from_utf8_unit c rest :
  is_high_surrogate c = false → is_low_surrogate c = false →
  from_utf8 (c :: rest) = utf8_bytes c ++ from_utf8 rest.
Proof. intros Hhi Hlo. cbn [from_utf8]. by rewrite Hhi, Hlo. Qed.

Lemma isWellFormed_unit c rest :
  is_high_surrogate c = false →
  isWellFormed (c :: rest) = true →
  is_low_surrogate c = false ∧ c < 0x10000 ∧ isWellFormed rest = true.
Proof.
  intros Hhi. cbn [isWellFormed]. rewrite Hhi.
  destruct (is_low_surrogate c); [done|].
  by intros [Hc%N.ltb_lt Hwf]%andb_true_iff.
Qed.

Lemma from_utf8_wellformed (s : jsstring) :
  isWellFormed s = true →
  Forall (λ x, x < 256) (from_utf8 s) ∧ toString_utf8 (from_utf8 s) = s.
Proof.
  unfold toString_utf8.
  induction s as [|c|c d s IH0 IH1] using list_ind2.
  - done.
  - destruct (is_high_surrogate c) eqn:Hhi; [by cbn; rewrite Hhi|].
    intros (Hlo & Hc & _)%isWellFormed_unit; [|done].
    rewrite from_utf8_unit by done.
    destruct (scalar_unit c) as [Hs Hu]; [done..|].
    split; [rewrite app_nil_r; apply utf8_bytes_octets; lia|].
    rewrite utf8_decode_bytes by done. by rewrite Hu.
  - destruct (is_high_surrogate c) eqn:Hhi.
    + cbn [isWellFormed from_utf8]. rewrite Hhi.
      intros [Hlo Hwf]%andb_true_iff. rewrite Hlo.
      destruct (scalar_pair c d) as [Hs Hu]; [done..|].
      destruct (IH0 Hwf) as [Hb Hr].
      split; [apply Forall_app; split; [apply utf8_bytes_octets, Hs|done]|].
      rewrite utf8_decode_bytes by done. by rewrite Hu, Hr.
    + intros (Hlo & Hc & Hwf)%isWellFormed_unit; [|done].
      rewrite from_utf8_unit by done.
      destruct (scalar_unit c) as [Hs Hu]; [done..|].
      destruct (IH1 Hwf) as [Hb Hr].
      split; [apply Forall_app; split; [apply utf8_bytes_octets; lia|done]|].
      rewrite utf8_decode_bytes by done. by rewrite Hu, Hr.
Qed.

(** ** The token codec *)

Lemma startsWith_app (p rest : jsstring) : startsWith (p ++ rest) p = true.
Proof.
  induction p as [|c p IH]; [by destruct rest|].
  rewrite <- app_comm_cons. cbn [startsWith].
  by rewrite N.eqb_refl, IH.
Qed.

Lemma slice_app (p rest : jsstring) : slice (p ++ rest) (length p) = rest.
Proof. unfold slice. by rewrite drop_app_length. Qed.

Lemma token_prefix_length env :
  length (ADMIN_TOKEN env ++ js ".") = (length (ADMIN_TOKEN env) + 1)%nat.
Proof. by rewrite length_app. Qed.

Lemma encodeAdminToken_split env (email : jsstring) :
  encodeAdminToken env email =
    (ADMIN_TOKEN env ++ js ".") ++ toString_base64 (from_utf8 email).
Proof. unfold encodeAdminToken. by rewrite <- app_assoc. Qed.

(** C3: for every shared-secret prefix and every well-formed email string,
    decoding the token that encodes the email gives the email back. *)
Theorem decode_encode_roundtrip env (e : jsstring) :
  isWellFormed e = true →
  decodeAdminEmail env (encodeAdminToken env e) = Normal (Some e).
Proof.
  intros Hwf. destruct (from_utf8_wellformed e Hwf) as [Hbytes Hback].
  unfold decodeAdminEmail, decodeAdminEmail_with.
  rewrite encodeAdminToken_split, startsWith_app. cbn [negb].
  rewrite <- token_prefix_length, slice_app.
  cbn [mbind completion_bind try_catch].
  by rewrite from_base64_toString_base64, Hback.
Qed.

Lemma decode_encode_roundtrip_witness :
  isWellFormed (js "admin@x.com") = true ∧
  decodeAdminEmail (ProcessEnv None None (Some (js "s3cret")))
    (encodeAdminToken (ProcessEnv None None (Some (js "s3cret"))) (js "admin@x.com"))
  = Normal (Some (js "admin@x.com")).
Proof.
  split; [reflexivity|].
  apply (decode_encode_roundtrip (ProcessEnv None None (Some (js "s3cret")))).
  reflexivity.
Defined.

(** C4: [decodeAdminEmail] never throws, whatever the token and whatever
    the base64 reader does; a token without the shared-secret prefix and
    separator decodes to [null], and so does a token whose remainder makes
    the base64 reader throw. *)
Theorem decodeAdminEmail_total env :
  (∀ from token, ∃ r, decodeAdminEmail_with env from token = Normal r) ∧
  (∀ token, ∃ r, decodeAdminEmail env token = Normal r) ∧
  (∀ from token,
     startsWith token (ADMIN_TOKEN env ++ js ".") = false →
     decodeAdminEmail_with env from token = Normal None) ∧
  (∀ from token err,
     from (slice token (length (ADMIN_TOKEN env) + 1)) = Throw err →
     decodeAdminEmail_with env from token = Normal None).
Proof.
  assert (Htotal : ∀ from token,
             ∃ r, decodeAdminEmail_with env from token = Normal r).
  { intros from token. unfold decodeAdminEmail_with.
    destruct (startsWith token _); cbn [negb]; [|by eexists].
    destruct (from _); cbn; by eexists. }
  split_and!.
  - exact Htotal.
  - intros token. apply Htotal.
  - intros from token Hprefix. unfold decodeAdminEmail_with.
    by rewrite Hprefix.
  - intros from token err Hthrow. unfold decodeAdminEmail_with.
    destruct (startsWith token _); cbn [negb]; [|done].
    by rewrite Hthrow.
Qed.

(** The only tokens that decode to [null] are those without the prefix:
    after the prefix, whatever follows is read as base64. *)
Lemma decodeAdminEmail_null env (token : jsstring) :
  decodeAdminEmail env token = Normal None ↔
  startsWith token (ADMIN_TOKEN env ++ js ".") = false.
Proof.
  unfold decodeAdminEmail, decodeAdminEmail_with.
  destruct (startsWith token _); cbn; split; done.
Qed.

Example decodeAdminEmail_lenient :
  decodeAdminEmail Demo.env (js "goftus-admin-token.%%%") = Normal (Some []) ∧
  decodeAdminEmail Demo.env (js "goftus-admin-token.YWRtaW5AeC5jb20%%%")
  = Normal (Some (js "admin@x.com")).
Proof. split; reflexivity. Qed.

Lemma decodeAdminEmail_total_witness :
  decodeAdminEmail_with (ProcessEnv None None None) (λ _, Throw (js "bad"))
    (js "goftus-admin-token.%%%") = Normal None ∧
  decodeAdminEmail_with (ProcessEnv None None None) (λ s, Normal (from_base64 s))
    (js "not-a-token") = Normal None.
Proof.
  destruct (decodeAdminEmail_total (ProcessEnv None None None))
    as (_ & _ & Hprefix & Hthrow).
  split.
  - apply (Hthrow _ _ (js "bad")). reflexivity.
  - apply Hprefix. reflexivity.
Defined.

(** ** Running handlers *)

Lemma bind_run {A B} (m : handler A) (f : A → handler B) w a w' :
  m w = (Normal a, w') → (m ≫= f) w = f a w'.
Proof. intros Hm. unfold mbind, handler_bind. by rewrite Hm. Qed.

Lemma supabase_up {A} (store : backend) (q : query)
    (serve : nat → world → reply A * gmap jsstring banner) w :
  outage store (length (queries w)) = None →
  supabase store q serve w =
    (Normal (serve (length (queries w)) w).1,
     after q (serve (length (queries w)) w).2 w).
Proof. intros Hup. unfold supabase. rewrite Hup. by destruct (serve _ _). Qed.

Lemma supabase_down {A} (store : backend) (q : query)
    (serve : nat → world → reply A * gmap jsstring banner) w message :
  outage store (length (queries w)) = Some message →
  supabase store q serve w = (Normal (Failed message), after q (banners w) w).
Proof. intros Hdown. unfold supabase. by rewrite Hdown. Qed.

Lemma after_length q rows w :
  length (queries (after q rows w)) = S (length (queries w)).
Proof. cbn. rewrite length_app. cbn. lia. Qed.

Lemma lookup_demote_others (id : jsstring) (t : N) (rows : gmap jsstring banner) (k : jsstring) :
  demote_others id t rows !! k =
    (λ r, if bool_decide (k = id) then r else demote t r) <$> rows !! k.
Proof.
  unfold demote_others. rewrite map_lookup_imap. by destruct (rows !! k).
Qed.

Lemma demote_others_target (id : jsstring) (t : N) (rows : gmap jsstring banner) :
  demote_others id t rows !! id = rows !! id.
Proof.
  rewrite lookup_demote_others. destruct (rows !! id); [|done].
  cbn. by rewrite bool_decide_eq_true_2.
Qed.

Lemma demote_others_inactive (id : jsstring) (t : N) (rows : gmap jsstring banner) (k : jsstring) (r : banner) :
  k ≠ id → demote_others id t rows !! k = Some r → is_active r = false.
Proof.
  intros Hk. rewrite lookup_demote_others.
  destruct (rows !! k) as [r0|]; [|done]. cbn.
  rewrite bool_decide_eq_false_2 by done. by intros [= <-].
Qed.

Lemma dom_demote_others (id : jsstring) (t : N) (rows : gmap jsstring banner) :
  dom (demote_others id t rows) = dom rows.
Proof.
  apply set_eq. intros k. rewrite !elem_of_dom, lookup_demote_others.
  by rewrite fmap_is_Some.
Qed.

Lemma demote_others_other (id : jsstring) (t : N) (rows : gmap jsstring banner) (k : jsstring) :
  k ≠ id → demote_others id t rows !! k = demote t <$> rows !! k.
Proof.
  intros Hk. rewrite lookup_demote_others. destruct (rows !! k); [|done].
  cbn. by rewrite bool_decide_eq_false_2.
Qed.

Lemma demote_others_missing (id : jsstring) (t : N) (rows : gmap jsstring banner) :
  rows !! id = None → demote_others id t rows = demote t <$> rows.
Proof.
  intros Hmiss. apply map_eq. intros k. rewrite lookup_fmap.
  destruct (decide (k = id)) as [->|Hk].
  - by rewrite demote_others_target, Hmiss.
  - by apply demote_others_other.
Qed.

Lemma sole_active_at_most_one id rows : sole_active id rows → at_most_one_active rows.
Proof.
  intros Hsole i j ri rj Hi Hj Hai Haj.
  apply Hsole in Hi, Hj. rewrite Hai in Hi. rewrite Haj in Hj.
  symmetry in Hi, Hj. apply bool_decide_eq_true in Hi, Hj. congruence.
Qed.

Lemma sole_active_activated (id : jsstring) (t : N) (row : banner) (rows : gmap jsstring banner) :
  is_active row = true →
  sole_active id (<[id := row]> (demote_others id t rows)).
Proof.
  intros Hrow k r. destruct (decide (k = id)) as [->|Hk].
  - rewrite lookup_insert_eq, bool_decide_eq_true_2 by done. by intros [= <-].
  - rewrite lookup_insert_ne, bool_decide_eq_false_2 by done.
    by apply demote_others_inactive.
Qed.

Lemma banner_demote_others_up store id w :
  outage store (length (queries w)) = None →
  banner_demote_others store id w =
    (Normal (Data ()),
     after (BannerDemoteOthers id)
       (demote_others id (now store (length (queries w))) (banners w)) w).
Proof. intros Hup. unfold banner_demote_others. by rewrite supabase_up. Qed.

Lemma banner_demote_others_run store id w :
  ∃ r rows,
    banner_demote_others store id w = (Normal r, after (BannerDemoteOthers id) rows w) ∧
    (outage store (length (queries w)) = None →
       rows = demote_others id (now store (length (queries w))) (banners w)) ∧
    (is_Some (outage store (length (queries w))) → rows = banners w).
Proof.
  destruct (outage store (length (queries w))) as [message|] eqn:Hout.
  - eexists _, _. unfold banner_demote_others.
    rewrite (supabase_down _ _ _ _ message) by done.
    split_and!; [done| |done]. done.
  - eexists _, _. rewrite banner_demote_others_up by done.
    split_and!; [done|done|]. by intros [? ?].
Qed.

Lemma banner_update_hit store id p w r :
  outage store (length (queries w)) = None →
  empty_payload p = false →
  banners w !! id = Some r →
  banner_update store id p w =
    (Normal (Data (id, apply_payload p (now store (length (queries w))) r)),
     after (BannerUpdate id p)
       (<[id := apply_payload p (now store (length (queries w))) r]> (banners w)) w).
Proof.
  intros Hup Hp Hr. unfold banner_update.
  rewrite supabase_up by done. by rewrite Hp, Hr.
Qed.

Lemma banner_update_miss store id p w :
  banners w !! id = None →
  ∃ message,
    banner_update store id p w =
      (Normal (Failed message), after (BannerUpdate id p) (banners w) w).
Proof.
  intros Hr. unfold banner_update.
  destruct (outage store (length (queries w))) as [message|] eqn:Hout.
  - exists message. by rewrite (supabase_down _ _ _ _ message).
  - exists no_single_row. rewrite supabase_up by done. rewrite Hr.
    by destruct (empty_payload p).
Qed.

Lemma banner_select_up store w :
  outage store (length (queries w)) = None →
  banner_select store w =
    (Normal (Data (merge_sort newest_first (map_to_list (banners w)))),
     after BannerSelect (banners w) w).
Proof. intros Hup. unfold banner_select. by rewrite supabase_up. Qed.

Lemma elem_of_newest_first (rows : gmap jsstring banner) (k : jsstring) (r : banner) :
  (k, r) ∈ merge_sort newest_first (map_to_list rows) ↔ rows !! k = Some r.
Proof. by rewrite merge_sort_Permutation, elem_of_map_to_list. Qed.

(** ** Banner activation *)

(** C1: when the banner [params_id req] exists and both writes of the
    activate action succeed, the handler answers 200 with that row, now
    active; afterwards the row is the only active one, whatever the flags
    were before (so also when it already was the only active row), at most
    one row is active, no row was added or removed, and a following read of
    the banners returns exactly the rows of the table, the target active
    and every other row inactive. *)
Theorem activate_sole_active store req w b :
  banners w !! params_id req = Some b →
  outage store (length (queries w)) = None →
  outage store (S (length (queries w))) = None →
  ∃ row w',
    banners_activate store req w =
      (Normal (Response 200 (JBanner (params_id req) row)), w') ∧
    banners w' !! params_id req = Some row ∧
    is_active row = true ∧
    sole_active (params_id req) (banners w') ∧
    at_most_one_active (banners w') ∧
    dom (banners w') = dom (banners w) ∧
    (outage store (S (S (length (queries w)))) = None →
     ∀ req', ∃ rows w'',
       banners_index store req' w' = (Normal (Response 200 (JBanners rows)), w'') ∧
       (∀ k r, (k, r) ∈ rows ↔ banners w' !! k = Some r) ∧
       (∀ k r, (k, r) ∈ rows → is_active r = bool_decide (k = params_id req))).
Proof.
  intros Hb Hsweep Hwrite.
  set (id := params_id req). set (n := length (queries w)) in *.
  set (w1 := after (BannerDemoteOthers id) (demote_others id (now store n) (banners w)) w).
  assert (Hb1 : banners w1 !! id = Some b) by (cbn; by rewrite demote_others_target).
  assert (Hn1 : length (queries w1) = S n) by apply after_length.
  set (p := activate_payload).
  set (row := apply_payload p (now store (S n)) b).
  set (w2 := after (BannerUpdate id p) (<[id := row]> (banners w1)) w1).
  assert (Hsole : sole_active id (banners w2)) by by apply sole_active_activated.
  exists row, w2. split_and!.
  - unfold banners_activate. fold id.
    rewrite (bind_run _ _ w (Data ()) w1) by by apply banner_demote_others_up.
    rewrite (bind_run _ _ w1 (Data (id, row)) w2); [done|].
    unfold row, w2, row. rewrite <- Hn1.
    apply banner_update_hit; [by rewrite Hn1|done|done].
  - cbn. by rewrite lookup_insert_eq.
  - done.
  - done.
  - by eapply sole_active_at_most_one.
  - cbn. rewrite dom_insert_L, dom_demote_others.
    apply subseteq_union_1_L, singleton_subseteq_l. by eapply elem_of_dom_2.
  - intros Hread req'.
    assert (Hn2 : length (queries w2) = S (S n)).
    { unfold w2. by rewrite after_length, Hn1. }
    eexists _, _. split_and!.
    + unfold banners_index.
      rewrite (bind_run _ _ w2 _ _ (banner_select_up store w2 ltac:(by rewrite Hn2))).
      done.
    + intros k r. apply elem_of_newest_first.
    + intros k r Hin%elem_of_newest_first. by apply Hsole in Hin.
Qed.

(** C10: when the identifier matches no row and the sweep is served, the
    activate handler has sent the sweep before the update of the target, it
    answers with status 500, and it leaves the table with the rows it had,
    each of them demoted: every row that was there is still there, under
    its identifier and with its product, message, link and creation time,
    and is inactive. If a row was active before, the table has changed
    although the request failed. *)
Theorem activate_missing_demotes_all store req w :
  banners w !! params_id req = None →
  outage store (length (queries w)) = None →
  ∃ failure w',
    banners_activate store req w = (Normal (Response 500 (JError failure)), w') ∧
    sent w w' =
      [BannerDemoteOthers (params_id req);
       BannerUpdate (params_id req) activate_payload] ∧
    dom (banners w') = dom (banners w) ∧
    banners w' = demote (now store (length (queries w))) <$> banners w ∧
    (∀ k r, banners w !! k = Some r →
            ∃ r', banners w' !! k = Some r' ∧ is_active r' = false ∧
                  product r' = product r ∧ message r' = message r ∧
                  href r' = href r ∧ created_at r' = created_at r) ∧
    (∀ k r, banners w' !! k = Some r → is_active r = false) ∧
    ((∃ k r, banners w !! k = Some r ∧ is_active r = true) →
     banners w' ≠ banners w).
Proof.
  intros Hmiss Hsweep.
  set (id := params_id req) in *. set (n := length (queries w)) in *.
  set (rows := demote_others id (now store n) (banners w)).
  set (w1 := after (BannerDemoteOthers id) rows w).
  assert (Hmiss1 : banners w1 !! id = None).
  { cbn. unfold rows. by rewrite demote_others_target. }
  destruct (banner_update_miss store id activate_payload w1 Hmiss1)
    as [message Hupdate].
  assert (Hinactive : ∀ k r, rows !! k = Some r → is_active r = false).
  { intros k r Hr. destruct (decide (k = id)) as [->|Hk].
    - unfold rows in Hr. rewrite demote_others_target in Hr. congruence.
    - by eapply demote_others_inactive. }
  assert (Hrows : rows = demote (now store n) <$> banners w)
    by by apply demote_others_missing.
  eexists message, _. split; [|split; [|split; [|split; [|split; [|split]]]]].
  - unfold banners_activate. fold id.
    rewrite (bind_run _ _ w (Data ()) w1) by by apply banner_demote_others_up.
    by rewrite (bind_run _ _ _ _ _ Hupdate).
  - unfold sent. cbn. rewrite <- app_assoc. by rewrite drop_app_length.
  - cbn. apply dom_demote_others.
  - done.
  - intros k r Hr. cbn. rewrite Hrows, lookup_fmap, Hr. cbn.
    by eexists.
  - done.
  - intros (k & r & Hr & Hactive) Heq. cbn in Heq.
    assert (Hk : rows !! k = Some r) by by rewrite Heq.
    apply Hinactive in Hk. congruence.
Qed.

Lemma activate_sole_active_witness :
  banners Demo.w0 !! js "2" = Some Demo.banner2 ∧
  sole_active (js "2")
    (banners (banners_activate Demo.store (Demo.req None "2" Demo.no_body) Demo.w0).2).
Proof.
  split; [reflexivity|].
  destruct (activate_sole_active Demo.store (Demo.req None "2" Demo.no_body)
              Demo.w0 Demo.banner2)
    as (row & w' & Hrun & _ & _ & Hsole & _); [reflexivity..|].
  by rewrite Hrun.
Defined.

Lemma activate_missing_demotes_all_witness :
  banners Demo.w0 !! js "7" = None ∧
  dom (banners (banners_activate Demo.store (Demo.req None "7" Demo.no_body) Demo.w0).2)
  = dom (banners Demo.w0) ∧
  ∀ k r,
    banners (banners_activate Demo.store (Demo.req None "7" Demo.no_body) Demo.w0).2
      !! k = Some r →
    is_active r = false.
Proof.
  split; [reflexivity|].
  destruct (activate_missing_demotes_all Demo.store
              (Demo.req None "7" Demo.no_body) Demo.w0)
    as (message & w' & Hrun & _ & Hdom & _ & _ & Hinactive & _); [reflexivity..|].
  by rewrite Hrun.
Defined.

(** The scenario of the specification: banner 1 active, banner 2 not;
    activating banner 2 leaves banner 2 active and banner 1 inactive. *)
Example activate_scenario :
  let w' := (banners_activate Demo.store (Demo.req None "2" Demo.no_body) Demo.w0).2 in
  is_active <$> banners w' !! js "1" = Some false ∧
  is_active <$> banners w' !! js "2" = Some true.
Proof. split; reflexivity. Qed.

(** Activating the banner that is already the only active one. *)
Example activate_again_scenario :
  let run := banners_activate Demo.store (Demo.req None "1" Demo.no_body) Demo.w0 in
  run.1 = Normal (Response 200
            (JBanner (js "1") (Banner (js "tea") (js "sale") None true 10 101))) ∧
  is_active <$> banners run.2 !! js "1" = Some true ∧
  is_active <$> banners run.2 !! js "2" = Some false.
Proof. split_and!; reflexivity. Qed.

(** ** Order of the two writes *)

Lemma sent_after2 (w : world) (q1 q2 : query) (rows1 rows2 : gmap jsstring banner) :
  sent w (after q2 rows2 (after q1 rows1 w)) = [q1; q2].
Proof.
  unfold sent. cbn. rewrite <- app_assoc. by rewrite drop_app_length.
Qed.

Lemma sent_after1 (w : world) (q : query) (rows : gmap jsstring banner) :
  sent w (after q rows w) = [q].
Proof. unfold sent. cbn. by rewrite drop_app_length. Qed.

Lemma banner_update_run (store : backend) (id : jsstring) (p : banner_payload) w :
  ∃ r rows, banner_update store id p w = (Normal r, after (BannerUpdate id p) rows w).
Proof.
  unfold banner_update, supabase.
  destruct (outage store _); [by eexists _, _|].
  destruct (empty_payload p); [by eexists _, _|].
  destruct (banners w !! id); by eexists _, _.
Qed.

Lemma banner_insert_up (store : backend) (p : banner_payload) w (pr m : jsstring) :
  outage store (length (queries w)) = None →
  set_product p = Some pr → set_message p = Some m →
  banners w !! gen_random_uuid store (length (queries w)) = None →
  let n := length (queries w) in
  let row := Banner pr m (default None (set_href p))
               (default false (set_is_active p)) (now store n) (now store n) in
  banner_insert store p w =
    (Normal (Data (gen_random_uuid store n, row)),
     after (BannerInsert p) (<[gen_random_uuid store n := row]> (banners w)) w).
Proof.
  intros Hup Hpr Hm Hfresh. cbn zeta. unfold banner_insert.
  rewrite supabase_up by done. by rewrite Hpr, Hm, Hfresh.
Qed.

Lemma truthy_Some (v : option jsstring) :
  falsy v = false → ∃ c s, v = Some (c :: s).
Proof. destruct v as [[|c s]|]; [done| |done]. by exists c, s. Qed.



(** The run of the update handler when the body sets [is_active] to
    [true]. *)
Lemma banners_update_active (store : backend) (req : request) w :
  body_is_active (body req) = Some true →
  ∃ r1 rows1 r2 rows2,
    banner_demote_others store (params_id req) w =
      (Normal r1, after (BannerDemoteOthers (params_id req)) rows1 w) ∧
    banner_update store (params_id req) (update_payload (body req))
      (after (BannerDemoteOthers (params_id req)) rows1 w) =
      (Normal r2,
       after (BannerUpdate (params_id req) (update_payload (body req))) rows2
         (after (BannerDemoteOthers (params_id req)) rows1 w)) ∧
    banners_update store req w =
      (Normal match r2 with
              | Failed message => Response 500 (JError message)
              | Data data => Response 200 (JBanner data.1 data.2)
              end,
       after (BannerUpdate (params_id req) (update_payload (body req))) rows2
         (after (BannerDemoteOthers (params_id req)) rows1 w)).
Proof.
  intros Hactive.
  destruct (banner_demote_others_run store (params_id req) w)
    as (r1 & rows1 & Hsweep & _).
  destruct (banner_update_run store (params_id req) (update_payload (body req))
              (after (BannerDemoteOthers (params_id req)) rows1 w))
    as (r2 & rows2 & Hwrite).
  exists r1, rows1, r2, rows2. split_and!; [done..|].
  unfold banners_update. cbn [set_is_active update_payload]. rewrite Hactive.
  rewrite bool_decide_eq_true_2 by done.
  rewrite (bind_run _ _ _ _ _ Hsweep), (bind_run _ _ _ _ _ Hwrite).
  by destruct r2.
Qed.

Lemma banners_activate_run (store : backend) (req : request) w :
  ∃ r1 rows1 r2 rows2,
    banner_demote_others store (params_id req) w =
      (Normal r1, after (BannerDemoteOthers (params_id req)) rows1 w) ∧
    banner_update store (params_id req) activate_payload
      (after (BannerDemoteOthers (params_id req)) rows1 w) =
      (Normal r2,
       after (BannerUpdate (params_id req) activate_payload) rows2
         (after (BannerDemoteOthers (params_id req)) rows1 w)) ∧
    banners_activate store req w =
      (Normal match r2 with
              | Failed message => Response 500 (JError message)
              | Data data => Response 200 (JBanner data.1 data.2)
              end,
       after (BannerUpdate (params_id req) activate_payload) rows2
         (after (BannerDemoteOthers (params_id req)) rows1 w)).
Proof.
  destruct (banner_demote_others_run store (params_id req) w)
    as (r1 & rows1 & Hsweep & _).
  destruct (banner_update_run store (params_id req) activate_payload
              (after (BannerDemoteOthers (params_id req)) rows1 w))
    as (r2 & rows2 & Hwrite).
  exists r1, rows1, r2, rows2. split_and!; [done..|].
  unfold banners_activate.
  rewrite (bind_run _ _ _ _ _ Hsweep), (bind_run _ _ _ _ _ Hwrite).
  by destruct r2.
Qed.

Lemma empty_payload_active (b : request_body) :
  body_is_active b = Some true → empty_payload (update_payload b) = false.
Proof.
  intros Hactive. unfold empty_payload, update_payload. cbn. rewrite Hactive.
  by destruct (body_product b), (body_message b), (body_href b).
Qed.

Example update_sweeps_first :
  sent Demo.w0
    (banners_update Demo.store (Demo.req None "2" Demo.set_active) Demo.w0).2
  = [BannerDemoteOthers (js "2");
     BannerUpdate (js "2") (update_payload Demo.set_active)].
Proof. reflexivity. Qed.




(** ** A sweep that fails *)




(** ** The access gate *)

Lemma admin_find_run (store : backend) (email : option jsstring) w :
  ∃ r, admin_find store email w =
         (Normal r, after (AdminFind (filter_text email)) (banners w) w) ∧
       (∀ u, r = Data (Some u) →
             u ∈ admin_users w ∧ user_email u = filter_text email).
Proof.
  unfold admin_find, supabase.
  destruct (outage store _); [by eexists|].
  destruct (filter _ _) as [|u [|u' l]] eqn:Hfilter; eexists; (split; [done|]);
    intros u0 [=]; subst.
  assert (Hin : u0 ∈ filter (λ u, user_email u = filter_text email) (admin_users w)).
  { rewrite Hfilter. apply list_elem_of_singleton. done. }
  by apply list_elem_of_filter in Hin as [? ?].
Qed.

Lemma admin_find_hit (store : backend) (email : option jsstring) w u :
  outage store (length (queries w)) = None →
  filter (λ u, user_email u = filter_text email) (admin_users w) = [u] →
  admin_find store email w =
    (Normal (Data (Some u)), after (AdminFind (filter_text email)) (banners w) w).
Proof.
  intros Hup Hrow. unfold admin_find. rewrite supabase_up by done. by rewrite Hrow.
Qed.

Lemma filter_stranger (e : jsstring) (users : list admin_user) :
  (∀ u, u ∈ users → user_email u ≠ e) →
  filter (λ u, user_email u = e) users = [].
Proof.
  intros Hnone. induction users as [|u users IH]; [done|].
  rewrite filter_cons_False.
  - apply IH. intros u' Hu'. apply Hnone. by right.
  - apply Hnone. by left.
Qed.

Lemma findAdminByEmail_null env (store : backend) (email : option jsstring) w :
  falsy email = true → findAdminByEmail env store email w = (Normal None, w).
Proof. by destruct email as [[|c s]|]. Qed.

Lemma findAdminByEmail_primary env (store : backend) (e : jsstring) w :
  is_empty e = false → ADMIN_EMAIL env = Some e →
  findAdminByEmail env store (Some e) w = (Normal (Some (Identity e true)), w).
Proof.
  intros He Hprimary. destruct e as [|c s]; [done|].
  unfold findAdminByEmail. rewrite Hprimary. cbn [falsy is_empty negb andb].
  by rewrite bool_decide_eq_true_2.
Qed.

Lemma findAdminByEmail_secondary env (store : backend) (e : jsstring) w u :
  is_empty e = false → ADMIN_EMAIL env ≠ Some e →
  outage store (length (queries w)) = None →
  filter (λ u, user_email u = e) (admin_users w) = [u] →
  findAdminByEmail env store (Some e) w =
    (Normal (Some (Identity (user_email u) false)),
     after (AdminFind e) (banners w) w).
Proof.
  intros He Hprimary Hup Hrow. destruct e as [|c s]; [done|].
  unfold findAdminByEmail.
  rewrite (bool_decide_eq_false_2 (Some (c :: s) = ADMIN_EMAIL env)) by done.
  rewrite andb_false_r.
  by rewrite (bind_run _ _ _ _ _ (admin_find_hit store (Some (c :: s)) w u Hup Hrow)).
Qed.

Lemma findAdminByEmail_stranger env (store : backend) (email : option jsstring) w :
  email ≠ ADMIN_EMAIL env →
  (∀ u, u ∈ admin_users w → Some (user_email u) ≠ email) →
  ∃ w', findAdminByEmail env store email w = (Normal None, w').
Proof.
  intros Hprimary Hnone. destruct email as [[|c s]|]; [by eexists| |by eexists].
  unfold findAdminByEmail.
  rewrite (bool_decide_eq_false_2 (Some (c :: s) = ADMIN_EMAIL env)) by done.
  rewrite andb_false_r.
  unfold admin_find, supabase, mbind, handler_bind. cbn [filter_text default].
  rewrite filter_stranger; [|intros u Hu ?; eapply Hnone; [done|by f_equal]].
  destruct (outage store _); by eexists.
Qed.

Lemma findAdminByEmail_identity env (store : backend) (email : option jsstring) w a w' :
  findAdminByEmail env store email w = (Normal (Some a), w') →
  (identity_isSuperAdmin a = true ∧ Some (identity_email a) = ADMIN_EMAIL env
   ∧ email = ADMIN_EMAIL env) ∨
  (identity_isSuperAdmin a = false ∧ Some (identity_email a) = email
   ∧ ∃ u, u ∈ admin_users w ∧ user_email u = identity_email a).
Proof.
  destruct email as [[|c s]|]; [done| |done].
  unfold findAdminByEmail.
  destruct (negb (falsy (ADMIN_EMAIL env))
            && bool_decide (Some (c :: s) = ADMIN_EMAIL env)) eqn:Hprimary.
  - apply andb_true_iff in Hprimary as [_ Heq%bool_decide_eq_true].
    intros [= <- <-]. left. by rewrite <- Heq.
  - destruct (admin_find_run store (Some (c :: s)) w) as (r & Hfind & Hrow).
    rewrite (bind_run _ _ _ _ _ Hfind).
    destruct r as [[u|]|]; [|done..].
    intros [= <- <-]. right. destruct (Hrow u eq_refl) as [Hin Hemail].
    cbn in *. split_and!; [done|by rewrite Hemail|by exists u].
Qed.

Lemma requireAdmin_unconfigured env (store : backend) req next w :
  unconfigured env = true →
  requireAdmin env store req next w =
    (Normal (Response 500 (JError (js "Admin credentials not configured"))), w).
Proof. intros Hconf. unfold requireAdmin. by rewrite Hconf. Qed.

(** What the guard does once the credentials are configured and a token
    is present. *)
Lemma requireAdmin_token env (store : backend) req next w email :
  unconfigured env = false →
  is_empty (bearer_token req) = false →
  decodeAdminEmail env (bearer_token req) = Normal email →
  requireAdmin env store req next w =
    match findAdminByEmail env store email w with
    | (Normal (Some a), w') => next (with_identity a req) w'
    | (Normal None, w') => (Normal (Response 401 (JError (js "Unauthorized"))), w')
    | (Throw err, w') => (Throw err, w')
    end.
Proof.
  intros Hconf Htoken Hdecode. unfold requireAdmin.
  rewrite Hconf, Htoken, Hdecode.
  unfold mbind at 1, handler_bind at 1, await.
  unfold mbind, handler_bind.
  destruct (findAdminByEmail env store email w) as [[[a|]|err] w']; done.
Qed.

Lemma requireAdmin_no_token env (store : backend) req next w :
  unconfigured env = false →
  is_empty (bearer_token req) = true →
  requireAdmin env store req next w =
    (Normal (Response 401 (JError (js "Unauthorized"))), w).
Proof. intros Hconf Htoken. unfold requireAdmin. by rewrite Hconf, Htoken. Qed.

(** C5, as stated, fails: with no primary-admin credentials configured, a
    request without an [Authorization] header is answered with status 500,
    not with 401. *)
Lemma requireAdmin_unconfigured_no_header :
  authorization (Demo.req None "" Demo.no_body) = None ∧
  (requireAdmin Demo.no_env Demo.store (Demo.req None "" Demo.no_body)
     (λ _, Demo.ok) Demo.w0).1
  = Normal (Response 500 (JError (js "Admin credentials not configured"))).
Proof. split; reflexivity. Qed.

(** C5, amended: when the primary-admin credentials are configured, the
    guard answers 401 Unauthorized when there is no [Authorization] header
    or the token is empty, when the token does not decode, and when the
    decoded email does not resolve to an identity (in particular when it is
    neither the primary admin email nor the email of a row of
    [admin_users]); when it resolves, the guard sets the email and the
    privilege flag of the identity on the request and calls the next
    handler, and the identity is the primary admin (flag [true]) or a row
    of [admin_users] (flag [false]). *)
Theorem requireAdmin_guard env (store : backend) req next w :
  unconfigured env = false →
  (authorization req = None →
   requireAdmin env store req next w =
     (Normal (Response 401 (JError (js "Unauthorized"))), w)) ∧
  (is_empty (bearer_token req) = true →
   requireAdmin env store req next w =
     (Normal (Response 401 (JError (js "Unauthorized"))), w)) ∧
  (decodeAdminEmail env (bearer_token req) = Normal None →
   requireAdmin env store req next w =
     (Normal (Response 401 (JError (js "Unauthorized"))), w)) ∧
  (∀ email w',
     decodeAdminEmail env (bearer_token req) = Normal email →
     findAdminByEmail env store email w = (Normal None, w') →
     ∃ w'', requireAdmin env store req next w =
              (Normal (Response 401 (JError (js "Unauthorized"))), w'')) ∧
  (∀ email,
     decodeAdminEmail env (bearer_token req) = Normal email →
     email ≠ ADMIN_EMAIL env →
     (∀ u, u ∈ admin_users w → Some (user_email u) ≠ email) →
     ∃ w', requireAdmin env store req next w =
             (Normal (Response 401 (JError (js "Unauthorized"))), w')) ∧
  (∀ email a w',
     is_empty (bearer_token req) = false →
     decodeAdminEmail env (bearer_token req) = Normal email →
     findAdminByEmail env store email w = (Normal (Some a), w') →
     requireAdmin env store req next w = next (with_identity a req) w' ∧
     adminEmail (with_identity a req) = Some (identity_email a) ∧
     isSuperAdmin (with_identity a req) = Some (identity_isSuperAdmin a) ∧
     ((identity_isSuperAdmin a = true ∧ Some (identity_email a) = ADMIN_EMAIL env) ∨
      (identity_isSuperAdmin a = false ∧
       ∃ u, u ∈ admin_users w ∧ user_email u = identity_email a))).
Proof.
  intros Hconf.
  assert (Hnone : ∀ email w',
            decodeAdminEmail env (bearer_token req) = Normal email →
            findAdminByEmail env store email w = (Normal None, w') →
            ∃ w'', requireAdmin env store req next w =
                     (Normal (Response 401 (JError (js "Unauthorized"))), w'')).
  { intros email w' Hdecode Hfind.
    destruct (is_empty (bearer_token req)) eqn:Htoken.
    - exists w. by apply requireAdmin_no_token.
    - exists w'. rewrite (requireAdmin_token env store req next w email) by done.
      by rewrite Hfind. }
  split_and!.
  - intros Hheader. apply requireAdmin_no_token; [done|].
    unfold bearer_token. by rewrite Hheader.
  - by apply requireAdmin_no_token.
  - intros Hdecode.
    destruct (is_empty (bearer_token req)) eqn:Htoken.
    + by apply requireAdmin_no_token.
    + rewrite (requireAdmin_token env store req next w None) by done.
      by rewrite findAdminByEmail_null.
  - exact Hnone.
  - intros email Hdecode Hprimary Hrows.
    destruct (findAdminByEmail_stranger env store email w Hprimary Hrows)
      as [w' Hfind].
    by eapply Hnone.
  - intros email a w' Htoken Hdecode Hfind. split_and!; [|done..|].
    + rewrite (requireAdmin_token env store req next w email) by done.
      by rewrite Hfind.
    + destruct (findAdminByEmail_identity env store email w a w' Hfind)
        as [(Hs & He & _)|(Hs & _ & Hu)]; [by left|by right].
Qed.

Lemma requireAdmin_guard_witness :
  unconfigured Demo.env = false ∧
  requireAdmin Demo.env Demo.store (Demo.req None "" Demo.no_body)
    (λ _, Demo.ok) Demo.w0
  = (Normal (Response 401 (JError (js "Unauthorized"))), Demo.w0) ∧
  requireAdmin Demo.env Demo.store
    (Demo.req (Some (js "Bearer goftus-admin-token.YWRtaW5AeC5jb20=")) ""
       Demo.no_body)
    (λ _, Demo.ok) Demo.w0
  = Demo.ok Demo.w0.
Proof.
  split; [reflexivity|]. split.
  - destruct (requireAdmin_guard Demo.env Demo.store
                (Demo.req None "" Demo.no_body) (λ _, Demo.ok) Demo.w0 eq_refl)
      as (Hheader & _).
    apply Hheader. reflexivity.
  - destruct (requireAdmin_guard Demo.env Demo.store
                (Demo.req (Some (js "Bearer goftus-admin-token.YWRtaW5AeC5jb20="))
                   "" Demo.no_body)
                (λ _, Demo.ok) Demo.w0 eq_refl)
      as (_ & _ & _ & _ & _ & Hpass).
    destruct (Hpass (Some (js "admin@x.com")) (Identity (js "admin@x.com") true)
                Demo.w0) as [Hrun _]; [reflexivity..|].
    exact Hrun.
Defined.

(** C6: when [requireAdmin] resolves the token of a request to an identity
    and continues, [requireSuperAdmin] continues with the next handler if
    the identity is the super-admin, and if it is not it answers 403
    Forbidden and does not call the next handler. *)
Theorem requireSuperAdmin_gate env (store : backend) req next w a w' :
  (∀ k, requireAdmin env store req k w = k (with_identity a req) w') →
  (identity_isSuperAdmin a = true →
   requireSuperAdmin env store req next w = next (with_identity a req) w') ∧
  (identity_isSuperAdmin a = false →
   requireSuperAdmin env store req next w =
     (Normal (Response 403 (JError (js "Forbidden"))), w')).
Proof.
  intros Hpass. unfold requireSuperAdmin. rewrite Hpass. cbn.
  split; by intros ->.
Qed.

Lemma requireSuperAdmin_gate_witness :
  requireSuperAdmin Demo.env Demo.store
    (Demo.req (Some (js "Bearer goftus-admin-token.YWRtaW5AeC5jb20=")) ""
       Demo.no_body)
    (λ _, Demo.ok) Demo.w0
  = Demo.ok Demo.w0 ∧
  requireSuperAdmin Demo.env Demo.store
    (Demo.req (Some (js "goftus-admin-token.Ym9iQHguY29t")) "" Demo.no_body)
    (λ _, Demo.ok) Demo.w0
  = (Normal (Response 403 (JError (js "Forbidden"))),
     after (AdminFind (js "bob@x.com")) (banners Demo.w0) Demo.w0).
Proof.
  split.
  - destruct (requireSuperAdmin_gate Demo.env Demo.store
                (Demo.req (Some (js "Bearer goftus-admin-token.YWRtaW5AeC5jb20="))
                   "" Demo.no_body)
                (λ _, Demo.ok) Demo.w0 (Identity (js "admin@x.com") true) Demo.w0)
      as [Hsuper _]; [intros k; reflexivity|].
    apply Hsuper. reflexivity.
  - destruct (requireSuperAdmin_gate Demo.env Demo.store
                (Demo.req (Some (js "goftus-admin-token.Ym9iQHguY29t")) ""
                   Demo.no_body)
                (λ _, Demo.ok) Demo.w0 (Identity (js "bob@x.com") false)
                (after (AdminFind (js "bob@x.com")) (banners Demo.w0) Demo.w0))
      as [_ Hother]; [intros k; reflexivity|].
    apply Hother. reflexivity.
Defined.

(** C7: when the primary-admin email or password is not configured (in
    particular when neither is), the guards, the login handler and every
    route answer with status 500 and the message "Admin credentials not
    configured", whatever the request carries, and send nothing to the
    store. *)
Theorem unconfigured_fails_fast env (store : backend) compare :
  unconfigured env = true →
  (∀ req next w,
     requireAdmin env store req next w =
       (Normal (Response 500 (JError (js "Admin credentials not configured"))), w)) ∧
  (∀ req next w,
     requireSuperAdmin env store req next w =
       (Normal (Response 500 (JError (js "Admin credentials not configured"))), w)) ∧
  (∀ req w,
     admin_login env store compare req w =
       (Normal (Response 500 (JError (js "Admin credentials not configured"))), w)) ∧
  (∀ r req w,
     app env store compare r req w =
       (Normal (Response 500 (JError (js "Admin credentials not configured"))), w)).
Proof.
  intros Hconf.
  assert (Hlogin : ∀ req w,
            admin_login env store compare req w =
              (Normal (Response 500 (JError (js "Admin credentials not configured"))),
               w)).
  { intros req w. unfold admin_login. by rewrite Hconf. }
  split_and!.
  - intros req next w. by apply requireAdmin_unconfigured.
  - intros req next w. by apply requireAdmin_unconfigured.
  - exact Hlogin.
  - intros [] req w; cbn [app]; [apply Hlogin|by apply requireAdmin_unconfigured..].
Qed.

Lemma unconfigured_fails_fast_witness :
  unconfigured Demo.no_env = true ∧
  app Demo.no_env Demo.store Demo.compare POST_admin_banner_activate
    (Demo.req (Some (js "Bearer goftus-admin-token.YWRtaW5AeC5jb20=")) "2"
       Demo.no_body) Demo.w0
  = (Normal (Response 500 (JError (js "Admin credentials not configured"))), Demo.w0).
Proof.
  split; [reflexivity|].
  destruct (unconfigured_fails_fast Demo.no_env Demo.store Demo.compare eq_refl)
    as (_ & _ & _ & Happ).
  apply Happ.
Defined.

(** ** Login *)

(** The scenario of the specification: the primary admin logs in with the
    configured password, and is refused with a wrong one. *)
Example login_scenario :
  (admin_login Demo.env Demo.store Demo.compare
     (Demo.req None "" (Demo.credentials "admin@x.com" "secret")) Demo.w0).1
  = Normal (Response 200
      (JLogin (js "goftus-admin-token.YWRtaW5AeC5jb20=") (js "admin@x.com") true)) ∧
  (admin_login Demo.env Demo.store Demo.compare
     (Demo.req None "" (Demo.credentials "admin@x.com" "wrong")) Demo.w0).1
  = Normal (Response 401 (JError (js "Invalid credentials"))).
Proof. split; reflexivity. Qed.

(** C8, as stated, fails: with no primary-admin credentials configured, a
    login with the email of a row of [admin_users] and the password that
    matches its hash is answered with status 500, not with a token. *)
Lemma login_unconfigured_secondary :
  filter (λ u, user_email u = js "bob@x.com") (admin_users Demo.w0) = [Demo.bob] ∧
  Demo.compare (js "pw") (js "hash:pw") = true ∧
  (admin_login Demo.no_env Demo.store Demo.compare
     (Demo.req None "" (Demo.credentials "bob@x.com" "pw")) Demo.w0).1
  = Normal (Response 500 (JError (js "Admin credentials not configured"))).
Proof. split_and!; reflexivity. Qed.

(** C8, amended: when the primary-admin credentials are configured, a
    login whose email (or, without an email, username) and password equal
    the configured pair is answered with a token for that email and
    [isSuperAdmin] true; otherwise, when the lookup finds the one row of
    [admin_users] with that email and the password matches its hash, with a
    token for the email of the row and [isSuperAdmin] false; and in every
    other case (lookup miss, lookup failure, hash mismatch) with 401
    "Invalid credentials". *)
Theorem admin_login_cases env (store : backend) compare req w :
  let candidate := js_or (body_email (body req)) (body_username (body req)) in
  let password := body_password (body req) in
  unconfigured env = false →
  (candidate = ADMIN_EMAIL env → password = ADMIN_PASSWORD env →
   ∃ e, candidate = Some e ∧
     admin_login env store compare req w =
       (Normal (Response 200 (JLogin (encodeAdminToken env e) e true)), w)) ∧
  (∀ u,
     ¬ (candidate = ADMIN_EMAIL env ∧ password = ADMIN_PASSWORD env) →
     outage store (length (queries w)) = None →
     filter (λ u, user_email u = filter_text candidate) (admin_users w) = [u] →
     compare (js_or_text password []) (js_or_text (user_password_hash u) []) = true →
     ∃ w',
       admin_login env store compare req w =
         (Normal (Response 200
            (JLogin (encodeAdminToken env (user_email u)) (user_email u) false)),
          w')) ∧
  (∀ r w',
     ¬ (candidate = ADMIN_EMAIL env ∧ password = ADMIN_PASSWORD env) →
     admin_find store candidate w = (Normal r, w') →
     (∀ u, r = Data (Some u) →
           compare (js_or_text password [])
             (js_or_text (user_password_hash u) []) = false) →
     admin_login env store compare req w =
       (Normal (Response 401 (JError (js "Invalid credentials"))), w')) ∧
  (¬ (candidate = ADMIN_EMAIL env ∧ password = ADMIN_PASSWORD env) →
   (∀ u, u ∈ admin_users w → user_email u ≠ filter_text candidate) →
   ∃ w',
     admin_login env store compare req w =
       (Normal (Response 401 (JError (js "Invalid credentials"))), w')).
Proof.
  intros candidate password Hconf.
  assert (Hother : ¬ (candidate = ADMIN_EMAIL env ∧ password = ADMIN_PASSWORD env) →
            admin_login env store compare req w =
              (r ← admin_find store candidate;
               match r with
               | Data (Some data) =>
                   if compare (js_or_text password [])
                        (js_or_text (user_password_hash data) [])
                   then mret (Response 200
                          (JLogin (encodeAdminToken env (user_email data))
                             (user_email data) false))
                   else mret (Response 401 (JError (js "Invalid credentials")))
               | _ => mret (Response 401 (JError (js "Invalid credentials")))
               end) w).
  { intros Hprimary. unfold admin_login. rewrite Hconf. fold candidate password.
    destruct (bool_decide (candidate = ADMIN_EMAIL env)
              && bool_decide (password = ADMIN_PASSWORD env)) eqn:Hmatch; [|done].
    apply andb_true_iff in Hmatch as [?%bool_decide_eq_true ?%bool_decide_eq_true].
    by destruct Hprimary. }
  assert (Hfail : ∀ r w',
            ¬ (candidate = ADMIN_EMAIL env ∧ password = ADMIN_PASSWORD env) →
            admin_find store candidate w = (Normal r, w') →
            (∀ u, r = Data (Some u) →
                  compare (js_or_text password [])
                    (js_or_text (user_password_hash u) []) = false) →
            admin_login env store compare req w =
              (Normal (Response 401 (JError (js "Invalid credentials"))), w')).
  { intros r w' Hprimary Hfind Hhash. rewrite Hother by done.
    rewrite (bind_run _ _ _ _ _ Hfind).
    destruct r as [[u|]|]; [|done..]. by rewrite (Hhash u). }
  split_and!.
  - intros Hemail Hpassword.
    assert (∃ e, candidate = Some e) as [e He].
    { rewrite Hemail. unfold unconfigured in Hconf.
      destruct (ADMIN_EMAIL env); [by eexists|done]. }
    exists e. split; [done|].
    unfold admin_login. rewrite Hconf. fold candidate password.
    rewrite !bool_decide_eq_true_2 by done. cbn [andb]. by rewrite He.
  - intros u Hprimary Hup Hrow Hhash. eexists. rewrite Hother by done.
    rewrite (bind_run _ _ _ _ _ (admin_find_hit store candidate w u Hup Hrow)).
    by rewrite Hhash.
  - exact Hfail.
  - intros Hprimary Hrows.
    destruct (admin_find_run store candidate w) as (r & Hfind & Hrow).
    eexists. apply (Hfail r _ Hprimary Hfind).
    intros u ->. destruct (Hrow u eq_refl) as [Hin Hemail].
    by destruct (Hrows u Hin).
Qed.

Lemma admin_login_cases_witness :
  unconfigured Demo.env = false ∧
  (∃ e,
     js_or (Some (js "admin@x.com")) None = Some e ∧
     admin_login Demo.env Demo.store Demo.compare
       (Demo.req None "" (Demo.credentials "admin@x.com" "secret")) Demo.w0
     = (Normal (Response 200 (JLogin (encodeAdminToken Demo.env e) e true)),
        Demo.w0)) ∧
  (∃ w',
     admin_login Demo.env Demo.store Demo.compare
       (Demo.req None "" (Demo.credentials "bob@x.com" "pw")) Demo.w0
     = (Normal (Response 200
          (JLogin (encodeAdminToken Demo.env (js "bob@x.com")) (js "bob@x.com") false)),
        w')) ∧
  (∃ w',
     admin_login Demo.env Demo.store Demo.compare
       (Demo.req None "" (Demo.credentials "eve@x.com" "pw")) Demo.w0
     = (Normal (Response 401 (JError (js "Invalid credentials"))), w')).
Proof.
  split; [reflexivity|]. split_and!.
  - destruct (admin_login_cases Demo.env Demo.store Demo.compare
                (Demo.req None "" (Demo.credentials "admin@x.com" "secret"))
                Demo.w0 eq_refl) as (Hprimary & _).
    apply Hprimary; reflexivity.
  - destruct (admin_login_cases Demo.env Demo.store Demo.compare
                (Demo.req None "" (Demo.credentials "bob@x.com" "pw"))
                Demo.w0 eq_refl) as (_ & Hsecondary & _).
    apply (Hsecondary Demo.bob); try reflexivity.
    intros [Hemail _]. discriminate Hemail.
  - destruct (admin_login_cases Demo.env Demo.store Demo.compare
                (Demo.req None "" (Demo.credentials "eve@x.com" "pw"))
                Demo.w0 eq_refl) as (_ & _ & _ & Hmiss).
    apply Hmiss.
    + intros [Hemail _]. discriminate Hemail.
    + intros u Hu Hemail. apply list_elem_of_singleton in Hu as ->.
      discriminate Hemail.
Defined.

(** * Further properties *)

(** ** Tokens *)

Lemma decodeAdminEmail_encodeAdminToken env (e : jsstring) :
  isWellFormed e = true →
  decodeAdminEmail env (encodeAdminToken env e) = Normal (Some e).
Proof.
  intros Hwf. destruct (from_utf8_wellformed e Hwf) as [Hbytes Hback].
  unfold decodeAdminEmail, decodeAdminEmail_with.
  rewrite encodeAdminToken_split, startsWith_app. cbn [negb].
  rewrite <- token_prefix_length, slice_app.
  cbn [mbind completion_bind try_catch].
  by rewrite from_base64_toString_base64, Hback.
Qed.

(** X1: two well-formed emails with the same token are the same email:
    no two admins share a token. *)
Theorem encodeAdminToken_inj env (e1 e2 : jsstring) :
  isWellFormed e1 = true → isWellFormed e2 = true →
  encodeAdminToken env e1 = encodeAdminToken env e2 → e1 = e2.
Proof.
  intros H1 H2 Heq.
  pose proof (decodeAdminEmail_encodeAdminToken env e1 H1) as Hd1.
  pose proof (decodeAdminEmail_encodeAdminToken env e2 H2) as Hd2.
  rewrite Heq in Hd1. congruence.
Qed.

Lemma encodeAdminToken_inj_witness :
  isWellFormed (js "a@x.com") = true ∧
  (encodeAdminToken Demo.env (js "a@x.com") = encodeAdminToken Demo.env (js "a@x.com") →
   js "a@x.com" = js "a@x.com").
Proof.
  split; [reflexivity|].
  apply (encodeAdminToken_inj Demo.env); reflexivity.
Defined.

Lemma encodeAdminToken_not_empty env (e : jsstring) :
  is_empty (encodeAdminToken env e) = false.
Proof.
  unfold encodeAdminToken. destruct (ADMIN_TOKEN env); done.
Qed.

Lemma bearer_token_Bearer (req : request) (token : jsstring) :
  authorization req = Some (js "Bearer " ++ token) → bearer_token req = token.
Proof.
  intros Hauth. unfold bearer_token. rewrite Hauth. cbv zeta. cbn [default from_option id].
  rewrite startsWith_app. apply (slice_app (js "Bearer ")).
Qed.

Lemma bearer_token_raw (req : request) (token : jsstring) :
  authorization req = Some token → startsWith token (js "Bearer ") = false →
  bearer_token req = token.
Proof.
  intros Hauth Hraw. unfold bearer_token. rewrite Hauth. cbv zeta. cbn [default from_option id].
  by rewrite Hraw.
Qed.

Lemma configured_email env :
  unconfigured env = false →
  ∃ c s, ADMIN_EMAIL env = Some (c :: s).
Proof.
  unfold unconfigured. intros [H _]%orb_false_iff. by apply truthy_Some.
Qed.

(** The guard on a request that carries the token of an email. *)
Lemma requireAdmin_encoded env (store : backend) req next w (e : jsstring) :
  unconfigured env = false →
  isWellFormed e = true →
  bearer_token req = encodeAdminToken env e →
  requireAdmin env store req next w =
    match findAdminByEmail env store (Some e) w with
    | (Normal (Some a), w') => next (with_identity a req) w'
    | (Normal None, w') => (Normal (Response 401 (JError (js "Unauthorized"))), w')
    | (Throw err, w') => (Throw err, w')
    end.
Proof.
  intros Hconf Hwf Htoken. apply requireAdmin_token; [done|..].
  - rewrite Htoken. apply encodeAdminToken_not_empty.
  - rewrite Htoken. by apply decodeAdminEmail_encodeAdminToken.
Qed.

(** X2: the token the login of the primary admin answers with is accepted
    by [requireAdmin], sent as [Bearer <token>] or raw (when the token
    itself does not start with "Bearer "), in any world and with any store,
    also one that fails: the guard continues with the email of the primary
    admin and the flag [true], and leaves the world as it is. *)
Theorem login_token_accepted env (store : backend) compare req w (e : jsstring) :
  unconfigured env = false →
  ADMIN_EMAIL env = Some e →
  isWellFormed e = true →
  js_or (body_email (body req)) (body_username (body req)) = Some e →
  body_password (body req) = ADMIN_PASSWORD env →
  admin_login env store compare req w =
    (Normal (Response 200 (JLogin (encodeAdminToken env e) e true)), w) ∧
  ∀ store' req' next w',
    (authorization req' = Some (js "Bearer " ++ encodeAdminToken env e) ∨
     authorization req' = Some (encodeAdminToken env e) ∧
     startsWith (encodeAdminToken env e) (js "Bearer ") = false) →
    requireAdmin env store' req' next w' =
      next (with_identity (Identity e true) req') w'.
Proof.
  intros Hconf Hprimary Hwf Hcandidate Hpassword. split.
  - unfold admin_login. rewrite Hconf, Hcandidate, Hprimary, Hpassword.
    by rewrite !bool_decide_eq_true_2.
  - intros store' req' next w' Hauth.
    assert (Htoken : bearer_token req' = encodeAdminToken env e).
    { destruct Hauth as [Hauth|[Hauth Hraw]];
        [by apply bearer_token_Bearer|by apply bearer_token_raw]. }
    rewrite (requireAdmin_encoded env store' req' next w' e) by done.
    rewrite findAdminByEmail_primary; [done| |done].
    destruct (configured_email env Hconf) as (c & s & Hc).
    rewrite Hprimary in Hc. by injection Hc as ->.
Qed.

Lemma login_token_accepted_witness :
  admin_login Demo.env Demo.store Demo.compare
    (Demo.req None "" (Demo.credentials "admin@x.com" "secret")) Demo.w0
  = (Normal (Response 200
       (JLogin (encodeAdminToken Demo.env (js "admin@x.com")) (js "admin@x.com") true)),
     Demo.w0).
Proof.
  apply (login_token_accepted Demo.env Demo.store Demo.compare
           (Demo.req None "" (Demo.credentials "admin@x.com" "secret")) Demo.w0
           (js "admin@x.com")); reflexivity.
Defined.

(** X3: the login of a secondary admin answers with the token of the email
    of its row, and [requireAdmin] accepts that token, with the flag
    [false], whenever the email is well formed, not empty and not the
    primary admin's, the lookup is served and finds that one row. *)
Theorem secondary_token_accepted env (store : backend) compare req w u :
  let candidate := js_or (body_email (body req)) (body_username (body req)) in
  let password := body_password (body req) in
  unconfigured env = false →
  ¬ (candidate = ADMIN_EMAIL env ∧ password = ADMIN_PASSWORD env) →
  outage store (length (queries w)) = None →
  filter (λ u, user_email u = filter_text candidate) (admin_users w) = [u] →
  compare (js_or_text password []) (js_or_text (user_password_hash u) []) = true →
  admin_login env store compare req w =
    (Normal (Response 200
       (JLogin (encodeAdminToken env (user_email u)) (user_email u) false)),
     after (AdminFind (filter_text candidate)) (banners w) w) ∧
  ∀ req' next w',
    authorization req' = Some (js "Bearer " ++ encodeAdminToken env (user_email u)) →
    isWellFormed (user_email u) = true →
    is_empty (user_email u) = false →
    ADMIN_EMAIL env ≠ Some (user_email u) →
    outage store (length (queries w')) = None →
    filter (λ v, user_email v = user_email u) (admin_users w') = [u] →
    requireAdmin env store req' next w' =
      next (with_identity (Identity (user_email u) false) req')
        (after (AdminFind (user_email u)) (banners w') w').
Proof.
  intros candidate password Hconf Hprimary Hup Hrow Hhash. split.
  - unfold admin_login. rewrite Hconf. fold candidate password.
    destruct (bool_decide (candidate = ADMIN_EMAIL env)
              && bool_decide (password = ADMIN_PASSWORD env)) eqn:Hmatch.
    { apply andb_true_iff in Hmatch as [?%bool_decide_eq_true ?%bool_decide_eq_true].
      by destruct Hprimary. }
    rewrite (bind_run _ _ _ _ _ (admin_find_hit store candidate w u Hup Hrow)).
    by rewrite Hhash.
  - intros req' next w' Hauth Hwf Hne Hother Hup' Hrow'.
    rewrite (requireAdmin_encoded env store req' next w' (user_email u));
      [|done..|by apply bearer_token_Bearer].
    by rewrite (findAdminByEmail_secondary env store (user_email u) w' u).
Qed.

Lemma secondary_token_accepted_witness :
  requireAdmin Demo.env Demo.store
    (Demo.req (Some (js "Bearer " ++ encodeAdminToken Demo.env (js "bob@x.com"))) ""
       Demo.no_body)
    (λ _, Demo.ok) Demo.w0
  = Demo.ok (after (AdminFind (js "bob@x.com")) (banners Demo.w0) Demo.w0).
Proof.
  assert (Hother : ¬ (Some (js "bob@x.com") = ADMIN_EMAIL Demo.env
                      ∧ Some (js "pw") = ADMIN_PASSWORD Demo.env)).
  { intros [Hemail _]. discriminate Hemail. }
  destruct (secondary_token_accepted Demo.env Demo.store Demo.compare
              (Demo.req None "" (Demo.credentials "bob@x.com" "pw")) Demo.w0 Demo.bob
              eq_refl Hother eq_refl eq_refl eq_refl)
    as [_ Hguard].
  apply (Hguard _ (λ _, Demo.ok) Demo.w0); try reflexivity.
  intros Heq. discriminate Heq.
Defined.

(** X4: a row of [admin_users] that carries the email of the primary
    admin logs in with its own password and is answered
    [isSuperAdmin: false], but the token it is given passes
    [requireSuperAdmin]: the privilege of a token is decided by its email
    alone. *)
Theorem shadow_admin_token env (store : backend) compare req w u (e : jsstring) :
  let candidate := js_or (body_email (body req)) (body_username (body req)) in
  let password := body_password (body req) in
  unconfigured env = false →
  ADMIN_EMAIL env = Some e →
  isWellFormed e = true →
  user_email u = e →
  password ≠ ADMIN_PASSWORD env →
  outage store (length (queries w)) = None →
  filter (λ u, user_email u = filter_text candidate) (admin_users w) = [u] →
  compare (js_or_text password []) (js_or_text (user_password_hash u) []) = true →
  ∃ token w1,
    admin_login env store compare req w =
      (Normal (Response 200 (JLogin token e false)), w1) ∧
    ∀ store' req' next w',
      authorization req' = Some (js "Bearer " ++ token) →
      requireSuperAdmin env store' req' next w' =
        next (with_identity (Identity e true) req') w'.
Proof.
  intros candidate password Hconf Hprimary Hwf Hu Hpassword Hup Hrow Hhash.
  exists (encodeAdminToken env e), (after (AdminFind (filter_text candidate)) (banners w) w).
  split.
  - unfold admin_login. rewrite Hconf. fold candidate password.
    rewrite (bool_decide_eq_false_2 (password = ADMIN_PASSWORD env)) by done.
    rewrite andb_false_r.
    rewrite (bind_run _ _ _ _ _ (admin_find_hit store candidate w u Hup Hrow)).
    by rewrite Hhash, Hu.
  - intros store' req' next w' Hauth. unfold requireSuperAdmin.
    rewrite (requireAdmin_encoded env store' req' _ w' e);
      [|done..|by apply bearer_token_Bearer].
    rewrite findAdminByEmail_primary; [done| |done].
    destruct (configured_email env Hconf) as (c & s & Hc).
    rewrite Hprimary in Hc. by injection Hc as ->.
Qed.

Lemma shadow_admin_token_witness :
  ∃ token w1,
    admin_login Demo.env Demo.store Demo.compare
      (Demo.req None "" (Demo.credentials "admin@x.com" "mine")) shadow_world
    = (Normal (Response 200 (JLogin token (js "admin@x.com") false)), w1) ∧
    requireSuperAdmin Demo.env Demo.store
      (Demo.req (Some (js "Bearer " ++ token)) "" Demo.no_body) (λ _, Demo.ok) Demo.w0
    = Demo.ok Demo.w0.
Proof.
  assert (Hpassword : Some (js "mine") ≠ ADMIN_PASSWORD Demo.env).
  { intros Heq. discriminate Heq. }
  destruct (shadow_admin_token Demo.env Demo.store Demo.compare
              (Demo.req None "" (Demo.credentials "admin@x.com" "mine")) shadow_world
              (AdminUser (js "u9") (js "admin@x.com") (Some (js "hash:mine")))
              (js "admin@x.com") eq_refl eq_refl eq_refl eq_refl Hpassword
              eq_refl eq_refl eq_refl)
    as (token & w1 & Hlogin & Hguard).
  exists token, w1. split; [exact Hlogin|].
  apply (Hguard Demo.store _ (λ _, Demo.ok) Demo.w0). reflexivity.
Defined.

(** ** What the guards do to a request *)

Lemma decodeAdminEmail_returns env (token : jsstring) :
  ∃ email, decodeAdminEmail env token = Normal email.
Proof.
  unfold decodeAdminEmail, decodeAdminEmail_with.
  destruct (startsWith token _); cbn; by eexists.
Qed.

Lemma findAdminByEmail_frame env (store : backend) (email : option jsstring) w :
  ∃ r w', findAdminByEmail env store email w = (Normal r, w') ∧ guard_frame w w' ∧
    (∀ a, r = Some a →
       (identity_isSuperAdmin a = true ∧ Some (identity_email a) = ADMIN_EMAIL env
        ∧ w' = w) ∨
       (identity_isSuperAdmin a = false
        ∧ ∃ u, u ∈ admin_users w ∧ user_email u = identity_email a)).
Proof.
  assert (Hsame : guard_frame w w) by (by split_and!; [..|left]).
  destruct email as [[|c s]|]; [by eexists _, _| |by eexists _, _].
  unfold findAdminByEmail.
  destruct (negb (falsy (ADMIN_EMAIL env))
            && bool_decide (Some (c :: s) = ADMIN_EMAIL env)) eqn:Hprimary.
  - apply andb_true_iff in Hprimary as [_ Heq%bool_decide_eq_true].
    eexists _, _. split_and!; [done..|].
    intros a [= <-]. left. by rewrite <- Heq.
  - destruct (admin_find_run store (Some (c :: s)) w) as (r & Hfind & Hrow).
    rewrite (bind_run _ _ _ _ _ Hfind).
    assert (Hframe : guard_frame w (after (AdminFind (filter_text (Some (c :: s))))
                                      (banners w) w)).
    { split_and!; [done..|]. right. by eexists. }
    destruct r as [[u|]|]; eexists _, _; (split_and!; [done..|]); [|done..].
    intros a [= <-]. right. split; [done|].
    destruct (Hrow u eq_refl) as [Hin _]. by exists u.
Qed.

Lemma requireAdmin_cases env (store : backend) req w :
  (∃ res w',
     (∀ next, requireAdmin env store req next w = (Normal res, w')) ∧
     (status res = 500 ∧ w' = w ∨ status res = 401) ∧
     guard_frame w w') ∨
  (∃ a w',
     (∀ next, requireAdmin env store req next w = next (with_identity a req) w') ∧
     guard_frame w w' ∧
     ((identity_isSuperAdmin a = true ∧ Some (identity_email a) = ADMIN_EMAIL env
       ∧ w' = w) ∨
      (identity_isSuperAdmin a = false
       ∧ ∃ u, u ∈ admin_users w ∧ user_email u = identity_email a))).
Proof.
  assert (Hsame : guard_frame w w) by (by split_and!; [..|left]).
  destruct (unconfigured env) eqn:Hconf.
  { left. eexists _, w. split; [|split].
    - intros next. by apply requireAdmin_unconfigured.
    - by left.
    - done. }
  destruct (is_empty (bearer_token req)) eqn:Htoken.
  { left. eexists _, w. split; [|split].
    - intros next. by apply requireAdmin_no_token.
    - by right.
    - done. }
  destruct (decodeAdminEmail_returns env (bearer_token req)) as [email Hdecode].
  destruct (findAdminByEmail_frame env store email w) as (r & w' & Hfind & Hframe & Hid).
  destruct r as [a|].
  - right. exists a, w'. split_and!; [|done|by apply Hid].
    intros next. rewrite (requireAdmin_token env store req next w email) by done.
    by rewrite Hfind.
  - left. eexists _, w'. split; [|split].
    + intros next. rewrite (requireAdmin_token env store req next w email) by done.
      by rewrite Hfind.
    + by right.
    + done.
Qed.

(** X5: whatever the request, [requireAdmin] either answers by itself,
    with status 500 (credentials not configured, nothing sent to the store)
    or 401, the same answer whatever the next handler is, or it calls the
    next handler with the identity set on the request: the primary admin,
    resolved without any request to the store, or the email of a row of
    [admin_users]. In both cases it leaves the tables and the console as
    they are and has sent at most one request, a lookup in
    [admin_users]. *)
Theorem requireAdmin_outcomes env (store : backend) req w :
  (∃ res w',
     (∀ next, requireAdmin env store req next w = (Normal res, w')) ∧
     (status res = 500 ∧ w' = w ∨ status res = 401) ∧
     guard_frame w w') ∨
  (∃ a w',
     (∀ next, requireAdmin env store req next w = next (with_identity a req) w') ∧
     guard_frame w w' ∧
     ((identity_isSuperAdmin a = true ∧ Some (identity_email a) = ADMIN_EMAIL env
       ∧ w' = w) ∨
      (identity_isSuperAdmin a = false
       ∧ ∃ u, u ∈ admin_users w ∧ user_email u = identity_email a))).
Proof. apply requireAdmin_cases. Qed.

(** X6: whatever the request, [requireSuperAdmin] either answers by
    itself with status 500, 401 or 403, or it calls the next handler as the
    primary admin and in the world it started in: no secondary admin gets
    through, and getting through costs no request to the store. *)
Theorem requireSuperAdmin_outcomes env (store : backend) req w :
  (∃ res w',
     (∀ next, requireSuperAdmin env store req next w = (Normal res, w')) ∧
     (status res = 500 ∨ status res = 401 ∨ status res = 403) ∧
     guard_frame w w') ∨
  (∃ e,
     ADMIN_EMAIL env = Some e ∧
     ∀ next, requireSuperAdmin env store req next w =
               next (with_identity (Identity e true) req) w).
Proof.
  destruct (requireAdmin_cases env store req w)
    as [(res & w' & Hrun & Hstatus & Hframe)
       |(a & w' & Hrun & Hframe & [(Hs & He & ->)|(Hs & _)])].
  - left. exists res, w'. split; [|split; [|done]].
    + intros next. unfold requireSuperAdmin. apply Hrun.
    + destruct Hstatus as [[? _]|?]; auto.
  - right. exists (identity_email a). split; [done|].
    intros next. unfold requireSuperAdmin. rewrite Hrun. cbn. rewrite Hs. cbn.
    by destruct a as [e s]; cbn in *; subst.
  - left. eexists _, w'. split; [|split; [|done]].
    + intros next. unfold requireSuperAdmin. rewrite Hrun. cbn. by rewrite Hs.
    + auto.
Qed.

(** X7: while the store fails, a token whose email is not the primary
    admin's is answered 401, whether or not [admin_users] has a row for it;
    the banners are left as they are. *)
Theorem outage_locks_out_secondary env (store : backend) req next w e :
  unconfigured env = false →
  decodeAdminEmail env (bearer_token req) = Normal (Some e) →
  ADMIN_EMAIL env ≠ Some e →
  is_Some (outage store (length (queries w))) →
  ∃ w', requireAdmin env store req next w =
          (Normal (Response 401 (JError (js "Unauthorized"))), w') ∧
        banners w' = banners w.
Proof.
  intros Hconf Hdecode Hother [message Hdown].
  destruct (is_empty (bearer_token req)) eqn:Htoken.
  { exists w. by rewrite requireAdmin_no_token. }
  rewrite (requireAdmin_token env store req next w (Some e)) by done.
  destruct e as [|c s]; [by eexists|].
  unfold findAdminByEmail.
  rewrite (bool_decide_eq_false_2 (Some (c :: s) = ADMIN_EMAIL env)) by done.
  rewrite andb_false_r. unfold admin_find.
  rewrite (bind_run _ _ _ _ _ (supabase_down store _ _ w message Hdown)).
  by eexists.
Qed.

Lemma outage_locks_out_secondary_witness :
  ∃ w', requireAdmin Demo.env (Demo.store_down 0)
          (Demo.req (Some (js "goftus-admin-token.Ym9iQHguY29t")) "" Demo.no_body)
          (λ _, Demo.ok) Demo.w0
        = (Normal (Response 401 (JError (js "Unauthorized"))), w') ∧
        banners w' = banners Demo.w0.
Proof.
  apply (outage_locks_out_secondary Demo.env (Demo.store_down 0) _ _ Demo.w0
           (js "bob@x.com")); try reflexivity.
  - intros Heq. discriminate Heq.
  - by eexists.
Defined.

(** ** The other banner handlers *)

Lemma no_new_active_at_most_one (rows rows' : gmap jsstring banner) :
  no_new_active rows rows' → at_most_one_active rows → at_most_one_active rows'.
Proof.
  intros Hnew Hone i j ri rj Hi Hj Hai Haj.
  destruct (Hnew i ri Hi Hai) as (ri0 & Hi0 & Hai0).
  destruct (Hnew j rj Hj Haj) as (rj0 & Hj0 & Haj0).
  by eapply Hone.
Qed.

Lemma all_inactive_at_most_one (rows : gmap jsstring banner) :
  (∀ k r, rows !! k = Some r → is_active r = false) → at_most_one_active rows.
Proof. intros Hnone i j ri rj Hi Hj Hai Haj. apply Hnone in Hi. congruence. Qed.

Lemma no_new_active_refl (rows : gmap jsstring banner) : no_new_active rows rows.
Proof. intros k r Hr Ha. by exists r. Qed.

Lemma no_new_active_insert (rows : gmap jsstring banner) (id : jsstring) (row : banner) :
  (is_active row = true → ∃ r, rows !! id = Some r ∧ is_active r = true) →
  no_new_active rows (<[id := row]> rows).
Proof.
  intros Hrow k r'. destruct (decide (k = id)) as [->|Hk].
  - rewrite lookup_insert_eq. intros [= <-]. apply Hrow.
  - rewrite lookup_insert_ne by done. intros Hr Ha. by exists r'.
Qed.

Lemma demote_others_all_inactive (id : jsstring) (t : N) (rows : gmap jsstring banner) :
  rows !! id = None →
  ∀ k r, demote_others id t rows !! k = Some r → is_active r = false.
Proof.
  intros Hmiss k r Hr. destruct (decide (k = id)) as [->|Hk].
  - rewrite demote_others_target in Hr. congruence.
  - by eapply demote_others_inactive.
Qed.

(** What the deactivate handler does: one update of the target row. *)
Lemma banners_deactivate_run (store : backend) (req : request) w :
  banners_deactivate store req w =
    let '(r, w') := banner_update store (params_id req) deactivate_payload w in
    match r with
    | Normal (Data data) => (Normal (Response 200 (JBanner data.1 data.2)), w')
    | Normal (Failed message) => (Normal (Response 500 (JError message)), w')
    | Throw err => (Throw err, w')
    end.
Proof.
  unfold banners_deactivate, mbind, handler_bind. fold deactivate_payload.
  destruct (banner_update store (params_id req) deactivate_payload w)
    as [[[data|message]|err] w']; done.
Qed.

Lemma banner_update_failed (store : backend) (id : jsstring) (p : banner_payload)
    w message w' :
  banner_update store id p w = (Normal (Failed message), w') →
  w' = after (BannerUpdate id p) (banners w) w.
Proof.
  unfold banner_update, supabase.
  destruct (outage store _); [by intros [= _ <-]|].
  destruct (empty_payload p); [by intros [= _ <-]|].
  destruct (banners w !! id); [done|by intros [= _ <-]].
Qed.

Lemma banner_update_data (store : backend) (id : jsstring) (p : banner_payload)
    w data w' :
  banner_update store id p w = (Normal (Data data), w') →
  ∃ r, banners w !! id = Some r ∧
       data = (id, apply_payload p (now store (length (queries w))) r) ∧
       w' = after (BannerUpdate id p) (<[id := data.2]> (banners w)) w.
Proof.
  unfold banner_update, supabase.
  destruct (outage store _); [done|].
  destruct (empty_payload p); [done|].
  destruct (banners w !! id) as [r|]; [|done].
  intros [= <- <-]. by exists r.
Qed.

(** X8: deactivating a banner that exists, with the update served,
    answers 200 with the row, now inactive; it sends one request, no sweep,
    and changes no other row; at most one banner is active afterwards if
    that was so before, and none is if the target was the only active
    one. *)
Theorem deactivate_target_only (store : backend) (req : request) w b :
  banners w !! params_id req = Some b →
  outage store (length (queries w)) = None →
  let row := apply_payload deactivate_payload (now store (length (queries w))) b in
  ∃ w',
    banners_deactivate store req w =
      (Normal (Response 200 (JBanner (params_id req) row)), w') ∧
    is_active row = false ∧
    banners w' = <[params_id req := row]> (banners w) ∧
    sent w w' = [BannerUpdate (params_id req) deactivate_payload] ∧
    (at_most_one_active (banners w) → at_most_one_active (banners w')) ∧
    (sole_active (params_id req) (banners w) →
     ∀ k r, banners w' !! k = Some r → is_active r = false).
Proof.
  intros Hb Hup row. eexists. split; [|split_and!].
  - rewrite banners_deactivate_run.
    by rewrite (banner_update_hit store _ deactivate_payload w b Hup eq_refl Hb).
  - done.
  - done.
  - apply sent_after1.
  - apply no_new_active_at_most_one. cbn. by apply no_new_active_insert.
  - intros Hsole k r. cbn. destruct (decide (k = params_id req)) as [->|Hk].
    + rewrite lookup_insert_eq. by intros [= <-].
    + rewrite lookup_insert_ne by done. intros Hr.
      rewrite (Hsole k r Hr). by apply bool_decide_eq_false_2.
Qed.

Lemma deactivate_target_only_witness :
  ∃ w',
    banners_deactivate Demo.store (Demo.req None "1" Demo.no_body) Demo.w0 =
      (Normal (Response 200
         (JBanner (js "1") (apply_payload deactivate_payload 100 Demo.banner1))), w') ∧
    banners w' = <[js "1" := apply_payload deactivate_payload 100 Demo.banner1]>
                   (banners Demo.w0).
Proof.
  destruct (deactivate_target_only Demo.store (Demo.req None "1" Demo.no_body)
              Demo.w0 Demo.banner1 eq_refl eq_refl)
    as (w' & Hrun & _ & Hrows & _).
  by exists w'.
Defined.

Lemma banners_update_plain (store : backend) (req : request) w :
  body_is_active (body req) ≠ Some true →
  banners_update store req w =
    let '(r, w') := banner_update store (params_id req) (update_payload (body req)) w in
    match r with
    | Normal (Data data) => (Normal (Response 200 (JBanner data.1 data.2)), w')
    | Normal (Failed message) => (Normal (Response 500 (JError message)), w')
    | Throw err => (Throw err, w')
    end.
Proof.
  intros Hactive. unfold banners_update. cbn [set_is_active update_payload].
  rewrite bool_decide_eq_false_2 by done.
  unfold mbind, handler_bind, mret, handler_ret.
  destruct (banner_update store (params_id req) _ w) as [[[data|message]|err] w']; done.
Qed.

Lemma banner_insert_failed (store : backend) (p : banner_payload) w message w' :
  banner_insert store p w = (Normal (Failed message), w') →
  w' = after (BannerInsert p) (banners w) w.
Proof.
  unfold banner_insert, supabase.
  destruct (outage store _); [by intros [= _ <-]|].
  destruct (set_product p), (set_message p); try by intros [= _ <-].
  destruct (banners w !! _); [by intros [= _ <-]|done].
Qed.

Lemma banner_insert_data (store : backend) (p : banner_payload) w data w' :
  banner_insert store p w = (Normal (Data data), w') →
  banners w !! data.1 = None ∧
  data.1 = gen_random_uuid store (length (queries w)) ∧
  is_active data.2 = default false (set_is_active p) ∧
  w' = after (BannerInsert p) (<[data.1 := data.2]> (banners w)) w.
Proof.
  unfold banner_insert, supabase.
  destruct (outage store _); [done|].
  destruct (set_product p), (set_message p); try done.
  destruct (banners w !! _) eqn:Hfresh; [done|].
  by intros [= <- <-].
Qed.

(** X9: a write that is refused leaves the table of banners as it was:
    when the create handler, the deactivate handler, or the update handler
    with a body that does not set [is_active] to [true] answers with a
    status other than 200, no row has changed. *)
Theorem refused_write_keeps_table (store : backend) (req : request) w res w' :
  status res ≠ 200 →
  (banners_create store req w = (Normal res, w') → banners w' = banners w) ∧
  (banners_deactivate store req w = (Normal res, w') → banners w' = banners w) ∧
  (body_is_active (body req) ≠ Some true →
   banners_update store req w = (Normal res, w') → banners w' = banners w).
Proof.
  intros Hstatus. split_and!.
  - unfold banners_create.
    destruct (falsy _ || falsy _); [by intros [= _ <-]|].
    unfold mbind at 1, handler_bind at 1.
    destruct (banner_insert store _ w) as [[[data|message]|err] w1] eqn:Hinsert; [| |done].
    + destruct (default false _).
      * destruct (banner_demote_others_run store data.1 w1) as (r & rows & Hsweep & _).
        rewrite (bind_run _ _ _ _ _ Hsweep). intros [= <- _]. done.
      * cbn. intros [= <- _]. done.
    + apply banner_insert_failed in Hinsert as ->. by intros [= _ <-].
  - rewrite banners_deactivate_run.
    destruct (banner_update store _ _ w) as [[[data|message]|err] w1] eqn:Hupdate; [| |done].
    + intros [= <- _]. done.
    + apply banner_update_failed in Hupdate as ->. by intros [= _ <-].
  - intros Hactive. rewrite banners_update_plain by done.
    destruct (banner_update store _ _ w) as [[[data|message]|err] w1] eqn:Hupdate; [| |done].
    + intros [= <- _]. done.
    + apply banner_update_failed in Hupdate as ->. by intros [= _ <-].
Qed.

Lemma refused_write_keeps_table_witness :
  banners (banners_deactivate Demo.store (Demo.req None "7" Demo.no_body) Demo.w0).2
  = banners Demo.w0.
Proof.
  destruct (refused_write_keeps_table Demo.store (Demo.req None "7" Demo.no_body)
              Demo.w0 (Response 500 (JError no_single_row))
              (banners_deactivate Demo.store (Demo.req None "7" Demo.no_body) Demo.w0).2)
    as (_ & Hdeactivate & _).
  { intros Heq. discriminate Heq. }
  apply Hdeactivate. reflexivity.
Defined.

(** X10: [PUT] with [is_active: true] on a banner that exists, sweep and
    update served, answers 200 with the updated row and leaves it the only
    active banner; no row is added or removed. *)
Theorem update_sole_active (store : backend) (req : request) w b :
  body_is_active (body req) = Some true →
  banners w !! params_id req = Some b →
  outage store (length (queries w)) = None →
  outage store (S (length (queries w))) = None →
  let row := apply_payload (update_payload (body req))
               (now store (S (length (queries w)))) b in
  ∃ w',
    banners_update store req w =
      (Normal (Response 200 (JBanner (params_id req) row)), w') ∧
    banners w' !! params_id req = Some row ∧
    is_active row = true ∧
    sole_active (params_id req) (banners w') ∧
    dom (banners w') = dom (banners w).
Proof.
  intros Hactive Hb Hsweep Hwrite row.
  set (id := params_id req) in *. set (n := length (queries w)) in *.
  set (w1 := after (BannerDemoteOthers id) (demote_others id (now store n) (banners w)) w).
  assert (Hb1 : banners w1 !! id = Some b) by (cbn; by rewrite demote_others_target).
  assert (Hn1 : length (queries w1) = S n) by apply after_length.
  assert (Hrow : is_active row = true) by (unfold row; cbn; by rewrite Hactive).
  pose proof (banner_update_hit store id (update_payload (body req)) w1 b
                ltac:(by rewrite Hn1) (empty_payload_active _ Hactive) Hb1) as Hupdate.
  rewrite Hn1 in Hupdate. fold row in Hupdate.
  eexists. split; [|split_and!].
  - unfold banners_update. cbn [set_is_active update_payload]. rewrite Hactive.
    rewrite bool_decide_eq_true_2 by done. fold id.
    rewrite (bind_run _ _ w (Data ()) w1) by by apply banner_demote_others_up.
    by rewrite (bind_run _ _ _ _ _ Hupdate).
  - cbn. by rewrite lookup_insert_eq.
  - done.
  - by apply sole_active_activated.
  - cbn. rewrite dom_insert_L, dom_demote_others.
    apply subseteq_union_1_L, singleton_subseteq_l. by eapply elem_of_dom_2.
Qed.

Lemma update_sole_active_witness :
  ∃ w',
    banners_update Demo.store (Demo.req None "2" Demo.set_active) Demo.w0 =
      (Normal (Response 200
         (JBanner (js "2")
            (apply_payload (update_payload Demo.set_active) 101 Demo.banner2))), w') ∧
    sole_active (js "2") (banners w').
Proof.
  destruct (update_sole_active Demo.store (Demo.req None "2" Demo.set_active)
              Demo.w0 Demo.banner2 eq_refl eq_refl eq_refl eq_refl)
    as (w' & Hrun & _ & _ & Hsole & _).
  by exists w'.
Defined.

(** X11: [POST] of a banner with a product and a message, the insert
    served under a fresh identifier: the answer is the new row, with the
    product, message and link of the body, with [Boolean(is_active)] as
    its flag and the creation time of the store, and the table gains
    exactly that identifier. When [is_active] is truthy (the boolean
    [true], or a truthy value of another type) the sweep is sent after the
    insert, and once it is served the new row is the only active one; when
    it is falsy or absent no sweep is sent and the other rows are as they
    were. *)
Theorem create_banner (store : backend) (req : request) w :
  let n := length (queries w) in
  let id := gen_random_uuid store n in
  falsy (body_product (body req)) = false →
  falsy (body_message (body req)) = false →
  outage store n = None →
  banners w !! id = None →
  ∃ row w',
    banners_create store req w = (Normal (Response 200 (JBanner id row)), w') ∧
    Some (product row) = body_product (body req) ∧
    Some (message row) = body_message (body req) ∧
    href row = js_or (default None (body_href (body req))) None ∧
    is_active row = Boolean (body_is_active_value (body req)) ∧
    created_at row = now store n ∧
    dom (banners w') = {[id]} ∪ dom (banners w) ∧
    (Boolean (body_is_active_value (body req)) = true →
     sent w w' = [BannerInsert (create_payload (body req)); BannerDemoteOthers id] ∧
     (outage store (S n) = None → sole_active id (banners w'))) ∧
    (Boolean (body_is_active_value (body req)) = false →
     sent w w' = [BannerInsert (create_payload (body req))] ∧
     banners w' = <[id := row]> (banners w)).
Proof.
  intros n id Hproduct Hmessage Hup Hfresh.
  destruct (truthy_Some _ Hproduct) as (c1 & s1 & Hpr).
  destruct (truthy_Some _ Hmessage) as (c2 & s2 & Hm).
  pose proof (banner_insert_up store (create_payload (body req)) w _ _
                Hup Hpr Hm Hfresh) as Hinsert.
  cbn zeta in Hinsert. fold n id in Hinsert.
  set (row := Banner _ _ _ _ _ _) in Hinsert.
  set (w1 := after _ _ w) in Hinsert.
  assert (Hn1 : length (queries w1) = S n) by apply after_length.
  assert (Hrun0 : banners_create store req w =
            (_ ← (if Boolean (body_is_active_value (body req))
                  then banner_demote_others store id else mret (Data ()));
             mret (Response 200 (JBanner id row))) w1).
  { unfold banners_create. rewrite Hproduct, Hmessage. cbn [orb].
    by rewrite (bind_run _ _ _ _ _ Hinsert). }
  assert (Hflag : is_active row = Boolean (body_is_active_value (body req))) by done.
  destruct (Boolean (body_is_active_value (body req))) eqn:Hactive.
  - destruct (banner_demote_others_run store id w1) as (r & rows & Hsweep & Hok & Hdown).
    rewrite Hn1 in Hok, Hdown.
    change (banners w1) with (<[id := row]> (banners w)) in Hok, Hdown.
    rewrite (bind_run _ _ _ _ _ Hsweep) in Hrun0.
    exists row, (after (BannerDemoteOthers id) rows w1).
    split; [exact Hrun0|]. split_and!; try done.
    + cbn. destruct (outage store (S n)) eqn:Hout.
      * rewrite Hdown by done. by rewrite dom_insert_L.
      * rewrite (Hok eq_refl), dom_demote_others. by rewrite dom_insert_L.
    + intros _. split; [by unfold w1; rewrite sent_after2|].
      intros Hsweep_up. cbn. rewrite (Hok Hsweep_up).
      rewrite <- (insert_id (demote_others _ _ _) id row).
      * by apply sole_active_activated.
      * by rewrite demote_others_target, lookup_insert_eq.
  - exists row, w1. split; [exact Hrun0|]. split_and!; try done.
    + cbn. by rewrite dom_insert_L.
    + intros _. split; [apply sent_after1|done].
Qed.

Lemma create_banner_witness :
  ∃ row w',
    banners_create Demo.store (Demo.req None "" Demo.new_banner) Demo.w0 =
      (Normal (Response 200 (JBanner (js "3") row)), w') ∧
    Some (product row) = Some (js "cups") ∧
    sent Demo.w0 w' =
      [BannerInsert (create_payload Demo.new_banner); BannerDemoteOthers (js "3")] ∧
    sole_active (js "3") (banners w').
Proof.
  destruct (create_banner Demo.store (Demo.req None "" Demo.new_banner) Demo.w0
              eq_refl eq_refl eq_refl eq_refl)
    as (row & w' & Hrun & Hproduct & _ & _ & _ & _ & _ & Hactive & _).
  destruct (Hactive eq_refl) as [Hsent Hsole].
  exists row, w'. split_and!; [done..|].
  by apply Hsole.
Defined.

(** ** The invariant over a run of requests *)

Lemma supabase_normal {A} (store : backend) (q : query)
    (serve : nat → world → reply A * gmap jsstring banner) w :
  ∃ r w', supabase store q serve w = (Normal r, w').
Proof.
  unfold supabase. destruct (outage store _); [by eexists _, _|].
  destruct (serve _ _). by eexists _, _.
Qed.

Lemma demote_others_at_most_one (id : jsstring) (t : N) (rows : gmap jsstring banner) :
  at_most_one_active (demote_others id t rows).
Proof.
  intros i j ri rj Hi Hj Hai Haj.
  destruct (decide (i = id)) as [->|Hne_i];
    [|by rewrite (demote_others_inactive id t rows i ri) in Hai].
  destruct (decide (j = id)) as [->|Hne_j];
    [done|by rewrite (demote_others_inactive id t rows j rj) in Haj].
Qed.

Lemma activated_at_most_one (id : jsstring) (t : N) (row : banner)
    (rows : gmap jsstring banner) :
  at_most_one_active (<[id := row]> (demote_others id t rows)).
Proof.
  intros i j ri rj.
  assert (Hother : ∀ k r, k ≠ id →
            <[id := row]> (demote_others id t rows) !! k = Some r →
            is_active r = true → False).
  { intros k r Hk. rewrite lookup_insert_ne by done. intros Hr Ha.
    by rewrite (demote_others_inactive id t rows k r) in Ha. }
  intros Hi Hj Hai Haj.
  destruct (decide (i = id)) as [->|Hne_i]; [|by destruct (Hother i ri)].
  destruct (decide (j = id)) as [->|Hne_j]; [done|by destruct (Hother j rj)].
Qed.

Lemma banner_insert_run (store : backend) (p : banner_payload) w :
  ∃ r w', banner_insert store p w = (Normal r, w').
Proof. unfold banner_insert. apply supabase_normal. Qed.

Section Served.

Variable env : process_env.
Variable store : backend.
Variable compare : jsstring → jsstring → bool.
Hypothesis served : ∀ n, outage store n = None.

Lemma create_keeps_invariant (req : request) w :
  at_most_one_active (banners w) →
  at_most_one_active (banners (banners_create store req w).2).
Proof.
  intros Hone. unfold banners_create.
  destruct (falsy _ || falsy _); [done|].
  destruct (banner_insert_run store (create_payload (body req)) w)
    as (r & w1 & Hinsert).
  rewrite (bind_run _ _ _ _ _ Hinsert). destruct r as [data|message].
  - apply banner_insert_data in Hinsert as (Hfresh & _ & Hactive & ->).
    cbn [set_is_active create_payload] in *.
    destruct (default false (Some (Boolean (body_is_active_value (body req))))) eqn:Hflag.
    + rewrite (bind_run _ _ _ _ _ (banner_demote_others_up store _ _ (served _))).
      cbn. apply demote_others_at_most_one.
    + cbn. apply (no_new_active_at_most_one (banners w)); [|done].
      apply no_new_active_insert. rewrite Hactive. done.
  - apply banner_insert_failed in Hinsert as ->. done.
Qed.

Lemma update_keeps_invariant (req : request) w :
  at_most_one_active (banners w) →
  at_most_one_active (banners (banners_update store req w).2).
Proof.
  intros Hone.
  destruct (decide (body_is_active (body req) = Some true)) as [Hactive|Hplain].
  - destruct (banners_update_active store req w Hactive)
      as (r1 & rows1 & r2 & rows2 & Hsweep & Hwrite & ->).
    rewrite banner_demote_others_up in Hsweep by done.
    injection Hsweep as _ Hrows1. cbn [snd].
    destruct r2 as [data|message].
    + apply banner_update_data in Hwrite as (r & _ & _ & Hw).
      apply (f_equal banners) in Hw. cbn in Hw. cbn. rewrite Hw, <- Hrows1.
      apply activated_at_most_one.
    + apply banner_update_failed in Hwrite. apply (f_equal banners) in Hwrite.
      cbn in Hwrite. cbn. rewrite Hwrite, <- Hrows1.
      apply demote_others_at_most_one.
  - rewrite banners_update_plain by done.
    destruct (banner_update_run store (params_id req) (update_payload (body req)) w)
      as (r & rows & Hupdate).
    rewrite Hupdate. destruct r as [data|message].
    + apply banner_update_data in Hupdate as (r & Hr & -> & ->). cbn.
      apply (no_new_active_at_most_one (banners w)); [|done].
      apply no_new_active_insert. cbn. intros Hrow. exists r. split; [done|].
      destruct (body_is_active (body req)) as [[|]|]; done.
    + apply banner_update_failed in Hupdate as ->. done.
Qed.

Lemma activate_keeps_invariant (req : request) w :
  at_most_one_active (banners (banners_activate store req w).2).
Proof.
  destruct (banners_activate_run store req w)
    as (r1 & rows1 & r2 & rows2 & Hsweep & Hwrite & ->).
  rewrite banner_demote_others_up in Hsweep by done.
  injection Hsweep as _ Hrows1. cbn [snd].
  destruct r2 as [data|message].
  - apply banner_update_data in Hwrite as (r & _ & _ & Hw).
    apply (f_equal banners) in Hw. cbn in Hw. cbn. rewrite Hw, <- Hrows1.
    apply activated_at_most_one.
  - apply banner_update_failed in Hwrite. apply (f_equal banners) in Hwrite.
    cbn in Hwrite. cbn. rewrite Hwrite, <- Hrows1.
    apply demote_others_at_most_one.
Qed.

Lemma deactivate_keeps_invariant (req : request) w :
  at_most_one_active (banners w) →
  at_most_one_active (banners (banners_deactivate store req w).2).
Proof.
  intros Hone. rewrite banners_deactivate_run.
  destruct (banner_update_run store (params_id req) deactivate_payload w)
    as (r & rows & Hupdate).
  rewrite Hupdate. destruct r as [data|message].
  - apply banner_update_data in Hupdate as (r & Hr & -> & ->). cbn.
    apply (no_new_active_at_most_one (banners w)); [|done].
    by apply no_new_active_insert.
  - apply banner_update_failed in Hupdate as ->. done.
Qed.

Lemma index_keeps_table (req : request) w :
  banners (banners_index store req w).2 = banners w.
Proof.
  unfold banners_index, banner_select, supabase, mbind, handler_bind.
  destruct (outage store _); done.
Qed.

Lemma login_keeps_table (req : request) w :
  banners (admin_login env store compare req w).2 = banners w.
Proof.
  unfold admin_login. destruct (unconfigured env); [done|].
  destruct (_ && _); [done|].
  destruct (admin_find_run store
              (js_or (body_email (body req)) (body_username (body req))) w)
    as (r & Hfind & _).
  rewrite (bind_run _ _ _ _ _ Hfind).
  destruct r as [[u|]|]; [|done..]. by destruct (compare _ _).
Qed.

Lemma guarded_keeps_invariant (req : request) (next : request → handler response) w :
  (∀ req' w', at_most_one_active (banners w') →
              at_most_one_active (banners (next req' w').2)) →
  at_most_one_active (banners w) →
  at_most_one_active (banners (requireAdmin env store req next w).2).
Proof.
  intros Hnext Hone.
  destruct (requireAdmin_cases env store req w)
    as [(res & w' & Hrun & _ & Hrows & _)|(a & w' & Hrun & (Hrows & _) & _)];
    rewrite Hrun.
  - cbn. by rewrite Hrows.
  - apply Hnext. by rewrite Hrows.
Qed.

Lemma app_keeps_invariant (r : route) (req : request) w :
  at_most_one_active (banners w) →
  at_most_one_active (banners (app env store compare r req w).2).
Proof.
  intros Hone. destruct r; cbn [app].
  - by rewrite login_keeps_table.
  - apply guarded_keeps_invariant; [|done].
    intros req' w' Hone'. by rewrite index_keeps_table.
  - apply guarded_keeps_invariant; [|done]. intros req' w'. apply create_keeps_invariant.
  - apply guarded_keeps_invariant; [|done]. intros req' w'. apply update_keeps_invariant.
  - apply guarded_keeps_invariant; [|done]. intros req' w' _. apply activate_keeps_invariant.
  - apply guarded_keeps_invariant; [|done]. intros req' w'. apply deactivate_keeps_invariant.
Qed.

End Served.

(** X12: with a store that serves every request, at most one banner is
    active after any run of requests through the routes (login, list,
    create, update, activate, deactivate, each behind its guard), if that
    was so before the run. *)
Theorem served_runs_keep_one_active env (store : backend) compare
    (reqs : list (route * request)) w :
  (∀ n, outage store n = None) →
  at_most_one_active (banners w) →
  at_most_one_active (banners (serve_all env store compare reqs w)).
Proof.
  intros Hserved. revert w.
  induction reqs as [|[r req] reqs IH]; intros w Hone; [done|].
  cbn [serve_all]. apply IH. by apply app_keeps_invariant.
Qed.

Lemma demo_one_active : at_most_one_active (banners Demo.w0).
Proof.
  apply (sole_active_at_most_one (js "1")). intros k r. cbn.
  destruct (decide (k = js "1")) as [->|H1].
  - rewrite lookup_insert_eq. by intros [= <-].
  - rewrite lookup_insert_ne by done.
    destruct (decide (k = js "2")) as [->|H2].
    + rewrite lookup_insert_eq. intros [= <-]. by rewrite bool_decide_eq_false_2.
    + by rewrite lookup_insert_ne.
Qed.

Lemma served_runs_keep_one_active_witness :
  at_most_one_active
    (banners
       (serve_all Demo.env Demo.store Demo.compare
          [(POST_admin_banners,
            Demo.req (Some (js "Bearer goftus-admin-token.YWRtaW5AeC5jb20=")) ""
              Demo.new_banner);
           (POST_admin_banner_activate,
            Demo.req (Some (js "Bearer goftus-admin-token.YWRtaW5AeC5jb20=")) "2"
              Demo.no_body)]
          Demo.w0)).
Proof.
  apply served_runs_keep_one_active.
  - intros n. reflexivity.
  - apply demo_one_active.
Defined.

(** ** The public banner *)

Global Instance newest_first_total : Total newest_first.
Proof. intros a b. unfold newest_first. lia. Qed.

Global Instance newest_first_trans : Transitive newest_first.
Proof. intros a b c. unfold newest_first. lia. Qed.

Lemma elem_of_active (rows : gmap jsstring banner) (k : jsstring) (r : banner) :
  (k, r) ∈ merge_sort newest_first
             (filter (λ kr, is_active kr.2 = true) (map_to_list rows))
  ↔ rows !! k = Some r ∧ is_active r = true.
Proof.
  rewrite merge_sort_Permutation, list_elem_of_filter, elem_of_map_to_list. cbn.
  tauto.
Qed.

Lemma active_banner_spec (rows : gmap jsstring banner) :
  match active_banner rows with
  | Some (id, row) =>
      rows !! id = Some row ∧ is_active row = true ∧
      ∀ k r, rows !! k = Some r → is_active r = true → created_at r ≤ created_at row
  | None => ∀ k r, rows !! k = Some r → is_active r = false
  end.
Proof.
  unfold active_banner.
  pose proof (elem_of_active rows) as Hin.
  pose proof (StronglySorted_merge_sort newest_first
                (filter (λ kr, is_active kr.2 = true) (map_to_list rows))) as Hsorted.
  destruct (merge_sort _ _) as [|[id row] l]; cbn [head].
  - intros k r Hr. destruct (is_active r) eqn:Ha; [|done].
    pose proof (proj2 (Hin k r) (conj Hr Ha)) as Hnil.
    by apply not_elem_of_nil in Hnil.
  - destruct (proj1 (Hin id row)) as [Hrow Ha]; [by left|].
    split_and!; [done..|]. intros k r Hr Hactive.
    assert (Hk : (k, r) ∈ (id, row) :: l) by by apply Hin.
    apply StronglySorted_inv in Hsorted as [_ Hall].
    apply elem_of_cons in Hk as [[= -> ->]|Hk]; [done|].
    rewrite Forall_forall in Hall. apply (Hall _ Hk).
Qed.

(** X13: what the public endpoint shows when the store serves it: status
    200 and [null] when no banner is active, and otherwise a row of the
    table that is active and is the newest of the active ones. *)
Theorem public_banner_shows_active (w : world) :
  match public_payload (public_banner None w) with
  | PBanner id row =>
      banners w !! id = Some row ∧ is_active row = true ∧
      ∀ k r, banners w !! k = Some r → is_active r = true →
             created_at r ≤ created_at row
  | PNull => ∀ k r, banners w !! k = Some r → is_active r = false
  | PError _ => False
  end ∧
  public_status (public_banner None w) = 200.
Proof.
  unfold public_banner. pose proof (active_banner_spec (banners w)) as Hspec.
  destruct (active_banner (banners w)) as [[id row]|]; done.
Qed.

Lemma active_banner_sole (rows : gmap jsstring banner) (id : jsstring) (row : banner) :
  at_most_one_active rows → rows !! id = Some row → is_active row = true →
  active_banner rows = Some (id, row).
Proof.
  intros Hone Hrow Hactive. pose proof (active_banner_spec rows) as Hspec.
  destruct (active_banner rows) as [[k r]|].
  - destruct Hspec as (Hr & Ha & _).
    assert (k = id) as -> by by eapply Hone. congruence.
  - apply Hspec in Hrow. congruence.
Qed.

(** X14: when at most one banner is active, the public endpoint shows
    the active one. *)
Theorem public_banner_shows_the_active (w : world) (id : jsstring) (row : banner) :
  at_most_one_active (banners w) →
  banners w !! id = Some row → is_active row = true →
  public_banner None w = PublicResponse 200 (PBanner id row).
Proof.
  intros Hone Hrow Hactive. unfold public_banner.
  by rewrite (active_banner_sole _ id row).
Qed.

Lemma public_banner_shows_active_witness :
  public_status (public_banner None Demo.w0) = 200.
Proof. apply (public_banner_shows_active Demo.w0). Defined.

Lemma public_banner_shows_the_active_witness :
  public_banner None Demo.w0 = PublicResponse 200 (PBanner (js "1") Demo.banner1).
Proof.
  apply public_banner_shows_the_active; [apply demo_one_active|reflexivity..].
Defined.

(** The banner activated through the admin route is the banner the public
    route shows. *)
Example activate_then_public :
  public_banner None
    (banners_activate Demo.store (Demo.req None "2" Demo.no_body) Demo.w0).2
  = PublicResponse 200
      (PBanner (js "2") (Banner (js "mugs") (js "new") None true 20 101)).
Proof. reflexivity. Qed.

(** ** Pagination *)

Import Pagination.

Example parseInt_examples :
  parseInt (js "42") = Some 42%Z ∧ parseInt (js "  -7px") = Some (-7)%Z ∧
  parseInt (js "+3") = Some 3%Z ∧ parseInt (js "abc") = None ∧
  parseInt (js "") = None ∧ parseInt (js "-") = None ∧
  parseInt (js "0x10") = Some 0%Z ∧ parseInt (js "1e3") = Some 1%Z ∧
  parseInt (text (Some (QArray [QString (js "2"); QString (js "5")]))) = Some 2%Z ∧
  parseInt (text None) = None ∧ decimal 1203 = js "1203" ∧ decimal 0 = js "0".
Proof. repeat split; reflexivity. Qed.

Example parsePagination_examples :
  parsePagination (QueryString None None) = Page 1 9 0 8 ∧
  parsePagination (QueryString (Some (QString (js "3"))) (Some (QString (js "20"))))
  = Page 3 20 40 59 ∧
  parsePagination (QueryString (Some (QString (js "0"))) (Some (QString (js "0"))))
  = Page 1 9 0 8 ∧
  parsePagination (QueryString (Some (QString (js "-4"))) (Some (QString (js "-4"))))
  = Page 1 1 0 0 ∧
  parsePagination (QueryString (Some (QString (js "2"))) (Some (QString (js "500"))))
  = Page 2 50 50 99.
Proof. repeat split; reflexivity. Qed.

Lemma digit_code (d : N) : d < 10 → digit (48 + d) = Some (Z.of_N d).
Proof.
  intros Hd. unfold digit.
  destruct (N.leb_spec 48 (48 + d)); [|lia].
  destruct (N.leb_spec (48 + d) 57); [|lia]. cbn. f_equal. lia.
Qed.

Lemma digits_app (acc : option Z) (s : jsstring) (d : N) :
  d < 10 →
  Forall (λ c, is_Some (digit c)) s →
  digits acc (s ++ [48 + d]) = Some (10 * default 0%Z (digits acc s) + Z.of_N d)%Z.
Proof.
  intros Hd Hs. revert acc. induction Hs as [|c s [v Hc] _ IH]; intros acc.
  - cbn. by rewrite digit_code.
  - cbn [app digits]. rewrite <- app_comm_cons. cbn [digits]. rewrite Hc. apply IH.
Qed.

Lemma decimal_digits_spec (fuel : nat) (n : N) :
  n < 2 ^ N.of_nat (S fuel) →
  Forall (λ c, is_Some (digit c)) (decimal_digits (S fuel) n) ∧
  digits None (decimal_digits (S fuel) n) = Some (Z.of_N n) ∧
  (∃ c rest, decimal_digits (S fuel) n = c :: rest ∧ 48 ≤ c ≤ 57).
Proof.
  revert n. induction fuel as [|fuel IH]; intros n Hn.
  - assert (Hsmall : n < 10) by (cbn in Hn; lia).
    cbn [decimal_digits]. destruct (N.ltb_spec n 10); [|lia]. split_and!.
    + constructor; [|done]. rewrite digit_code by done. by eexists.
    + cbn. by rewrite digit_code.
    + exists (48 + n), []. split; [done|lia].
  - remember (S fuel) as fuel' eqn:Hfuel.
    cbn [decimal_digits]. destruct (N.ltb_spec n 10) as [Hsmall|Hbig].
    + split_and!.
      * constructor; [|done]. rewrite digit_code by done. by eexists.
      * cbn. by rewrite digit_code.
      * exists (48 + n), []. split; [done|lia].
    + assert (Hdiv : n / 10 < 2 ^ N.of_nat fuel').
      { rewrite Nat2N.inj_succ, N.pow_succ_r' in Hn. nlia. }
      subst fuel'. destruct (IH _ Hdiv) as (Hall & Hval & c & rest & Hhead & Hc).
      split_and!.
      * apply Forall_app. split; [done|]. constructor; [|done].
        rewrite digit_code by nlia. by eexists.
      * rewrite digits_app; [|nlia|done]. rewrite Hval. cbn. f_equal. nlia.
      * exists c, (rest ++ [48 + n mod 10]). by rewrite Hhead.
Qed.

Lemma decimal_fuel (n : N) : n < 2 ^ N.of_nat (S (N.to_nat (N.log2 n))).
Proof.
  rewrite Nat2N.inj_succ, N2Nat.id.
  destruct (N.eq_dec n 0) as [->|Hn]; [done|].
  apply N.log2_spec. lia.
Qed.

Lemma parseInt_decimal (n : N) : parseInt (decimal n) = Some (Z.of_N n).
Proof.
  destruct (decimal_digits_spec _ n (decimal_fuel n)) as (_ & Hval & c & rest & Hhead & Hc).
  unfold parseInt, decimal. rewrite Hhead in *. cbn [trim_start].
  assert (Hws : is_whitespace c = false).
  { unfold is_whitespace.
    repeat match goal with
    | |- context [?a <=? ?b] => destruct (N.leb_spec a b); try lia
    | |- context [?a =? ?b] => destruct (N.eqb_spec a b); try lia
    end; done. }
  rewrite Hws.
  destruct (N.eqb_spec c 45); [lia|]. destruct (N.eqb_spec c 43); [lia|]. done.
Qed.

Local Open Scope Z_scope.

(** X15: for every query, the page is at least 1 and the limit is between
    1 and 50; within the safe integers, the window starts at a
    non-negative offset [(page - 1) * limit] and holds exactly [limit]
    rows. *)
Theorem pagination_bounds (query : query_string) :
  let p := parsePagination query in
  (1 ≤ page p ∧ 1 ≤ limit p ≤ 50) ∧
  (to p ≤ MAX_SAFE_INTEGER →
   0 ≤ from p ∧ from p ≤ to p ∧ to p - from p + 1 = limit p ∧
   from p = (page p - 1) * limit p).
Proof.
  cbn zeta. unfold parsePagination. cbn [page limit from to].
  split; [lia|]. intros _. nia.
Qed.

Lemma pagination_bounds_witness :
  let p := parsePagination
             (QueryString (Some (QString (js "3"))) (Some (QString (js "20")))) in
  to p ≤ MAX_SAFE_INTEGER ∧ to p - from p + 1 = limit p.
Proof.
  cbn zeta. split; [by vm_compute|].
  destruct (pagination_bounds
              (QueryString (Some (QString (js "3"))) (Some (QString (js "20")))))
    as [_ Hwindow].
  apply Hwindow. by vm_compute.
Defined.

(** X16: for a page and a limit written as decimal numerals, the page is
    the number (1 for 0) as long as the number is a safe integer, the limit
    is the number capped at 50 (9 for 0), and, within the safe integers,
    the window of page [n + 1] starts right after the window of page
    [n]. *)
Theorem pagination_of_numerals (n m : N) :
  let p := parsePagination
             (QueryString (Some (QString (decimal n))) (Some (QString (decimal m)))) in
  let p' := parsePagination
              (QueryString (Some (QString (decimal (n + 1)))) (Some (QString (decimal m)))) in
  (Z.of_N n ≤ MAX_SAFE_INTEGER → page p = Z.max (Z.of_N n) 1) ∧
  limit p = (if (m =? 0)%N then 9 else Z.min (Z.of_N m) 50) ∧
  (to p' ≤ MAX_SAFE_INTEGER →
   from p = (Z.max (Z.of_N n) 1 - 1) * limit p ∧
   limit p' = limit p ∧
   ((1 ≤ n)%N → from p' = to p + 1)).
Proof.
  cbn zeta. unfold parsePagination.
  cbn [page limit from to text toString query_page query_limit].
  rewrite !parseInt_decimal.
  assert (Hpage : ∀ k : N, number_or (Some (Z.of_N k)) 1 = Z.max (Z.of_N k) 1
                           ∨ (k = 0%N ∧ number_or (Some (Z.of_N k)) 1 = 1)).
  { intros [|k]; [by right|left]. cbn. lia. }
  assert (Hlimit : Z.min (Z.max (number_or (Some (Z.of_N m)) 9) 1) 50
                   = if (m =? 0)%N then 9 else Z.min (Z.of_N m) 50).
  { destruct m as [|m]; [done|]. cbn [number_or Z.of_N N.eqb]. lia. }
  rewrite Hlimit.
  assert (Hn : Z.max (number_or (Some (Z.of_N n)) 1) 1 = Z.max (Z.of_N n) 1).
  { destruct (Hpage n) as [->|[-> ->]]; lia. }
  assert (Hn1 : Z.max (number_or (Some (Z.of_N (n + 1))) 1) 1 = Z.of_N n + 1).
  { destruct (Hpage (n + 1)%N) as [->|[? _]]; lia. }
  rewrite Hn, Hn1. split_and!; [done..|]. intros _. split_and!; [done..|].
  intros H1. replace (Z.max (Z.of_N n) 1) with (Z.of_N n) by lia. lia.
Qed.

Lemma pagination_of_numerals_witness :
  let p := parsePagination
             (QueryString (Some (QString (decimal 3))) (Some (QString (decimal 20)))) in
  let p' := parsePagination
              (QueryString (Some (QString (decimal 4))) (Some (QString (decimal 20)))) in
  3 ≤ MAX_SAFE_INTEGER ∧ page p = 3 ∧
  to p' ≤ MAX_SAFE_INTEGER ∧ from p' = to p + 1.
Proof.
  cbn zeta.
  destruct (pagination_of_numerals 3 20) as (Hpage & _ & Hwindow).
  split; [by vm_compute|]. split; [apply Hpage; by vm_compute|].
  split; [by vm_compute|].
  destruct Hwindow as (_ & _ & Hnext); [by vm_compute|].
  apply Hnext. by vm_compute.
Defined.

(** X17: the number of pages the listing announces covers the rows it
    counts: the last page holds a row, no row lies beyond it, and every row
    lies in the window of one of the pages. *)
Theorem totalPages_cover (count l : Z) :
  0 < count → 1 ≤ l →
  let t := totalPages (Some count) l in
  1 ≤ t ∧ (t - 1) * l < count ≤ t * l ∧
  ∀ i, 0 ≤ i < count →
       ∃ n, 1 ≤ n ≤ t ∧ (n - 1) * l ≤ i ≤ (n - 1) * l + l - 1.
Proof.
  intros Hcount Hl. cbn zeta. unfold totalPages.
  destruct count as [|c|c]; [lia| |lia].
  set (t := - (- Z.pos c / l)).
  assert (Ht : (t - 1) * l < Z.pos c ≤ t * l).
  { unfold t. pose proof (Z.div_mod (- Z.pos c) l ltac:(lia)) as Hdm.
    pose proof (Z.mod_pos_bound (- Z.pos c) l ltac:(lia)) as Hmod. nia. }
  split_and!; [nia|lia|lia|].
  intros i Hi. exists (i / l + 1).
  pose proof (Z.div_mod i l ltac:(lia)) as Hdm.
  pose proof (Z.mod_pos_bound i l ltac:(lia)) as Hmod.
  assert (0 ≤ i / l) by (apply Z.div_pos; lia).
  split_and!; [lia| |nia|nia].
  assert (i / l < t); [|lia].
  apply Z.div_lt_upper_bound; [lia|]. nia.
Qed.

Lemma totalPages_cover_witness :
  0 < 21 ∧ 1 ≤ 9 ∧
  (totalPages (Some 21) 9 - 1) * 9 < 21 ≤ totalPages (Some 21) 9 * 9.
Proof.
  split; [lia|]. split; [lia|].
  destruct (totalPages_cover 21 9 ltac:(lia) ltac:(lia)) as (_ & Hlast & _).
  exact Hlast.
Defined.

Local Close Scope Z_scope.

(** ** Image upload *)

Import Upload.

Example match_data_url_examples :
  match_data_url (js "data:image/png;base64,iVBORw0KGgo=")
  = Some (js "image/png", js "iVBORw0KGgo=") ∧
  match_data_url (js "data:a;base64,b;base64,c") = Some (js "a;base64,b", js "c") ∧
  match_data_url (js "data:;base64,AAAA") = None ∧
  match_data_url (js "data:image/png;base64,") = None ∧
  match_data_url (js "image/png;base64,AAAA") = None ∧
  match_data_url (js "data:image/png;base64,AA" ++ ([10] ++ js "AA")) = None ∧
  safeName (js "../../etc/passwd") = js ".._.._etc_passwd" ∧
  safeName (js "my photo (1).png") = js "my_photo__1_.png" ∧
  objectPath 1700000000000 (js "a b.png") = js "products/1700000000000-a_b.png".
Proof. repeat split; reflexivity. Qed.

Lemma safe_char_not_slash (c : N) : safe_char c = true → c ≠ 47.
Proof. intros Hc ->. discriminate Hc. Qed.

Lemma safeName_safe (filename : jsstring) :
  Forall (λ c, safe_char c = true) (safeName filename).
Proof.
  unfold safeName. apply Forall_fmap, Forall_true. intros c. cbn.
  by destruct (safe_char c) eqn:Hc.
Qed.

(** X18: the sanitised file name has the length of the file name, holds
    only letters, digits, [.], [_] and [-] (so no [/]), is left as it is by a
    second sanitising, and is the file name itself when that holds only
    such characters. *)
Theorem safeName_properties (filename : jsstring) :
  length (safeName filename) = length filename ∧
  Forall (λ c, safe_char c = true) (safeName filename) ∧
  (47 ∉ safeName filename) ∧
  safeName (safeName filename) = safeName filename ∧
  (Forall (λ c, safe_char c = true) filename → safeName filename = filename).
Proof.
  assert (Hid : ∀ f, Forall (λ c, safe_char c = true) f → safeName f = f).
  { intros f Hf. unfold safeName. induction Hf as [|c f Hc _ IH]; [done|].
    cbn. by rewrite Hc, IH. }
  split_and!.
  - unfold safeName. apply length_map.
  - apply safeName_safe.
  - intros Hin. pose proof (safeName_safe filename) as Hsafe.
    rewrite Forall_forall in Hsafe. by apply Hsafe, safe_char_not_slash in Hin.
  - apply Hid, safeName_safe.
  - apply Hid.
Qed.

Lemma safeName_properties_witness :
  Forall (λ c, safe_char c = true) (js "logo-v2.png") ∧
  safeName (js "logo-v2.png") = js "logo-v2.png".
Proof.
  assert (Hsafe : Forall (λ c, safe_char c = true) (js "logo-v2.png")).
  { apply Forall_forall. intros c Hc. apply list_elem_of_In in Hc.
    cbn in Hc. intuition (subst; reflexivity). }
  split; [exact Hsafe|].
  destruct (safeName_properties (js "logo-v2.png")) as (_ & _ & _ & _ & Hid).
  by apply Hid.
Defined.

Lemma decimal_no_slash (n : N) : 47 ∉ decimal n.
Proof.
  destruct (decimal_digits_spec _ n (decimal_fuel n)) as (Hall & _).
  intros Hin. rewrite Forall_forall in Hall. destruct (Hall _ Hin) as [d Hd].
  discriminate Hd.
Qed.

(** X19: the object path is "products/" followed by a name without [/],
    whatever the file name: the object stays in the folder. *)
Theorem objectPath_in_folder (now : N) (filename : jsstring) :
  ∃ name, objectPath now filename = js "products/" ++ name ∧ 47 ∉ name.
Proof.
  exists (decimal now ++ js "-" ++ safeName filename). split; [done|].
  rewrite !elem_of_app. intros [Hin|[Hin|Hin]].
  - by apply decimal_no_slash in Hin.
  - apply list_elem_of_singleton in Hin. discriminate Hin.
  - pose proof (safeName_safe filename) as Hsafe.
    rewrite Forall_forall in Hsafe. by apply Hsafe, safe_char_not_slash in Hin.
Qed.

(** *** A data URL read back *)

Lemma base64_char_plain (v : N) :
  base64_char v ≠ 59 ∧ is_line_terminator (base64_char v) = false.
Proof.
  unfold base64_char, is_line_terminator.
  repeat match goal with
  | |- context [?a <? ?b] => destruct (N.ltb_spec a b)
  | |- context [?a =? ?b] => destruct (N.eqb_spec a b); try lia
  end; split; (lia || done).
Qed.

Lemma toString_base64_plain (b : buffer) : Forall plain (toString_base64 b).
Proof.
  assert (Hpad : plain pad) by (split; [by intros [=]|done]).
  induction b as [|x|x y|x y z b IH] using list_ind3; cbn [toString_base64].
  - done.
  - repeat constructor; (apply base64_char_plain || done).
  - repeat constructor; (apply base64_char_plain || done).
  - rewrite <- !app_comm_cons, app_nil_l.
    repeat (constructor; [apply base64_char_plain|]). done.
Qed.

Lemma toString_base64_not_empty (b : buffer) : b ≠ [] → toString_base64 b ≠ [].
Proof. by destruct b as [|x [|y [|z b]]]. Qed.

Lemma split_last_none (s : jsstring) : Forall (λ c, c ≠ 59) s → split_last s = None.
Proof.
  induction 1 as [|c s Hc _ IH]; [done|].
  cbn [split_last]. rewrite IH.
  change (startsWith (c :: s) marker)
    with ((59 =? c) && startsWith s (js "base64,")).
  destruct (N.eqb_spec 59 c); [congruence|reflexivity].
Qed.

Lemma split_last_marker (b : jsstring) :
  Forall (λ c, c ≠ 59) b → b ≠ [] → split_last (marker ++ b) = Some ([], b).
Proof.
  intros Hb Hne.
  assert (Htail : split_last (js "base64," ++ b) = None).
  { apply split_last_none. apply Forall_app. split; [|done].
    repeat constructor; done. }
  change (marker ++ b) with (59 :: (js "base64," ++ b)).
  cbn [split_last]. rewrite Htail.
  change (59 :: (js "base64," ++ b)) with (marker ++ b).
  rewrite startsWith_app. change 8%nat with (length marker).
  rewrite drop_app_length. by destruct b.
Qed.

Lemma split_last_app (a b : jsstring) :
  Forall (λ c, c ≠ 59) b → b ≠ [] → split_last (a ++ marker ++ b) = Some (a, b).
Proof.
  intros Hb Hne. induction a as [|c a IH]; [by apply split_last_marker|].
  rewrite <- app_comm_cons. cbn [split_last]. by rewrite IH.
Qed.

Lemma existsb_app_false {A} (f : A → bool) (l1 l2 : list A) :
  existsb f l1 = false → existsb f l2 = false → existsb f (l1 ++ l2) = false.
Proof. intros H1 H2. by rewrite existsb_app, H1, H2. Qed.

(** X20: a data URL made of a content type (not empty, on one line) and
    of the base64 text of some bytes is matched with the content type as
    first group, also when the content type itself holds ";base64,"; the
    second group decodes to the bytes. *)
Theorem data_url_roundtrip (contentType : jsstring) (bytes : buffer) :
  contentType ≠ [] →
  existsb is_line_terminator contentType = false →
  bytes ≠ [] →
  Forall (λ x, x < 256) bytes →
  match_data_url (js "data:" ++ contentType ++ marker ++ toString_base64 bytes)
  = Some (contentType, toString_base64 bytes) ∧
  from_base64 (toString_base64 bytes) = bytes.
Proof.
  intros Hct Hlines Hne Hbytes.
  split; [|by apply from_base64_toString_base64].
  pose proof (toString_base64_plain bytes) as Hplain.
  unfold match_data_url. rewrite startsWith_app.
  change 5%nat with (length (js "data:")). rewrite drop_app_length. cbv zeta.
  rewrite existsb_app_false; [|done|].
  - rewrite split_last_app.
    + by destruct contentType.
    + eapply Forall_impl; [exact Hplain|]. by intros c [? _].
    + by apply toString_base64_not_empty.
  - apply existsb_app_false; [done|].
    apply not_true_is_false. intros (c & Hin & Hc)%existsb_exists.
    apply list_elem_of_In in Hin. rewrite Forall_forall in Hplain.
    destruct (Hplain c Hin) as [_ Hno]. congruence.
Qed.

Lemma data_url_roundtrip_witness :
  match_data_url (js "data:" ++ js "image/png" ++ marker ++ toString_base64 [137; 80; 78])
  = Some (js "image/png", toString_base64 [137; 80; 78]) ∧
  from_base64 (toString_base64 [137; 80; 78]) = [137; 80; 78].
Proof.
  apply (data_url_roundtrip (js "image/png") [137; 80; 78]); try done.
  repeat constructor; lia.
Defined.

(** ** Contact form and mailing list *)

Import Mailing.

Section MailingList.
Variable env : mail_env.
Variable provider : services.

Lemma in_order_elem_of n (rows : list contact) c :
  in_order provider → c ∈ row_order provider n rows ↔ c ∈ rows.
Proof. intros H. by rewrite (H n rows). Qed.

Ltac run_in H :=
  unfold subscribe, unsubscribe, contact_form, automation_inquiry, catch, mbind,
    action_bind, mret, action_ret, log, contacts_by_email, contacts_set_subscription,
    contacts_insert, request, sendMail, await in H; cbn beta iota zeta in H.

Lemma same_contact_refl (c : contact) : same_contact c c.
Proof. by repeat split. Qed.

Lemma same_contact_trans (a b c : contact) :
  same_contact a b → same_contact b c → same_contact a c.
Proof.
  intros (?&?&?&?&?) (?&?&?&?&?). repeat split; congruence.
Qed.

Lemma same_contact_set (e : jsstring) (flag : bool) (c : contact) :
  same_contact c (set_subscription e flag c).
Proof. unfold set_subscription. case_bool_decide; by repeat split. Qed.

Lemma rows_kept_refl (rows : list contact) : rows_kept rows rows.
Proof.
  exists rows, []. split; [by rewrite app_nil_r|].
  apply Forall2_same_length_lookup_2; [done|].
  intros i c c' H1 H2. rewrite H1 in H2. injection H2 as <-. apply same_contact_refl.
Qed.

Lemma rows_kept_app (rows added : list contact) : rows_kept rows (rows ++ added).
Proof.
  exists rows, added. split; [done|].
  apply Forall2_same_length_lookup_2; [done|].
  intros i c c' H1 H2. rewrite H1 in H2. injection H2 as <-. apply same_contact_refl.
Qed.

Lemma rows_kept_set (e : jsstring) (flag : bool) (rows : list contact) :
  rows_kept rows (set_subscription e flag <$> rows).
Proof.
  exists (set_subscription e flag <$> rows), []. split; [by rewrite app_nil_r|].
  induction rows as [|c rows IH]; constructor; [apply same_contact_set|done].
Qed.

Lemma rows_kept_trans (a b c : list contact) :
  rows_kept a b → rows_kept b c → rows_kept a c.
Proof.
  intros (kept & added & -> & Hab) (kept' & added' & -> & Hbc).
  apply Forall2_app_inv_l in Hbc. destruct Hbc as (k1 & k2 & Hk1 & Hk2 & ->).
  exists k1, (k2 ++ added'). split; [by rewrite <- app_assoc|].
  clear Hk2. revert k1 Hk1.
  induction Hab as [|x y l l' Hxy Hab IH]; intros k1 Hk1.
  - by inversion Hk1.
  - inversion Hk1 as [|? z ? l'' Hyz Hrest]; subst.
    constructor; [by eapply same_contact_trans|by apply IH].
Qed.

Lemma subscribed_app (e : jsstring) (rows added : list contact) :
  subscribed e rows → subscribed e (rows ++ added).
Proof. intros (c & Hc & ?). exists c. split; [apply elem_of_app; by left|done]. Qed.

Lemma subscribed_new (e : jsstring) (rows : list contact) (c : contact) :
  contact_email c = e → subscription c = Some true → subscribed e (rows ++ [c]).
Proof.
  intros. exists c. split; [|done]. apply elem_of_app. right. apply list_elem_of_singleton.
  done.
Qed.

Lemma subscribed_set_on (e e' : jsstring) (rows : list contact) :
  subscribed e rows → subscribed e (set_subscription e' true <$> rows).
Proof.
  intros (c & Hc & He & Hsub). exists (set_subscription e' true c).
  split; [by apply list_elem_of_fmap_2|].
  unfold set_subscription. by case_bool_decide.
Qed.

Lemma subscribed_set_self (e : jsstring) (rows : list contact) (c : contact) :
  c ∈ rows → contact_email c = e → subscribed e (set_subscription e true <$> rows).
Proof.
  intros Hc He. exists (set_subscription e true c).
  split; [by apply list_elem_of_fmap_2|].
  unfold set_subscription. by rewrite bool_decide_eq_true_2.
Qed.

Lemma set_off (e : jsstring) (rows : list contact) (c : contact) :
  c ∈ set_subscription e false <$> rows → contact_email c = e →
  subscription c = Some false.
Proof.
  intros (c0 & -> & Hc0)%list_elem_of_fmap He.
  unfold set_subscription in *. by case_bool_decide.
Qed.

Lemma set_other (e : jsstring) (flag : bool) (rows : list contact) (c : contact) :
  contact_email c ≠ e → c ∈ set_subscription e flag <$> rows ↔ c ∈ rows.
Proof.
  intros He. rewrite list_elem_of_fmap. split.
  - intros (c0 & -> & Hc0). unfold set_subscription in *.
    by case_bool_decide.
  - intros Hc. exists c. split; [|done].
    unfold set_subscription. by rewrite bool_decide_eq_false_2.
Qed.

Lemma selected (n : nat) (e : jsstring) (rows : list contact) (c : contact)
    (rest : list contact) :
  in_order provider →
  row_order provider n (filter (λ c, contact_email c = e) rows) = c :: rest →
  c ∈ rows ∧ contact_email c = e.
Proof.
  intros Horder Hsel.
  assert (Hc : c ∈ row_order provider n (filter (λ c, contact_email c = e) rows))
    by (rewrite Hsel; apply list_elem_of_here).
  rewrite (Horder n) in Hc. by apply list_elem_of_filter in Hc as [? ?].
Qed.

Lemma selected_none (n : nat) (e : jsstring) (rows : list contact) :
  in_order provider →
  row_order provider n (filter (λ c, contact_email c = e) rows) = [] →
  ∀ c, c ∈ rows → contact_email c ≠ e.
Proof.
  intros Horder Hsel c Hc He.
  assert (Hin : c ∈ row_order provider n (filter (λ c, contact_email c = e) rows)).
  { rewrite (Horder n). by apply list_elem_of_filter. }
  rewrite Hsel in Hin. by apply elem_of_nil in Hin.
Qed.

Lemma subscribe_ok (email : option jsstring) (s s' : mailbox) (a : answer) :
  in_order provider →
  subscribe env provider email s = (Normal a, s') →
  status_of a = 200 →
  ∃ e encoded,
    email = Some e
    ∧ encodeURIComponent e = Normal encoded
    ∧ subscribed e (contacts s')
    ∧ outbox s' = outbox s
        ++ [Mail (MAIL_USER env) (Some (QString e))
              (Welcome (shown (BASE_URL env) ++ js "/api/unsubscribe?email=" ++ encoded)
                 (current_year provider))].
Proof.
  intros Horder Hrun Hok.
  run_in Hrun.
  destruct email as [e|]; cbn in Hrun; [|by simplify_eq].
  destruct (JsString.is_empty e) eqn:He; cbn in Hrun; [by simplify_eq|].
  repeat (case_match; simplify_eq/=); try done.
  all: eexists e, _; split; [done|]; split; [done|]; split; [|done].
  all: try by apply subscribed_new.
  all: match goal with H : row_order _ _ _ = ?c :: _ |- _ =>
         apply (selected _ _ _ _ _ Horder) in H as [Hc Hmail] end.
  all: try (by eapply subscribed_set_self).
  match goal with H : bool_decide _ = true |- _ =>
    apply bool_decide_eq_true_1 in H end.
  by eexists.
Qed.

Ltac lengths := rewrite ?length_app, ?Nat.add_1_r in *; cbn [length] in *.

(** X21: when [POST /api/subscribe] answers 200, the body named an address,
    a contact with that address is stored as subscribed, and exactly one
    mail went out: the welcome mail to that address, with the unsubscribe
    link made of [BASE_URL] and the percent-encoded address. *)
Theorem subscribe_ok_means_subscribed (email : option jsstring) (s s' : mailbox)
    (a : answer) :
  in_order provider →
  subscribe env provider email s = (Normal a, s') →
  status_of a = 200 →
  ∃ e encoded,
    email = Some e
    ∧ encodeURIComponent e = Normal encoded
    ∧ subscribed e (contacts s')
    ∧ outbox s' = outbox s
        ++ [Mail (MAIL_USER env) (Some (QString e))
              (Welcome (shown (BASE_URL env) ++ js "/api/unsubscribe?email=" ++ encoded)
                 (current_year provider))].
Proof. apply subscribe_ok. Qed.

(** X22: the subscription is not undone when the welcome mail fails. With
    the store answering and the mail service refusing the mail,
    [POST /api/subscribe] answers 500 "Internal server error", no mail
    went out, and yet the address is stored as subscribed. *)
Theorem subscribe_mail_failure_keeps_subscription (e err : jsstring) (s : mailbox) :
  in_order provider →
  JsString.is_empty e = false →
  JsString.isWellFormed e = true →
  contacts_outage provider (length (contact_queries s)) = None →
  contacts_outage provider (S (length (contact_queries s))) = None →
  mail_failure provider (attempts s) = Some err →
  ∃ s',
    subscribe env provider (Some e) s
    = (Normal (JsonError 500 (js "Internal server error")), s')
    ∧ subscribed e (contacts s')
    ∧ outbox s' = outbox s.
Proof.
  intros Horder He Hwf Hout0 Hout1 Hmail.
  destruct (subscribe env provider (Some e) s) as [r s'] eqn:Hrun.
  exists s'. run_in Hrun. unfold encodeURIComponent in Hrun.
  cbn in Hrun. rewrite He, Hout0, Hwf in Hrun. cbn in Hrun.
  repeat (case_match; lengths; simplify_eq/=); try done.
  all: split; [done|]; split; [|done].
  all: try by apply subscribed_new.
  all: match goal with H : row_order _ _ _ = ?c :: _ |- _ =>
         apply (selected _ _ _ _ _ Horder) in H as [Hc Hc'] end.
  all: try (by eapply subscribed_set_self).
  match goal with H : bool_decide _ = true |- _ =>
    apply bool_decide_eq_true_1 in H end.
  by eexists.
Qed.

(** X23: when [GET /api/unsubscribe] answers with the page that confirms
    the unsubscription, every contact with the address shown is stored
    with [subscription] false, the contacts with other addresses are
    those there were, and exactly one mail went out, the confirmation to
    [req.query.email]. *)
Theorem unsubscribe_page_means_unsubscribed (email : option qvalue) (s s' : mailbox)
    (shown_email : jsstring) :
  unsubscribe env provider email s = (Normal (UnsubscribedPage shown_email), s') →
  shown_email = text email
  ∧ (∀ c, c ∈ contacts s' → contact_email c = shown_email →
          subscription c = Some false)
  ∧ (∀ c, contact_email c ≠ shown_email → c ∈ contacts s' ↔ c ∈ contacts s)
  ∧ outbox s' = outbox s ++ [Mail (MAIL_USER env) email (Unsubscribed shown_email)].
Proof.
  intros Hrun. run_in Hrun.
  repeat (case_match; simplify_eq/=); try done.
  all: split; [done|]; split; [|split; [|done]].
  all: first [ by intros ?; apply set_off | by intros ?; apply set_other ].
Qed.

Lemma unsubscribe_no_at (provider' : services) (e : jsstring) (s : mailbox) :
  64 ∉ e →
  unsubscribe env provider' (Some (QString e)) s
  = (Normal (Text 400 (js "Invalid unsubscribe link.")),
     Mailbox (contacts s) (contact_queries s) (outbox s) (attempts s)
       (lines s ++ [LogInvalidUnsubscribe])).
Proof.
  intros He. unfold unsubscribe, catch, mbind, action_bind, mret, action_ret, await,
    includes_at, absent.
  destruct e as [|c e]; [done|]. cbn.
  by rewrite bool_decide_eq_false_2.
Qed.

(** X24: [POST /api/subscribe] takes any non-empty address, while
    [GET /api/unsubscribe] wants an [@] in it. An address without [@] that
    was subscribed stays subscribed: the unsubscribe route answers 400 for
    it, whatever the services do, without a request to the store or a
    mail. *)
Theorem subscription_without_at_is_for_good (provider' : services) (e : jsstring)
    (s s1 : mailbox) (a : answer) :
  in_order provider →
  64 ∉ e →
  subscribe env provider (Some e) s = (Normal a, s1) →
  status_of a = 200 →
  ∃ s2,
    unsubscribe env provider' (Some (QString e)) s1
    = (Normal (Text 400 (js "Invalid unsubscribe link.")), s2)
    ∧ subscribed e (contacts s2)
    ∧ contact_queries s2 = contact_queries s1
    ∧ outbox s2 = outbox s1.
Proof.
  intros Horder He Hrun Hok.
  destruct (subscribe_ok _ _ _ _ Horder Hrun Hok) as (e' & enc & [= <-] & _ & Hsub & _).
  eexists. split; [by apply unsubscribe_no_at|]. by cbn.
Qed.

Lemma filter_other (e : jsstring) (rows : list contact) :
  (∀ c, c ∈ rows → contact_email c ≠ e) →
  filter (λ c, contact_email c = e) rows = [].
Proof.
  induction rows as [|c rows IH]; intros Hrows; [done|].
  rewrite filter_cons_False; [|apply Hrows; apply list_elem_of_here].
  apply IH. intros c' Hc'. apply Hrows. by apply list_elem_of_further.
Qed.

Lemma row_order_nil (n : nat) : in_order provider → row_order provider n [] = [].
Proof. intros Horder. apply Permutation_nil_r. by rewrite (Horder n). Qed.

Lemma row_order_singleton (n : nat) (c : contact) :
  in_order provider → row_order provider n [c] = [c].
Proof. intros Horder. apply Permutation_singleton_r. by rewrite (Horder n). Qed.

Lemma encodeURIComponent_wellFormed (e : jsstring) :
  JsString.isWellFormed e = true → ∃ encoded, encodeURIComponent e = Normal encoded.
Proof. intros He. unfold encodeURIComponent. rewrite He. by eexists. Qed.

Lemma absent_string (e : jsstring) : absent (Some (QString e)) = JsString.is_empty e.
Proof. by destruct e. Qed.

(** X25: with services that work, an address with an [@] and no contact
    yet is subscribed by [POST /api/subscribe] (200) and taken off again by
    [GET /api/unsubscribe] (the confirmation page): afterwards no contact
    with the address is subscribed, and two mails went out. *)
Theorem fresh_subscription_roundtrip (e : jsstring) (s : mailbox) :
  reliable provider →
  JsString.is_empty e = false →
  JsString.isWellFormed e = true →
  64 ∈ e →
  (∀ c, c ∈ contacts s → contact_email c ≠ e) →
  ∃ s1 s2,
    subscribe env provider (Some e) s
    = (Normal (JsonSuccess (Some (js "Subscription activated and welcome email sent!"))),
       s1)
    ∧ subscribed e (contacts s1)
    ∧ unsubscribe env provider (Some (QString e)) s1 = (Normal (UnsubscribedPage e), s2)
    ∧ ¬ subscribed e (contacts s2)
    ∧ length (outbox s2) = S (S (length (outbox s))).
Proof.
  intros (Horder & Hstore & Hmail) He Hwf Hat Hfresh.
  destruct (encodeURIComponent_wellFormed e Hwf) as [encoded Hencoded].
  pose proof (filter_other e (contacts s) Hfresh) as Hnone.
  set (row := Contact None e None None None (Some true)).
  assert (Hone : filter (λ c, contact_email c = e) (contacts s ++ [row]) = [row]).
  { rewrite filter_app, Hnone. by rewrite filter_cons_True. }
  eexists _, _. split; [|split; [|split; [|split]]].
  - unfold subscribe, catch, mbind, action_bind, mret, action_ret, log,
      contacts_by_email, contacts_insert, request, sendMail, await.
    cbn. rewrite He. cbn. rewrite !Hstore, Hnone, row_order_nil by done.
    cbn. rewrite ?Hstore, Hencoded. cbn. rewrite (Hmail (attempts s)). reflexivity.
  - cbn. by apply subscribed_new.
  - unfold unsubscribe, catch, mbind, action_bind, mret, action_ret, log,
      contacts_by_email, contacts_set_subscription, request, sendMail, await,
      includes_at.
    rewrite absent_string, He. cbn. rewrite bool_decide_eq_true_2 by done. cbn.
    rewrite !Hstore. fold row. rewrite Hone, row_order_singleton by done.
    cbn. rewrite (bool_decide_eq_false_2 (Some true = Some false)) by done.
    cbn. rewrite ?Hstore. cbn. rewrite (Hmail (S (attempts s))). reflexivity.
  - cbn. unfold subscribed. intros (r & Hr & Hr' & Hsub).
    pose proof (set_off _ _ _ Hr Hr') as Hoff. congruence.
  - cbn. rewrite !length_app. cbn. lia.
Qed.

(** X26: when [POST /api/contact] answers with success, the three
    required fields were given, one notice went out to [RECEIVER_MAIL], and
    one row was added at the end of [contacts]: the fields of the body,
    with [subscription] false. *)
Theorem contact_form_success (fullName email company need message : option jsstring)
    (s s' : mailbox) (m : option jsstring) :
  contact_form env provider fullName email company need message s
  = (Normal (JsonSuccess m), s') →
  ∃ e,
    email = Some e
    ∧ falsy fullName = false ∧ falsy email = false ∧ falsy message = false
    ∧ contacts s' = contacts s ++ [Contact fullName e company need message (Some false)]
    ∧ outbox s' = outbox s
        ++ [Mail (MAIL_USER env) (QString <$> RECEIVER_MAIL env)
              (ContactNotice (default [] fullName) e (js_or_text company (js "N/A"))
                 (js_or_text need (js "N/A")) (default [] message))].
Proof.
  intros Hrun. run_in Hrun.
  destruct (falsy fullName) eqn:Hname; cbn in Hrun; [by simplify_eq|].
  destruct (falsy email) eqn:Hemail; cbn in Hrun; [by simplify_eq|].
  destruct (falsy message) eqn:Hmessage; cbn in Hrun; [by simplify_eq|].
  destruct email as [e|]; [|done].
  repeat (case_match; simplify_eq/=); try done.
  by exists e.
Qed.

(** X27: the contact form sends its mail before it stores the row. When
    the mail is delivered and the store then refuses the insert, the
    answer is 500 "Failed to save to database" with the store's message,
    the table is as it was, and the notice has gone out all the same. *)
Theorem contact_store_failure_after_mail
    (fullName email company need message : option jsstring) (failure : jsstring)
    (s : mailbox) :
  falsy fullName = false → falsy email = false → falsy message = false →
  mail_failure provider (attempts s) = None →
  contacts_outage provider (length (contact_queries s)) = Some failure →
  ∃ s',
    contact_form env provider fullName email company need message s
    = (Normal (JsonFailure (js "Failed to save to database") (detail_of failure)
                 (js "supabase_insert")), s')
    ∧ contacts s' = contacts s
    ∧ outbox s' = outbox s
        ++ [Mail (MAIL_USER env) (QString <$> RECEIVER_MAIL env)
              (ContactNotice (default [] fullName) (default [] email)
                 (js_or_text company (js "N/A")) (js_or_text need (js "N/A"))
                 (default [] message))].
Proof.
  intros Hname Hemail Hmessage Hmail Hstore.
  eexists. split.
  - unfold contact_form, catch, mbind, action_bind, mret, action_ret, log,
      contacts_insert, request, sendMail.
    rewrite Hname, Hemail, Hmessage. cbn. rewrite Hmail. cbn. rewrite Hstore.
    reflexivity.
  - by cbn.
Qed.

Ltac run_handlers :=
  unfold handle, post_contact, post_automation_inquiry, post_subscribe, destructure,
    subscribe, unsubscribe, contact_form, automation_inquiry, catch, mbind,
    action_bind, mret, action_ret, log, contacts_by_email, contacts_set_subscription,
    contacts_insert, request, sendMail, await.

(** X28: the automation inquiry and the unsubscribe route answer every
    request, and so do the contact form and the subscribe route for every
    request that has a body: whatever the store and the mail service do,
    the handler answers and no error escapes it. For a request without a
    body the contact form and the subscribe route throw before their
    [try]: the error leaves the handler, which has sent nothing to the
    store, no mail, and written nothing to the console. *)
Theorem handlers_answer (c : call) (s : mailbox) :
  match c with
  | PostContact None | PostSubscribe None =>
      ∃ err, handle env provider c s = (Throw err, s)
  | _ => ∃ a, (handle env provider c s).1 = Normal a
  end.
Proof.
  destruct c as [[fields|]|[fields|]|[fields|]|email]; run_handlers.
  all: repeat (case_match; simplify_eq/=); by eexists.
Qed.

Lemma handle_rows_kept (c : call) (s : mailbox) :
  rows_kept (contacts s) (contacts (handle env provider c s).2).
Proof.
  destruct c as [[fields|]|[fields|]|[fields|]|email]; run_handlers.
  all: repeat (case_match; simplify_eq/=).
  all: first [apply rows_kept_refl | apply rows_kept_app | apply rows_kept_set].
Qed.

(** X29: no sequence of requests to the four routes deletes a contact, moves
    one, or changes anything of one but [subscription]; rows are only
    added at the end. *)
Theorem handle_all_rows_kept (cs : list call) (s : mailbox) :
  rows_kept (contacts s) (contacts (handle_all env provider cs s)).
Proof.
  revert s. induction cs as [|c cs IH]; intros s; [apply rows_kept_refl|].
  cbn. eapply rows_kept_trans; [apply handle_rows_kept|apply IH].
Qed.

Lemma handle_stays_subscribed (c : call) (e : jsstring) (s : mailbox) :
  match c with GetUnsubscribe _ => False | _ => True end →
  subscribed e (contacts s) → subscribed e (contacts (handle env provider c s).2).
Proof.
  intros Hc Hsub.
  destruct c as [[fields|]|[fields|]|[fields|]|email]; [..|done]; run_handlers.
  all: repeat (case_match; simplify_eq/=).
  all: first [done | by apply subscribed_app | by apply subscribed_set_on].
Qed.

(** X30: only [GET /api/unsubscribe] takes an address off the mailing
    list. Over a sequence of requests to the other three routes, an
    address that is subscribed stays subscribed, whatever the services
    do. *)
Theorem only_unsubscribe_takes_off (cs : list call) (e : jsstring) (s : mailbox) :
  no_unsubscribe cs →
  subscribed e (contacts s) → subscribed e (contacts (handle_all env provider cs s)).
Proof.
  revert s. induction cs as [|c cs IH]; intros s Hcs Hsub; [done|].
  cbn. apply IH.
  - intros c' Hc'. apply Hcs. by apply list_elem_of_further.
  - apply handle_stays_subscribed; [apply Hcs; apply list_elem_of_here|done].
Qed.

End MailingList.

Lemma fine_in_order : in_order MailDemo.fine.
Proof. intros n rows. apply reverse_Permutation. Qed.

Lemma no_mail_in_order : in_order MailDemo.no_mail.
Proof. intros n rows. apply reverse_Permutation. Qed.

Lemma fine_reliable : reliable MailDemo.fine.
Proof. split; [apply fine_in_order|done]. Qed.

Lemma subscribe_ok_means_subscribed_witness :
  ∃ e encoded,
    Some MailDemo.ann = Some e
    ∧ encodeURIComponent e = Normal encoded
    ∧ subscribed e
        (contacts (subscribe MailDemo.env MailDemo.fine (Some MailDemo.ann)
                     MailDemo.listed).2)
    ∧ outbox (subscribe MailDemo.env MailDemo.fine (Some MailDemo.ann)
                MailDemo.listed).2
      = [Mail (MAIL_USER MailDemo.env) (Some (QString e))
           (Welcome (shown (BASE_URL MailDemo.env) ++ js "/api/unsubscribe?email="
                     ++ encoded) 2025)].
Proof.
  apply (subscribe_ok_means_subscribed MailDemo.env MailDemo.fine (Some MailDemo.ann)
           MailDemo.listed _
           (JsonSuccess (Some (js "Subscription activated and welcome email sent!")))
           fine_in_order); reflexivity.
Defined.

Lemma subscribe_mail_failure_keeps_subscription_witness :
  ∃ s',
    subscribe MailDemo.env MailDemo.no_mail (Some (js "eve@example.com")) MailDemo.listed
    = (Normal (JsonError 500 (js "Internal server error")), s')
    ∧ subscribed (js "eve@example.com") (contacts s')
    ∧ outbox s' = [].
Proof.
  apply (subscribe_mail_failure_keeps_subscription MailDemo.env MailDemo.no_mail
           (js "eve@example.com") (js "Invalid login") MailDemo.listed
           no_mail_in_order); reflexivity.
Defined.

Lemma unsubscribe_page_means_unsubscribed_witness :
  MailDemo.ann = text (Some (QString MailDemo.ann))
  ∧ (∀ c,
       c ∈ contacts (unsubscribe MailDemo.env MailDemo.fine
                       (Some (QString MailDemo.ann)) MailDemo.listed).2 →
       contact_email c = MailDemo.ann → subscription c = Some false)
  ∧ (∀ c,
       contact_email c ≠ MailDemo.ann →
       c ∈ contacts (unsubscribe MailDemo.env MailDemo.fine
                       (Some (QString MailDemo.ann)) MailDemo.listed).2
       ↔ c ∈ contacts MailDemo.listed)
  ∧ outbox (unsubscribe MailDemo.env MailDemo.fine (Some (QString MailDemo.ann))
              MailDemo.listed).2
    = [] ++ [Mail (MAIL_USER MailDemo.env) (Some (QString MailDemo.ann))
               (Unsubscribed MailDemo.ann)].
Proof.
  apply (unsubscribe_page_means_unsubscribed MailDemo.env MailDemo.fine
           (Some (QString MailDemo.ann)) MailDemo.listed).
  reflexivity.
Defined.

Lemma subscription_without_at_is_for_good_witness :
  ∃ s2,
    unsubscribe MailDemo.env MailDemo.fine (Some (QString (js "ann")))
      (subscribe MailDemo.env MailDemo.fine (Some (js "ann")) MailDemo.empty).2
    = (Normal (Text 400 (js "Invalid unsubscribe link.")), s2)
    ∧ subscribed (js "ann") (contacts s2)
    ∧ contact_queries s2
      = contact_queries
          (subscribe MailDemo.env MailDemo.fine (Some (js "ann")) MailDemo.empty).2
    ∧ outbox s2
      = outbox (subscribe MailDemo.env MailDemo.fine (Some (js "ann")) MailDemo.empty).2.
Proof.
  apply (subscription_without_at_is_for_good MailDemo.env MailDemo.fine MailDemo.fine
           (js "ann") MailDemo.empty _
           (JsonSuccess (Some (js "Subscription activated and welcome email sent!")))
           fine_in_order).
  - by intros Hin; vm_compute in Hin; repeat (apply elem_of_cons in Hin as [?|Hin]; [done|]);
      apply elem_of_nil in Hin.
  - reflexivity.
  - reflexivity.
Defined.

Lemma fresh_subscription_roundtrip_witness :
  ∃ s1 s2,
    subscribe MailDemo.env MailDemo.fine (Some MailDemo.ann) MailDemo.empty
    = (Normal (JsonSuccess (Some (js "Subscription activated and welcome email sent!"))),
       s1)
    ∧ subscribed MailDemo.ann (contacts s1)
    ∧ unsubscribe MailDemo.env MailDemo.fine (Some (QString MailDemo.ann)) s1
      = (Normal (UnsubscribedPage MailDemo.ann), s2)
    ∧ ¬ subscribed MailDemo.ann (contacts s2)
    ∧ length (outbox s2) = 2%nat.
Proof.
  apply (fresh_subscription_roundtrip MailDemo.env MailDemo.fine MailDemo.ann
           MailDemo.empty fine_reliable); [reflexivity|reflexivity| |].
  - do 3 apply list_elem_of_further. apply list_elem_of_here.
  - intros c Hc. by apply elem_of_nil in Hc.
Defined.

Lemma contact_form_success_witness :
  ∃ e,
    Some MailDemo.ann = Some e
    ∧ falsy (Some (js "Ann")) = false ∧ falsy (Some MailDemo.ann) = false
    ∧ falsy (Some (js "Hello")) = false
    ∧ contacts (contact_form MailDemo.env MailDemo.fine (Some (js "Ann"))
                  (Some MailDemo.ann) None (Some []) (Some (js "Hello"))
                  MailDemo.empty).2
      = [] ++ [Contact (Some (js "Ann")) e None (Some []) (Some (js "Hello"))
                 (Some false)]
    ∧ outbox (contact_form MailDemo.env MailDemo.fine (Some (js "Ann"))
                (Some MailDemo.ann) None (Some []) (Some (js "Hello"))
                MailDemo.empty).2
      = [] ++ [Mail (MAIL_USER MailDemo.env) (QString <$> RECEIVER_MAIL MailDemo.env)
                 (ContactNotice (js "Ann") e (js "N/A") (js "N/A") (js "Hello"))].
Proof.
  apply (contact_form_success MailDemo.env MailDemo.fine (Some (js "Ann"))
           (Some MailDemo.ann) None (Some []) (Some (js "Hello")) MailDemo.empty _ None).
  reflexivity.
Defined.

Lemma contact_store_failure_after_mail_witness :
  ∃ s',
    contact_form MailDemo.env MailDemo.no_store (Some (js "Ann")) (Some MailDemo.ann)
      None None (Some (js "Hello")) MailDemo.listed
    = (Normal (JsonFailure (js "Failed to save to database") (Some (js "fetch failed"))
                 (js "supabase_insert")), s')
    ∧ contacts s' = contacts MailDemo.listed
    ∧ outbox s'
      = [Mail (MAIL_USER MailDemo.env) (QString <$> RECEIVER_MAIL MailDemo.env)
           (ContactNotice (js "Ann") MailDemo.ann (js "N/A") (js "N/A") (js "Hello"))].
Proof.
  apply (contact_store_failure_after_mail MailDemo.env MailDemo.no_store
           (Some (js "Ann")) (Some MailDemo.ann) None None (Some (js "Hello"))
           (js "fetch failed") MailDemo.listed); reflexivity.
Defined.

Lemma only_unsubscribe_takes_off_witness :
  subscribed MailDemo.ann
    (contacts
       (handle_all MailDemo.env MailDemo.fine
          [PostContact
             (Some (ContactBody (Some (js "Ann")) (Some MailDemo.ann) None None
                      (Some (js "Hello"))));
           PostSubscribe (Some (SubscribeBody (Some (js "bob@example.com"))));
           PostSubscribe None;
           PostAutomationInquiry None]
          MailDemo.listed)).
Proof.
  apply (only_unsubscribe_takes_off MailDemo.env MailDemo.fine).
  - intros c Hc. repeat (apply elem_of_cons in Hc as [->|Hc]; [done|]).
    by apply elem_of_nil in Hc.
  - exists (Contact None MailDemo.ann None None None (Some true)).
    split; [|done]. apply list_elem_of_further, list_elem_of_here.
Defined.
